(** * bbs2gh-migration: a shallow embedding of the migration wrapper

    The program is one Python script, [bbs2gh-migration.py].  It derives
    the name of the destination repository, drives an export and an
    import child process, downloads the archive over ssh, toggles the
    repository in and out of the exclusion list of the managed
    organisation rulesets, and brings the new repository in line with
    policy through a sequence of REST calls.

    Conventions of the embedding.
    - Python [str] is [string]; only ASCII text is modelled, so
      [str.lower] and [str.upper] act on the letters A-Z / a-z.
    - Values decoded from JSON are terms of [json]; a Python dict is an
      association list in insertion order, a JSON number an integer.
      Every response has a JSON body, and a request always gets a
      response.
    - Everything the script does to the outside (HTTP requests, child
      processes, shell commands, the settle delay, log records) is an
      [Event]; what the outside answers is read from an [Env].
    - [sys.exit] and uncaught exceptions are the two abnormal
      [Outcome]s; a function of the script is a computation in [M].
    - Log records keep the source's format string without
      interpolation; [print] is left out.  The [json=] body of a request
      is recorded where it is built from plain strings and decoded
      values, and left out where it carries formatted or base64 text
      (repository settings, file contents).
    - What the script computes between reading a value and sending it
      (the base64 and UTF-8 coding of file contents, the date of the
      day) is left out and taken to succeed. *)

From Stdlib Require Import String Ascii List ZArith Bool Lia.
Import ListNotations.
Open Scope string_scope.

Set Warnings "-register-all".


(** ** Python string operations *)

Module PyStr.

Definition lower_ascii (c : ascii) : ascii :=
  let n := nat_of_ascii c in
  if (65 <=? n)%nat && (n <=? 90)%nat then ascii_of_nat (n + 32) else c.

Definition upper_ascii (c : ascii) : ascii :=
  let n := nat_of_ascii c in
  if (97 <=? n)%nat && (n <=? 122)%nat then ascii_of_nat (n - 32) else c.

(** [s.lower()] *)
Fixpoint lower (s : string) : string :=
  match s with
  | EmptyString => EmptyString
  | String c s' => String (lower_ascii c) (lower s')
  end.

(** [s.upper()] *)
Fixpoint upper (s : string) : string :=
  match s with
  | EmptyString => EmptyString
  | String c s' => String (upper_ascii c) (upper s')
  end.

(** [s.startswith(p)] *)
Fixpoint startswith (p s : string) : bool :=
  match p, s with
  | EmptyString, _ => true
  | String a p', String b s' => Ascii.eqb a b && startswith p' s'
  | String _ _, EmptyString => false
  end.

(** [s.endswith(suf)] *)
Fixpoint endswith (s suf : string) : bool :=
  String.eqb s suf ||
  match s with
  | EmptyString => false
  | String _ s' => endswith s' suf
  end.

(** [p in s] for two strings *)
Fixpoint contains (p s : string) : bool :=
  startswith p s ||
  match s with
  | EmptyString => false
  | String _ s' => contains p s'
  end.

(** The scan of [str.replace]: [skip] counts the characters of the
    occurrence found last that are still to be dropped. *)
Fixpoint replace_scan (old new : string) (skip : nat) (s : string) : string :=
  match s with
  | EmptyString => EmptyString
  | String c s' =>
      match skip with
      | S k => replace_scan old new k s'
      | O =>
          if startswith old s
          then new ++ replace_scan old new (String.length old - 1) s'
          else String c (replace_scan old new 0 s')
      end
  end.

(** With an empty [old], Python puts [new] before every character and
    at the end. *)
Fixpoint interleave (new s : string) : string :=
  match s with
  | EmptyString => new
  | String c s' => new ++ String c (interleave new s')
  end.

(** [s.replace(old, new)]: every occurrence, found left to right and
    not overlapping. *)
Definition replace (old new s : string) : string :=
  match old with
  | EmptyString => interleave new s
  | String _ _ => replace_scan old new 0 s
  end.

(** [s.split(sep)[-1]] for a one-character [sep]: the text after the
    last separator. *)
Fixpoint last_segment (sep : ascii) (s : string) : string :=
  match s with
  | EmptyString => EmptyString
  | String c s' =>
      if Ascii.eqb c sep then last_segment sep s'
      else if contains (String sep EmptyString) s' then last_segment sep s'
      else s
  end.

(** What [replace(" ", "-")] does to one character. *)
Definition hyphenate_ascii (c : ascii) : ascii :=
  if Ascii.eqb " " c then "-"%char else c.

(** No occurrence of [old] starts in [a] and runs past its end into [x]. *)
Definition no_straddle (old a x : string) : Prop :=
  forall a1 c t, a = a1 ++ String c t ->
    startswith old (String c t ++ x) = true -> startswith old (String c t) = true.

End PyStr.

(** ** Destination name (lines 61-74 and 100-118) *)

(** Line 71 of [process_input]: the source repository name handed on to
    [run_migration]. *)
Definition normalize_repo_name (BB_REPO_NAME : string) : string :=
  PyStr.lower (PyStr.replace " " "-" BB_REPO_NAME).

(** [get_new_repo_name], without its log record (added where the
    pipeline calls it). *)
Definition get_new_repo_name
    (GH_ORG_NAME BB_REPO_NAME PROJECT_CODE USER_DEFINED_NAME : string) : string :=
  let repo_name_prefix := GH_ORG_NAME ++ "-" ++ PROJECT_CODE ++ "-" in
  let repo_name_prefix := PyStr.replace "pru-" EmptyString repo_name_prefix in
  let no_space_BB_REPO_NAME := PyStr.replace " " "-" BB_REPO_NAME in
  let no_space_BB_REPO_NAME :=
    if negb (String.eqb USER_DEFINED_NAME "None")
    then PyStr.replace " " "-" USER_DEFINED_NAME
    else no_space_BB_REPO_NAME in
  let GH_REPO_NAME := repo_name_prefix ++ no_space_BB_REPO_NAME in
  PyStr.lower GH_REPO_NAME.

(** The destination name in the words of the specification: the
    organisation with the tenant marker stripped, the project code and
    the slug, joined by hyphens, lowercased. *)
Definition spec_destination_name (org project_code slug : string) : string :=
  PyStr.lower (PyStr.replace "pru-" EmptyString org ++ "-" ++ project_code ++ "-" ++ slug).

(** ** Values decoded from JSON, and the Python operations on them *)

Inductive json : Type :=
| JNull
| JBool (b : bool)
| JNum (n : Z)
| JStr (s : string)
| JArr (items : list json)
| JObj (fields : list (string * json)).

(** The exceptions the script can meet. *)
Inductive Exn : Type :=
| KeyError | TypeError | AttributeError | ValueError | IndexError
| UnboundLocalError | CalledProcessError.

(** How a piece of the script ends: normally with a value, through
    [sys.exit(code)] ([sys.exit()] is code 0), or with an exception. *)
Inductive Outcome (A : Type) : Type :=
| Normal (a : A)
| Exit (code : Z)
| Raise (e : Exn).

Arguments Normal {A} a.
Arguments Exit {A} code.
Arguments Raise {A} e.

Definition obind {A B} (o : Outcome A) (f : A -> Outcome B) : Outcome B :=
  match o with
  | Normal a => f a
  | Exit c => Exit c
  | Raise e => Raise e
  end.

Module Py.

(** First binding of a key, as a dict read. *)
Fixpoint lookup (k : string) (d : list (string * json)) : option json :=
  match d with
  | [] => None
  | (k', v) :: d' => if String.eqb k k' then Some v else lookup k d'
  end.

(** [d[k] = v]: the binding is replaced where it stands, a new key
    goes last. *)
Fixpoint dict_set (k : string) (v : json) (d : list (string * json))
  : list (string * json) :=
  match d with
  | [] => [(k, v)]
  | (k', v') :: d' =>
      if String.eqb k k' then (k', v) :: d' else (k', v') :: dict_set k v d'
  end.

(** [bool(x)] *)
Definition truthy (x : json) : bool :=
  match x with
  | JNull => false
  | JBool b => b
  | JNum n => negb (n =? 0)%Z
  | JStr s => negb (String.eqb s EmptyString)
  | JArr l => match l with [] => false | _ => true end
  | JObj d => match d with [] => false | _ => true end
  end.

(** [x[k]] with a string key. *)
Definition getitem (x : json) (k : string) : Outcome json :=
  match x with
  | JObj d => match lookup k d with Some v => Normal v | None => Raise KeyError end
  | _ => Raise TypeError
  end.

(** [x.get(k, default)] *)
Definition get (x : json) (k : string) (default : json) : Outcome json :=
  match x with
  | JObj d => match lookup k d with Some v => Normal v | None => Normal default end
  | _ => Raise AttributeError
  end.

(** [x[0]] *)
Definition index0 (x : json) : Outcome json :=
  match x with
  | JArr (v :: _) => Normal v
  | JArr [] => Raise IndexError
  | JStr (String c _) => Normal (JStr (String c EmptyString))
  | JStr EmptyString => Raise IndexError
  | JObj _ => Raise KeyError
  | _ => Raise TypeError
  end.

(** [x == s] for a string [s]: among JSON values only an equal string. *)
Definition eq_str (x : json) (s : string) : bool :=
  match x with
  | JStr s' => String.eqb s' s
  | _ => false
  end.

(** [s in l] for a string [s] and a list [l]. *)
Definition mem_str (s : string) (l : list json) : bool :=
  existsb (fun v => eq_str v s) l.

(** [k in x] for a string [k]. *)
Definition contains_key (k : string) (x : json) : Outcome bool :=
  match x with
  | JObj d => Normal (match lookup k d with Some _ => true | None => false end)
  | JArr l => Normal (mem_str k l)
  | JStr s => Normal (PyStr.contains k s)
  | _ => Raise TypeError
  end.

(** What [for v in x] visits. *)
Fixpoint chars (s : string) : list json :=
  match s with
  | EmptyString => []
  | String c s' => JStr (String c EmptyString) :: chars s'
  end.

Definition iter (x : json) : Outcome (list json) :=
  match x with
  | JArr l => Normal l
  | JObj d => Normal (map (fun kv => JStr (fst kv)) d)
  | JStr s => Normal (chars s)
  | _ => Raise TypeError
  end.

(** [x > 0] *)
Definition gt0 (x : json) : Outcome bool :=
  match x with
  | JNum n => Normal (0 <? n)%Z
  | JBool b => Normal b
  | _ => Raise TypeError
  end.

(** [l.append(v)], giving the list afterwards. *)
Definition append (x : json) (v : json) : Outcome json :=
  match x with
  | JArr l => Normal (JArr (l ++ [v])%list)
  | _ => Raise AttributeError
  end.

(** The first element equal to the string [s] is taken out. *)
Fixpoint remove_first (s : string) (l : list json) : option (list json) :=
  match l with
  | [] => None
  | v :: l' =>
      if eq_str v s then Some l'
      else match remove_first s l' with
           | Some r => Some (v :: r)
           | None => None
           end
  end.

(** [l.remove(s)], giving the list afterwards. *)
Definition remove (x : json) (s : string) : Outcome json :=
  match x with
  | JArr l =>
      match remove_first s l with
      | Some r => Normal (JArr r)
      | None => Raise ValueError
      end
  | _ => Raise AttributeError
  end.

(** The object [x] after the value under [k] was changed in place. *)
Definition with_field (x : json) (k : string) (v : json) : json :=
  match x with
  | JObj d => JObj (dict_set k v d)
  | _ => x
  end.

(** [f"{x}"] for a value that is a string or [None]. *)
Definition str_opt (x : option string) : string :=
  match x with
  | Some s => s
  | None => "None"
  end.

End Py.

(** ** The outside world: requests, processes, events *)

Inductive Method : Type := GET | POST | PUT | PATCH | DELETE.

(** The resources the script addresses; [api] stands for
    https://api.github.com.  The ruleset id is kept as the JSON value
    the script interpolates into the URL. *)
Inductive Endpoint : Type :=
| ProjectRegistry (code : string)
    (* https://core.pru.intranet.asia/rest/projects/?code={code} *)
| OrgTeam (org team_slug : string)
    (* api/orgs/{org}/teams/{team_slug} *)
| TeamRepo (org team_slug repo : string)
    (* api/orgs/{org}/teams/{team_slug}/repos/{org}/{repo} *)
| Repo (org repo : string)
    (* api/repos/{org}/{repo} *)
| RepoContents (org repo file_name : string)
    (* api/repos/{org}/{repo}/contents/{file_name} *)
| RepoProperties (org repo : string)
    (* api/repos/{org}/{repo}/properties/values *)
| RepoEnvironment (org repo env : string)
    (* api/repos/{org}/{repo}/environments/{env} *)
| RepoBranchPolicies (org repo env : string)
    (* api/repos/{org}/{repo}/environments/{env}/deployment-branch-policies *)
| RepoTopics (org repo : string)
    (* api/repos/{org}/{repo}/topics *)
| RepoHooks (org repo : string)
    (* api/repos/{org}/{repo}/hooks *)
| RepoCollaborator (org repo user : string)
    (* api/repos/{org}/{repo}/collaborators/{user} *)
| OrgRulesets (org : string)
    (* api/orgs/{org}/rulesets *)
| OrgRuleset (org : string) (id : json)
    (* api/orgs/{org}/rulesets/{id} *).

Record Request : Type := mkRequest {
  meth : Method;
  target : Endpoint;
  body : option json   (* the [json=] argument, where it is modelled *)
}.

Record Response : Type := mkResponse {
  status_code : Z;
  json_of : json       (* [response.json()] *)
}.

(** A finished child process of [subprocess.Popen]: the lines read from
    its standard output until it exited, its error stream, its exit
    code. *)
Record Process : Type := mkProcess {
  stdout : list string;
  stderr : string;
  returncode : Z
}.

Inductive Level : Type := INFO | ERROR.

Inductive Event : Type :=
| EvHttp (req : Request) (resp : Response)
| EvPopen (command : string)
| EvRun (command : string)
| EvSleep (seconds : Z)
| EvLog (level : Level) (message : string).

(** What the outside answers; every answer may depend on what the
    script did before. *)
Record Env : Type := mkEnv {
  getenv : string -> option string;
  http : list Event -> Request -> Response;
  popen : list Event -> string -> Process;
  shell : list Event -> string -> Z   (* exit code of [subprocess.run] *)
}.

(** A computation reads the environment and the events so far, and
    gives an outcome and the events it added. *)
Definition M (A : Type) : Type := Env -> list Event -> Outcome A * list Event.

Definition ret {A} (a : A) : M A := fun _ _ => (Normal a, []).

(** The result of a continuation, behind the events [es] that came
    before it. *)
Definition prepend {A} (es : list Event) (r : Outcome A * list Event)
  : Outcome A * list Event :=
  (fst r, (es ++ snd r)%list).

Definition bind {A B} (m : M A) (f : A -> M B) : M B :=
  fun env h =>
    match m env h with
    | (Normal a, es) => prepend es (f a env (h ++ es)%list)
    | (Exit c, es) => (Exit c, es)
    | (Raise e, es) => (Raise e, es)
    end.

Declare Scope py_scope.
Delimit Scope py_scope with py.
Notation "x <- m ;; k" := (bind m (fun x => k))
  (at level 61, m at next level, right associativity) : py_scope.
Notation "m ;; k" := (bind m (fun _ => k))
  (at level 61, right associativity) : py_scope.
Open Scope py_scope.

Definition lift {A} (o : Outcome A) : M A := fun _ _ => (o, []).
Definition raise {A} (e : Exn) : M A := lift (Raise e).
Definition sys_exit {A} (code : Z) : M A := lift (Exit code).
Definition emit (e : Event) : M unit := fun _ _ => (Normal tt, [e]).

Definition log_info (message : string) : M unit := emit (EvLog INFO message).
Definition log_error (message : string) : M unit := emit (EvLog ERROR message).

Definition os_getenv (name : string) : M (option string) :=
  fun env _ => (Normal (getenv env name), []).

Definition requests (m : Method) (t : Endpoint) (b : option json) : M Response :=
  fun env h =>
    let req := mkRequest m t b in
    let resp := http env h req in
    (Normal resp, [EvHttp req resp]).

Definition subprocess_Popen (command : string) : M Process :=
  fun env h => (Normal (popen env h command), [EvPopen command]).

Definition subprocess_run (command : string) : M Z :=
  fun env h => (Normal (shell env h command), [EvRun command]).

Definition time_sleep (seconds : Z) : M unit := emit (EvSleep seconds).

(** [try: body except Exception: handler]; [SystemExit] is not an
    [Exception] and passes through. *)
Definition try_except {A} (body : M A) (handler : Exn -> M A) : M A :=
  fun env h =>
    match body env h with
    | (Raise e, es) => prepend es (handler e env (h ++ es)%list)
    | r => r
    end.

(** [for x in l: f x] *)
Fixpoint for_each {A} (l : list A) (f : A -> M unit) : M unit :=
  match l with
  | [] => ret tt
  | x :: l' => f x ;; for_each l' f
  end.

(** Reading a local variable that an earlier branch may have left
    unassigned. *)
Definition read_local {A} (v : option A) : M A :=
  match v with
  | Some a => ret a
  | None => raise UnboundLocalError
  end.

Definition status_in (r : Response) (codes : list Z) : bool :=
  existsb (Z.eqb (status_code r)) codes.

(** The events a computation adds, and how it ends. *)
Definition events_of {A} (m : M A) (env : Env) (h : list Event) : list Event :=
  snd (m env h).
Definition outcome_of {A} (m : M A) (env : Env) (h : list Event) : Outcome A :=
  fst (m env h).

(** The requests among some events, in order. *)
Fixpoint requests_in (es : list Event) : list Request :=
  match es with
  | [] => []
  | EvHttp r _ :: es' => r :: requests_in es'
  | _ :: es' => requests_in es'
  end.

(** ** Ruleset guard (lines 590-650) *)

(** [update_ruleset] *)
Definition update_ruleset (org_code : string) (existing_ruleset_id conditions : json)
  : M unit :=
  log_info "Updating ruleset {existing_ruleset_id}" ;;
  response <- requests PUT (OrgRuleset org_code existing_ruleset_id)
                (Some (JObj [("conditions", conditions)])) ;;
  log_info "{conditions}" ;;
  if negb (status_in response [200; 201])%Z then
    error_message <- lift (Py.get (json_of response) "message" JNull) ;;
    log_error "Failed to update ruleset for {existing_ruleset_id}. Status code: {response.status_code}, Message: {error_message}" ;;
    sys_exit 1
  else ret tt.

(** The rulesets "managed by GT" (line 622; the third name ends in a
    space in the source). *)
Definition managed_rulesets : list string :=
  ["branch_names"; "main_and_master"; "other_protected_branch ";
   "restrict_binary_file_upload"].

(** Line 624:
    [next((r['id'] for r in existing_rulesets if r['name'] == ruleset_name), None)] *)
Fixpoint first_id_named (ruleset_name : string) (existing_rulesets : list json)
  : Outcome json :=
  match existing_rulesets with
  | [] => Normal JNull
  | r :: rest =>
      obind (Py.getitem r "name") (fun n =>
        if Py.eq_str n ruleset_name then Py.getitem r "id"
        else first_id_named ruleset_name rest)
  end.

(** Line 636: [cond['repository_name']['exclude'].append(repo_name)];
    the result is the condition object after the in-place change. *)
Definition exclude_append (cond : json) (repo_name : string) : Outcome json :=
  obind (Py.getitem cond "repository_name") (fun rn =>
  obind (Py.getitem rn "exclude") (fun ex =>
  obind (Py.append ex (JStr repo_name)) (fun ex' =>
  Normal (Py.with_field cond "repository_name" (Py.with_field rn "exclude" ex'))))).

(** Line 643: [cond['repository_name']['exclude'].remove(repo_name)] *)
Definition exclude_remove (cond : json) (repo_name : string) : Outcome json :=
  obind (Py.getitem cond "repository_name") (fun rn =>
  obind (Py.getitem rn "exclude") (fun ex =>
  obind (Py.remove ex repo_name) (fun ex' =>
  Normal (Py.with_field cond "repository_name" (Py.with_field rn "exclude" ex'))))).

(** Lines 645-646: when neither list holds anything, ["~ALL"] is
    appended to the include list. *)
Definition include_all_if_empty (cond : json) : Outcome json :=
  obind (Py.getitem cond "repository_name") (fun rn =>
  obind (Py.getitem rn "exclude") (fun ex =>
  if negb (Py.truthy ex) then
    obind (Py.getitem rn "include") (fun inc =>
    if negb (Py.truthy inc) then
      obind (Py.append inc (JStr "~ALL")) (fun inc' =>
      Normal (Py.with_field cond "repository_name" (Py.with_field rn "include" inc')))
    else Normal cond)
  else Normal cond)).

(** The two lists of a condition object whose [repository_name] entry
    has the shape the platform documents. *)
Definition repository_name_lists (cond : json) : option (list json * list json) :=
  match cond with
  | JObj d =>
      match Py.lookup "repository_name" d with
      | Some (JObj rn) =>
          match Py.lookup "exclude" rn, Py.lookup "include" rn with
          | Some (JArr ex), Some (JArr inc) => Some (ex, inc)
          | _, _ => None
          end
      | _ => None
      end
  | _ => None
  end.

(** The exclude list of a condition object, where it has one. *)
Definition exclude_list (cond : json) : option (list json) :=
  match cond with
  | JObj d =>
      match Py.lookup "repository_name" d with
      | Some (JObj rn) =>
          match Py.lookup "exclude" rn with
          | Some (JArr ex) => Some ex
          | _ => None
          end
      | _ => None
      end
  | _ => None
  end.

(** A condition object with the exclude list of its [repository_name]
    entry put to [ex], all else as it was. *)
Definition with_exclude (cond : json) (ex : list json) : json :=
  match cond with
  | JObj d =>
      match Py.lookup "repository_name" d with
      | Some (JObj rn) =>
          JObj (Py.dict_set "repository_name"
                  (JObj (Py.dict_set "exclude" (JArr ex) rn)) d)
      | _ => cond
      end
  | _ => cond
  end.

(** A condition object with the include list of its [repository_name]
    entry put to [inc], all else as it was. *)
Definition with_include (cond : json) (inc : list json) : json :=
  match cond with
  | JObj d =>
      match Py.lookup "repository_name" d with
      | Some (JObj rn) =>
          JObj (Py.dict_set "repository_name"
                  (JObj (Py.dict_set "include" (JArr inc) rn)) d)
      | _ => cond
      end
  | _ => cond
  end.

(** The condition object that the [add] branch hands to
    [update_ruleset]. *)
Definition conditions_after_add (cond : json) (repo_name : string) : Outcome json :=
  exclude_append cond repo_name.

(** The condition object that the [remove] branch hands to
    [update_ruleset]. *)
Definition conditions_after_remove (cond : json) (repo_name : string) : Outcome json :=
  obind (exclude_remove cond repo_name) include_all_if_empty.

(** The body of the loop of [repo_name_to_exclusion_ruleset]
    (lines 620-650) for one entry of the listing. *)
Definition toggle_ruleset (org_code repo_name action : string)
    (existing_rulesets : list json) (ruleset : json) : M unit :=
  ruleset_name <- lift (Py.getitem ruleset "name") ;;
  match ruleset_name with
  | JStr name =>
      if existsb (String.eqb name) managed_rulesets then
        existing_ruleset_id <- lift (first_id_named name existing_rulesets) ;;
        response <- requests GET (OrgRuleset org_code existing_ruleset_id) None ;;
        (if negb (status_in response [200; 201])%Z then
           error_message <- lift (Py.get (json_of response) "message" JNull) ;;
           log_error "Failed to get ruleset for {org_code}. Status code: {response.status_code}, Message: {error_message}" ;;
           sys_exit 1
         else ret tt) ;;
        existing_ruleset_condition <- lift (Py.getitem (json_of response) "conditions") ;;
        let invalid :=
          log_error "Invalid action or repository_name condition not found in the ruleset." in
        if String.eqb action "add" then
          present <- lift (Py.contains_key "repository_name" existing_ruleset_condition) ;;
          if present then
            cond <- lift (conditions_after_add existing_ruleset_condition repo_name) ;;
            update_ruleset org_code existing_ruleset_id cond
          else invalid
        else if String.eqb action "remove" then
          present <- lift (Py.contains_key "repository_name" existing_ruleset_condition) ;;
          if present then
            log_info "removing reponame from the exclude list.." ;;
            log_info "{existing_ruleset_condition}" ;;
            log_info "{repo_name}" ;;
            cond <- lift (conditions_after_remove existing_ruleset_condition repo_name) ;;
            update_ruleset org_code existing_ruleset_id cond
          else invalid
        else invalid
      else ret tt
  | _ => ret tt
  end.

(** [repo_name_to_exclusion_ruleset] *)
Definition repo_name_to_exclusion_ruleset (org_code repo_name action : string) : M unit :=
  response <- requests GET (OrgRulesets org_code) None ;;
  (if negb (status_in response [200; 201])%Z then
     error_message <- lift (Py.get (json_of response) "message" JNull) ;;
     log_error "Failed to get ruleset for {org_code}. Status code: {response.status_code}, Message: {error_message}" ;;
     sys_exit 1
   else ret tt) ;;
  existing_rulesets <- lift (Py.iter (json_of response)) ;;
  for_each existing_rulesets
    (toggle_ruleset org_code repo_name action existing_rulesets).

(** ** Identity resolver: team names and validation (lines 29-98) *)

Definition roles : list string := ["Viewers"; "Contributors"; "Managers"].
Definition gh_team_format : string := "Project-<project_code>-<role>".

Definition get_gh_team_name (project_code role : string) : string :=
  PyStr.replace "<role>" role
    (PyStr.replace "<project_code>" (PyStr.upper project_code) gh_team_format).

Definition valid_team_slug (org_login team_slug : string) : M bool :=
  response <- requests GET (OrgTeam org_login team_slug) None ;;
  ret (status_code response =? 200)%Z.

Definition validate (project_code org_login : string) : M unit :=
  response <- requests GET (ProjectRegistry project_code) None ;;
  known <- (if (status_code response =? 200)%Z then
              count <- lift (Py.getitem (json_of response) "count") ;;
              lift (Py.gt0 count)
            else ret false) ;;
  (if known then log_info "Project code {project_code} is valid."
   else
     log_error "Project code {project_code} is invalid. Please onboard to https://core.pru.intranet.asia/org/projects/" ;;
     sys_exit 0) ;;
  for_each roles (fun role =>
    let team_slug := get_gh_team_name project_code role in
    ok <- valid_team_slug org_login team_slug ;;
    if negb ok then
      log_error "Team '{team_slug}' does not exist in the organization '{org_login}'." ;;
      log_error "Please update the prucore project {project_code} to include this organisation '{org_login}'" ;;
      sys_exit 1
    else ret tt).

(** ** Prerequisites (lines 120-138) *)

Definition required_env_vars : list string :=
  ["BBS_USERNAME"; "BBS_PASSWORD"; "GH_PAT"; "AZURE_STORAGE_CONNECTION_STRING";
   "BB_SERVER"; "BB_SSH_USERNAME"].

Definition set_migration_prequisite : M unit :=
  for_each required_env_vars (fun var_name =>
    var_value <- os_getenv var_name ;;
    match var_value with
    | None =>
        log_error "Environment variable '{var_name}' is not set." ;;
        raise ValueError
    | Some _ => ret tt
    end).

(** ** Transfer agent: export and download (lines 140-208) *)

(** The characters [\s] matches (ASCII). *)
Definition is_space (c : ascii) : bool :=
  let n := nat_of_ascii c in
  ((9 <=? n)%nat && (n <=? 13)%nat) || ((28 <=? n)%nat && (n <=? 32)%nat).

Fixpoint take_nonspace (s : string) : string :=
  match s with
  | EmptyString => EmptyString
  | String c s' => if is_space c then EmptyString else String c (take_nonspace s')
  end.

Fixpoint drop (n : nat) (s : string) : string :=
  match n, s with
  | O, _ => s
  | S _, EmptyString => EmptyString
  | S k, String _ s' => drop k s'
  end.

Definition shared_home : string := "BITBUCKET_SHARED_HOME".

(** [re.search(r"BITBUCKET_SHARED_HOME(\S+)", output)], giving
    [group(1)] of the leftmost match. *)
Fixpoint search_shared_home (output : string) : option string :=
  match output with
  | EmptyString => None
  | String _ rest =>
      if PyStr.startswith shared_home output then
        match take_nonspace (drop (String.length shared_home) output) with
        | EmptyString => search_shared_home rest
        | g => Some g
        end
      else search_shared_home rest
  end.

(** One turn of the reading loop (lines 154-164) on a line that was
    read; [archive_file_path] is the local variable, unassigned at
    first. *)
Definition read_export_line (archive_file_path : option string) (output : string)
  : option string :=
  if negb (String.eqb output EmptyString) then
    if PyStr.contains "Export completed" output then
      match search_shared_home output with
      | Some p => Some p
      | None => archive_file_path
      end
    else archive_file_path
  else archive_file_path.

Definition export_command (BB_PROJECT_KEY BB_REPO_NAME : string) : string :=
  "gh bbs2gh migrate-repo --bbs-server-url " ++ "https://code-new.pru.intranet.asia:8443/"
  ++ " --bbs-project " ++ BB_PROJECT_KEY ++ " --bbs-repo " ++ BB_REPO_NAME.

(** [run_export_archive]; the result is the archive path, or [None]
    when the function falls off its end. *)
Definition run_export_archive
    (BB_PROJECT_KEY BB_REPO_NAME PROJECT_CODE GH_ORG_NAME : string) : M (option string) :=
  log_info "Running the export command for {BB_PROJECT_KEY}/{BB_REPO_NAME}..." ;;
  process <- subprocess_Popen (export_command BB_PROJECT_KEY BB_REPO_NAME) ;;
  try_except
    (let archive_file_path := fold_left read_export_line (stdout process) None in
     let err := stderr process in
     (if negb (String.eqb err EmptyString) then
        log_error "Export command failed, Please see the *.log in current folder for more details." ;;
        sys_exit 0
      else ret tt) ;;
     match archive_file_path with
     | Some p => ret (Some p)
     | None => ret None
     end)
    (fun e =>
       log_error "An error occurred: {e}" ;;
       sys_exit 0).

(** [run_command] *)
Definition run_command (command : string) : M unit :=
  rc <- subprocess_run command ;;
  if (rc =? 0)%Z then log_info "Command '{command}' executed successfully."
  else
    log_error "Command '{command}' failed with error code {e.returncode}." ;;
    raise CalledProcessError.

(** [EXPORT_ARCHIVE_FILE_PATH.split("/")[-1]] *)
Definition local_archive_name (EXPORT_ARCHIVE_FILE_PATH : option string) : M string :=
  match EXPORT_ARCHIVE_FILE_PATH with
  | Some p => ret (PyStr.last_segment "/" p)
  | None => raise AttributeError
  end.

(** The double quote inside the shell commands. *)
Definition dquote : string := String (ascii_of_nat 34) EmptyString.

Definition ssh_prefix (user server : option string) : string :=
  "ssh -o StrictHostKeyChecking=no -i ~/.ssh/id_rsa "
  ++ Py.str_opt user ++ "@" ++ Py.str_opt server ++ " ".

(** [scp_command] *)
Definition scp_command (EXPORT_ARCHIVE_FILE_PATH : option string) : M unit :=
  let REMOTE_FILE_PATH :=
    "/apps/bitbucket/bitbucket/shared" ++ Py.str_opt EXPORT_ARCHIVE_FILE_PATH in
  LOCAL_ARCHIVE_FILE_PATH <- local_archive_name EXPORT_ARCHIVE_FILE_PATH ;;
  BB_SERVER <- os_getenv "BB_SERVER" ;;
  BB_SSH_USERNAME <- os_getenv "BB_SSH_USERNAME" ;;
  let BB_TMP_LOCATION := "/mnt/bbmigration" in
  let staged := BB_TMP_LOCATION ++ "/" ++ LOCAL_ARCHIVE_FILE_PATH in
  run_command (ssh_prefix BB_SSH_USERNAME BB_SERVER
               ++ dquote ++ "dzdo cat " ++ REMOTE_FILE_PATH ++ " > " ++ staged ++ dquote) ;;
  run_command ("scp -o StrictHostKeyChecking=no -i ~/.ssh/id_rsa "
               ++ Py.str_opt BB_SSH_USERNAME ++ "@" ++ Py.str_opt BB_SERVER
               ++ ":" ++ staged ++ " .") ;;
  run_command (ssh_prefix BB_SSH_USERNAME BB_SERVER
               ++ dquote ++ "rm " ++ staged ++ dquote).

(** ** Import driver (lines 210-240) *)

Definition import_command
    (LOCAL_ARCHIVE_FILE_PATH GH_ORG_NAME GH_NEW_REPO_NAME BB_PROJECT_KEY BB_REPO_NAME : string)
  : string :=
  "gh bbs2gh migrate-repo --archive-path " ++ LOCAL_ARCHIVE_FILE_PATH
  ++ " --github-org " ++ GH_ORG_NAME ++ " --github-repo " ++ GH_NEW_REPO_NAME
  ++ " --bbs-server-url " ++ "https://code.pruconnect.net"
  ++ " --bbs-project " ++ BB_PROJECT_KEY ++ " --bbs-repo " ++ BB_REPO_NAME.

(** [run_import_archive] *)
Definition run_import_archive
    (BB_PROJECT_KEY BB_REPO_NAME PROJECT_CODE GH_ORG_NAME : string)
    (EXPORT_ARCHIVE_FILE_PATH : option string) (GH_NEW_REPO_NAME : string) : M unit :=
  LOCAL_ARCHIVE_FILE_PATH <- local_archive_name EXPORT_ARCHIVE_FILE_PATH ;;
  log_info "Migrating the repo {BB_PROJECT_KEY}/{BB_REPO_NAME} to {GH_ORG_NAME}/{GH_NEW_REPO_NAME}..." ;;
  process <- subprocess_Popen
               (import_command LOCAL_ARCHIVE_FILE_PATH GH_ORG_NAME GH_NEW_REPO_NAME
                  BB_PROJECT_KEY BB_REPO_NAME) ;;
  try_except
    (let err := stderr process in
     if negb (String.eqb err EmptyString) then
       log_error "Import command failed, Please see the *.log in current folder for more details." ;;
       sys_exit 0
     else ret tt)
    (fun e =>
       log_error "An error occurred: {e}" ;;
       sys_exit 0).

(** ** Post-migration configurator (lines 286-517, 652-742) *)

(** [get_project_details]; Python's [None] is [JNull]. *)
Definition get_project_details (prj_code : string) : M json :=
  response <- requests GET (ProjectRegistry prj_code) None ;;
  if (status_code response =? 200)%Z then
    let response_data := json_of response in
    count <- lift (Py.get response_data "count" (JNum 0)) ;;
    positive <- lift (Py.gt0 count) ;;
    if positive then
      results <- lift (Py.get response_data "results" (JArr [])) ;;
      lift (Py.index0 results)
    else ret JNull
  else ret JNull.

(** [update_org_repository] *)
Definition update_org_repository (org_login repo_slug project_code : string) : M bool :=
  details <- get_project_details project_code ;;
  project_name <- lift (Py.get details "name" JNull) ;;
  response <- requests PATCH (Repo org_login repo_slug) None ;;
  (if status_in response [200; 201]%Z then
     id <- lift (Py.getitem (json_of response) "id") ;;
     log_info "Repository '{repo_slug}' created successfully with ID: {result_data['id']}"
   else
     log_error "Failed to update repository. Status code: {response.status_code}" ;;
     log_error "{response.text}" ;;
     sys_exit 1) ;;
  ret (status_code response =? 201)%Z.

(** [create_status_file_in_repo] *)
Definition create_status_file_in_repo
    (GH_ORG_NAME GH_NEW_REPO_NAME BB_PROJECT_KEY BB_REPO_NAME : string) : M unit :=
  let file_name := "migration_status.txt" in
  response <- requests PUT (RepoContents GH_ORG_NAME GH_NEW_REPO_NAME file_name) None ;;
  if (status_code response =? 201)%Z then
    log_info "{file_name} file created successfully."
  else
    log_info "Failed to create file {file_name}." ;;
    log_error "{response.text}".

(** [create_codeowners_in_repo] *)
Definition create_codeowners_in_repo
    (GH_ORG_NAME GH_NEW_REPO_NAME BB_PROJECT_KEY BB_REPO_NAME PROJECT_CODE : string)
  : M unit :=
  let file_name := "CODEOWNERS" in
  response <- requests PUT (RepoContents GH_ORG_NAME GH_NEW_REPO_NAME file_name) None ;;
  if (status_code response =? 201)%Z then
    log_info "{file_name} file created successfully."
  else
    log_info "Failed to create file {file_name}." ;;
    log_error "{response.text}".

(** [update_repo_properties] *)
Definition update_repo_properties (GH_ORG_NAME GH_NEW_REPO_NAME : string) : M unit :=
  let property name value :=
    JObj [("property_name", JStr name); ("value", JStr value)] in
  let properties :=
    JArr [property "default_branch" "main"; property "deployment_type" "others";
          property "pipeline_type" "Jenkins"; property "production_workflow" "null"] in
  response <- requests PATCH (RepoProperties GH_ORG_NAME GH_NEW_REPO_NAME)
                (Some (JObj [("properties", properties)])) ;;
  if (status_code response =? 200)%Z || (status_code response =? 201)%Z
     || (status_code response =? 204)%Z then
    log_info "repository custom properties updated"
  else
    log_info "Failed to update repository custom properties" ;;
    log_error "{response.text}".

(** [update_or_create_enviroments]; [team_id] is the local variable
    that only the success branch of the team lookup assigns. *)
Definition update_or_create_enviroments
    (GH_ORG_NAME GH_NEW_REPO_NAME PROJECT_CODE : string) : M unit :=
  let environments := ["production"] in
  let team_slug := get_gh_team_name (PyStr.upper PROJECT_CODE) "Managers" in
  response <- requests GET (OrgTeam GH_ORG_NAME team_slug) None ;;
  team_id <- (if (status_code response =? 200)%Z then
                id <- lift (Py.get (json_of response) "id" JNull) ;;
                ret (Some id)
              else
                log_error "Failed to get team id for '{team_slug}'. Status code: {response.status_code}" ;;
                log_error "{response.text}" ;;
                ret None) ;;
  for_each environments (fun env =>
    data <- (if String.eqb env "production" then
               id <- read_local team_id ;;
               ret (JObj [("prevent_self_review", JBool true);
                          ("reviewers", JArr [JObj [("type", JStr "Team"); ("id", id)]]);
                          ("deployment_branch_policy",
                           JObj [("protected_branches", JBool false);
                                 ("custom_branch_policies", JBool true)])])
             else
               ret (JObj [("reviewers", JArr []);
                          ("deployment_branch_policy",
                           JObj [("protected_branches", JBool false);
                                 ("custom_branch_policies", JBool true)])])) ;;
    response <- requests PUT (RepoEnvironment GH_ORG_NAME GH_NEW_REPO_NAME env)
                  (Some data) ;;
    (if (status_code response =? 200)%Z then
       log_info "Environment '{env}' added to the repository '{GH_NEW_REPO_NAME}' successfully."
     else
       log_error "Failed to add environment '{env}' to the repository '{GH_NEW_REPO_NAME}'. Status code: {response.status_code}" ;;
       log_error "{response.text}") ;;
    if String.eqb env "production" then
      for_each ["main"; "master"] (fun branch =>
        response <- requests POST
                      (RepoBranchPolicies GH_ORG_NAME GH_NEW_REPO_NAME env)
                      (Some (JObj [("name", JStr branch); ("type", JStr "branch")])) ;;
        if (status_code response =? 200)%Z then
          log_info "Deployment branch policy added to the repository '{GH_NEW_REPO_NAME}' successfully for the environment '{env}'."
        else
          log_error "Failed to add deployment branch policy to the repository '{GH_NEW_REPO_NAME}'. Status code: {response.status_code}" ;;
          log_error "{response.text}")
    else ret tt).

(** [update_org_repository_topics] *)
Definition update_org_repository_topics
    (GH_ORG_NAME GH_NEW_REPO_NAME PROJECT_CODE : string) : M unit :=
  let topics := JArr [JStr (PyStr.lower PROJECT_CODE)] in
  response <- requests PUT (RepoTopics GH_ORG_NAME GH_NEW_REPO_NAME)
                (Some (JObj [("names", topics)])) ;;
  if (status_code response =? 200)%Z then
    log_info "Topics '{topics}' added to the repository '{GH_NEW_REPO_NAME}' successfully."
  else
    log_error "Failed to add topics '{topics}' to the repository '{GH_NEW_REPO_NAME}'. Status code: {response.status_code}" ;;
    log_error "{response.text}".

Definition permission_of (role : string) : string :=
  if String.eqb role "Viewers" then "pull"
  else if String.eqb role "Contributors" then "push"
  else if String.eqb role "Managers" then "managers"
  else "pull".

(** [update_org_repository_access] *)
Definition update_org_repository_access
    (GH_ORG_NAME GH_NEW_REPO_NAME PROJECT_CODE : string) : M unit :=
  for_each roles (fun role =>
    let team_slug := get_gh_team_name (PyStr.upper PROJECT_CODE) role in
    response <- requests PUT (TeamRepo GH_ORG_NAME team_slug GH_NEW_REPO_NAME)
                  (Some (JObj [("permission", JStr (permission_of role))])) ;;
    if (status_code response =? 204)%Z then
      log_info "Team '{team_slug}' added to the repository '{GH_NEW_REPO_NAME}' successfully with '{permission}' permission."
    else
      log_error "Failed to add team '{team_slug}' to the repository '{GH_NEW_REPO_NAME}'. Status code: {response.status_code}" ;;
      log_error "{response.text}" ;;
      sys_exit 1).

(** [update_migration_tracker]; [sha] and [content] are the local
    variables that only the success branch of the read assigns. *)
Definition update_migration_tracker
    (GH_ORG_NAME GH_NEW_REPO_NAME BB_PROJECT_KEY BB_REPO_NAME : string) : M unit :=
  let file_name := "migration_tracker.txt" in
  let api := RepoContents "pru-pss" "pss-eta-bb2gh_migration" file_name in
  response <- requests GET api None ;;
  locals <- (if (status_code response =? 200)%Z then
               let file_info := json_of response in
               sha <- lift (Py.getitem file_info "sha") ;;
               content <- lift (Py.getitem file_info "content") ;;
               ret (Some sha, Some content)
             else
               log_error "Failed to get file {file_name}." ;;
               log_error "{response.text}" ;;
               ret (None, None)) ;;
  let '(sha, content) := locals in
  content <- read_local content ;;
  sha <- read_local sha ;;
  response <- requests PUT api None ;;
  if (status_code response =? 200)%Z then
    log_info "{file_name} file is updated successfully."
  else
    log_info "Failed to update file {file_name}." ;;
    log_error "{response.text}".

(** [update_repository_webhook] *)
Definition update_repository_webhook
    (GH_ORG_NAME GH_NEW_REPO_NAME BB_PROJECT_KEY BB_REPO_NAME PIPELINE_TYPE : string)
  : M unit :=
  if String.eqb PIPELINE_TYPE "Platform_Jenkins" || String.eqb PIPELINE_TYPE "Old_Jenkins"
  then
    let WEBHOOK_URL :=
      if String.eqb PIPELINE_TYPE "Platform_Jenkins"
      then "https://platform-jenkins.pruconnect.net/jenkins/github-webhook/"
      else "https://jenkins.pruconnect.net/github-webhook/" in
    let payload :=
      JObj [("name", JStr "web"); ("active", JBool true);
            ("events", JArr [JStr "push"; JStr "pull_request"; JStr "create"; JStr "delete"]);
            ("config", JObj [("url", JStr WEBHOOK_URL); ("content_type", JStr "json");
                             ("insecure_ssl", JStr "0")])] in
    response <- requests POST (RepoHooks GH_ORG_NAME GH_NEW_REPO_NAME) (Some payload) ;;
    if (status_code response =? 201)%Z then
      log_info "Webhook created successfully for the repository '{GH_NEW_REPO_NAME}'."
    else
      log_info "Failed to create webhook for the repository '{GH_NEW_REPO_NAME}'." ;;
      log_error "{response.text}"
  else ret tt.

(** [remove_repo_admin] *)
Definition remove_repo_admin (GH_ORG_NAME GH_NEW_REPO_NAME : string) : M unit :=
  let admins := ["SRVPSSAPRBITBUCKET01_pru"] in
  for_each admins (fun admin =>
    response <- requests DELETE (RepoCollaborator GH_ORG_NAME GH_NEW_REPO_NAME admin) None ;;
    if (status_code response =? 204)%Z then
      log_info "Admin '{admin}' removed from the repository '{GH_NEW_REPO_NAME}' successfully."
    else
      log_error "Failed to remove admin '{admin}' from the repository '{GH_NEW_REPO_NAME}'. Status code: {response.status_code}" ;;
      log_error "{response.text}" ;;
      sys_exit 1).

(** Lines 271-275 of [run_migration]: the webhook registrations. *)
Definition register_webhooks
    (GH_ORG_NAME GH_NEW_REPO_NAME BB_PROJECT_KEY BB_REPO_NAME PIPELINE_TYPE : string)
  : M unit :=
  if String.eqb PIPELINE_TYPE "Platform_Jenkins" || String.eqb PIPELINE_TYPE "Old_Jenkins"
  then
    update_repository_webhook GH_ORG_NAME GH_NEW_REPO_NAME BB_PROJECT_KEY BB_REPO_NAME
      PIPELINE_TYPE
  else if String.eqb PIPELINE_TYPE "Both_Jenkins" then
    update_repository_webhook GH_ORG_NAME GH_NEW_REPO_NAME BB_PROJECT_KEY BB_REPO_NAME
      "Platform_Jenkins" ;;
    update_repository_webhook GH_ORG_NAME GH_NEW_REPO_NAME BB_PROJECT_KEY BB_REPO_NAME
      "Old_Jenkins"
  else ret tt.

(** Lines 261-278 of [run_migration]: the post-migration tasks. *)
Definition post_migration_tasks
    (BB_PROJECT_KEY BB_REPO_NAME PROJECT_CODE GH_ORG_NAME PIPELINE_TYPE
     GH_NEW_REPO_NAME : string) : M unit :=
  update_org_repository GH_ORG_NAME GH_NEW_REPO_NAME PROJECT_CODE ;;
  create_status_file_in_repo GH_ORG_NAME GH_NEW_REPO_NAME BB_PROJECT_KEY BB_REPO_NAME ;;
  update_repo_properties GH_ORG_NAME GH_NEW_REPO_NAME ;;
  update_org_repository_topics GH_ORG_NAME GH_NEW_REPO_NAME PROJECT_CODE ;;
  update_org_repository_access GH_ORG_NAME GH_NEW_REPO_NAME PROJECT_CODE ;;
  create_codeowners_in_repo GH_ORG_NAME GH_NEW_REPO_NAME BB_PROJECT_KEY BB_REPO_NAME
    PROJECT_CODE ;;
  update_or_create_enviroments GH_ORG_NAME GH_NEW_REPO_NAME PROJECT_CODE ;;
  register_webhooks GH_ORG_NAME GH_NEW_REPO_NAME BB_PROJECT_KEY BB_REPO_NAME
    PIPELINE_TYPE ;;
  update_migration_tracker GH_ORG_NAME GH_NEW_REPO_NAME BB_PROJECT_KEY BB_REPO_NAME ;;
  remove_repo_admin GH_ORG_NAME GH_NEW_REPO_NAME.

(** ** Pipeline controller (lines 61-74 and 242-280) *)

(** [run_migration] *)
Definition run_migration
    (BB_PROJECT_KEY BB_REPO_NAME PROJECT_CODE GH_ORG_NAME PIPELINE_TYPE
     USER_DEFINED_NAME : string) : M unit :=
  set_migration_prequisite ;;
  validate PROJECT_CODE GH_ORG_NAME ;;
  let GH_NEW_REPO_NAME :=
    get_new_repo_name GH_ORG_NAME BB_REPO_NAME PROJECT_CODE USER_DEFINED_NAME in
  log_info "New GitHub repo name is {GH_REPO_NAME}" ;;
  EXPORT_ARCHIVE_FILE_PATH <-
    run_export_archive BB_PROJECT_KEY BB_REPO_NAME PROJECT_CODE GH_ORG_NAME ;;
  scp_command EXPORT_ARCHIVE_FILE_PATH ;;
  repo_name_to_exclusion_ruleset GH_ORG_NAME GH_NEW_REPO_NAME "add" ;;
  run_import_archive BB_PROJECT_KEY BB_REPO_NAME PROJECT_CODE GH_ORG_NAME
    EXPORT_ARCHIVE_FILE_PATH GH_NEW_REPO_NAME ;;
  time_sleep 15 ;;
  post_migration_tasks BB_PROJECT_KEY BB_REPO_NAME PROJECT_CODE GH_ORG_NAME
    PIPELINE_TYPE GH_NEW_REPO_NAME ;;
  repo_name_to_exclusion_ruleset GH_ORG_NAME GH_NEW_REPO_NAME "remove".

(** [process_input] *)
Definition process_input
    (BB_PROJECT_KEY BB_REPO_NAME PROJECT_CODE GH_ORG_NAME PIPELINE_TYPE
     USER_DEFINED_NAME : string) : M unit :=
  log_info "BB_PROJECT_KEY: {BB_PROJECT_KEY}" ;;
  log_info "BB_REPO_NAME: {BB_REPO_NAME}" ;;
  log_info "PROJECT_CODE: {PROJECT_CODE}" ;;
  log_info "GH_ORG_NAME: {GH_ORG_NAME}" ;;
  log_info "PIPELINE_TYPE: {PIPELINE_TYPE}" ;;
  log_info "USER_DEFINED_NAME: {USER_DEFINED_NAME}" ;;
  let BB_REPO_NAME := normalize_repo_name BB_REPO_NAME in
  log_info "BB_REPO_NAME: {BB_REPO_NAME}" ;;
  run_migration BB_PROJECT_KEY BB_REPO_NAME PROJECT_CODE GH_ORG_NAME PIPELINE_TYPE
    USER_DEFINED_NAME.

(** ** Requests of the ruleset guard, and a platform that keeps rulesets *)

Definition list_rulesets (org_code : string) : Request :=
  mkRequest GET (OrgRulesets org_code) None.

Definition get_ruleset (org_code : string) (id : json) : Request :=
  mkRequest GET (OrgRuleset org_code id) None.

Definition put_ruleset (org_code : string) (id conditions : json) : Request :=
  mkRequest PUT (OrgRuleset org_code id) (Some (JObj [("conditions", conditions)])).

(** An organisation ruleset as the platform keeps it. *)
Record Ruleset : Type := mkRuleset {
  rs_id : Z;
  rs_name : string;
  rs_conditions : json
}.

(** What a request changes: a write-back to a ruleset gives its id and
    its new conditions. *)
Definition written_conditions (e : Event) : option (Z * json) :=
  match e with
  | EvHttp (mkRequest PUT (OrgRuleset _ (JNum id)) (Some b)) _ =>
      match Py.getitem b "conditions" with
      | Normal c => Some (id, c)
      | _ => None
      end
  | _ => None
  end.

(** The conditions of ruleset [id] after the events [h], when they were
    [c] at first. *)
Definition conditions_now (h : list Event) (id : Z) (c : json) : json :=
  fold_left
    (fun c e =>
       match written_conditions e with
       | Some (id', c') => if (id =? id')%Z then c' else c
       | None => c
       end) h c.

Definition not_found : Response :=
  mkResponse 404 (JObj [("message", JStr "Not Found")]).

Definition ruleset_json (h : list Event) (r : Ruleset) : json :=
  JObj [("id", JNum (rs_id r)); ("name", JStr (rs_name r));
        ("conditions", conditions_now h (rs_id r) (rs_conditions r))].

(** The ruleset endpoints of a platform that holds the rulesets
    [store]: the listing gives id and name, a read gives the current
    conditions, a write-back replaces them. *)
Definition ruleset_platform (store : list Ruleset) (h : list Event) (req : Request)
  : Response :=
  match meth req, target req with
  | GET, OrgRulesets _ =>
      mkResponse 200
        (JArr (map (fun r => JObj [("id", JNum (rs_id r)); ("name", JStr (rs_name r))])
                 store))
  | GET, OrgRuleset _ (JNum id) =>
      match find (fun r => (rs_id r =? id)%Z) store with
      | Some r => mkResponse 200 (ruleset_json h r)
      | None => not_found
      end
  | PUT, OrgRuleset _ (JNum id) =>
      match find (fun r => (rs_id r =? id)%Z) store with
      | Some r => mkResponse 200 (ruleset_json (h ++ [EvHttp req not_found]) r)
      | None => not_found
      end
  | _, _ => not_found
  end.

(** A platform on which every call of the pipeline succeeds. *)
Definition healthy_platform (store : list Ruleset) (h : list Event) (req : Request)
  : Response :=
  match target req with
  | ProjectRegistry _ =>
      mkResponse 200 (JObj [("count", JNum 1);
                            ("results", JArr [JObj [("name", JStr "Demo project")]])])
  | OrgTeam _ _ => mkResponse 200 (JObj [("id", JNum 42)])
  | TeamRepo _ _ _ => mkResponse 204 JNull
  | Repo _ _ => mkResponse 200 (JObj [("id", JNum 7)])
  | RepoContents _ _ file_name =>
      match meth req with
      | GET => mkResponse 200 (JObj [("sha", JStr "3f2a"); ("content", JStr EmptyString)])
      | _ => if String.eqb file_name "migration_tracker.txt"
             then mkResponse 200 JNull else mkResponse 201 JNull
      end
  | RepoProperties _ _ => mkResponse 204 JNull
  | RepoEnvironment _ _ _ => mkResponse 200 JNull
  | RepoBranchPolicies _ _ _ => mkResponse 200 JNull
  | RepoTopics _ _ => mkResponse 200 JNull
  | RepoHooks _ _ => mkResponse 201 JNull
  | RepoCollaborator _ _ _ => mkResponse 204 JNull
  | OrgRulesets _ | OrgRuleset _ _ => ruleset_platform store h req
  end.

(** An export run that reports its archive, and a quiet import run. *)
Definition export_ok : Process :=
  mkProcess ["[INFO] Export started"; "[INFO] Export completed. Your migration archive should be available on your instance of Bitbucket Server at the path $BITBUCKET_SHARED_HOME/data/migration/export/Bitbucket_export_7.tar"]
            EmptyString 0.

Definition import_ok : Process :=
  mkProcess ["[INFO] Migration completed"] EmptyString 0.

(** An environment for concrete runs: all variables set, the given
    child processes, every shell command successful, and the healthy
    platform except where [faults] answers. *)
Definition demo_env (store : list Ruleset) (export import : Process)
    (faults : Request -> option Response) : Env :=
  mkEnv (fun _ => Some "set")
        (fun h req =>
           match faults req with
           | Some r => r
           | None => healthy_platform store h req
           end)
        (fun _ command =>
           if PyStr.contains "--archive-path" command then import else export)
        (fun _ _ => 0%Z).

Definition no_faults : Request -> option Response := fun _ => None.

Definition last_exclusion_conditions : json :=
  JObj [("repository_name",
         JObj [("exclude", JArr [JStr "repo-a"]); ("include", JArr [])])].

Definition last_exclusion_store : list Ruleset :=
  [mkRuleset 21 "branch_names" last_exclusion_conditions].

(** Two managed rulesets of which only the first excludes "repo-a". *)
Definition partial_store : list Ruleset :=
  [mkRuleset 31 "branch_names"
     (JObj [("repository_name",
             JObj [("exclude", JArr [JStr "repo-a"]); ("include", JArr [JStr "~ALL"])])]);
   mkRuleset 32 "main_and_master"
     (JObj [("repository_name",
             JObj [("exclude", JArr []); ("include", JArr [JStr "~ALL"])])])].

Definition demo_store : list Ruleset :=
  [mkRuleset 11 "branch_names"
     (JObj [("ref_name", JObj [("exclude", JArr []); ("include", JArr [JStr "~ALL"])]);
            ("repository_name",
             JObj [("exclude", JArr [JStr "playground"]); ("include", JArr [JStr "~ALL"]);
                   ("protected", JBool false)])]);
   mkRuleset 12 "team_rules"
     (JObj [("repository_name",
             JObj [("exclude", JArr []); ("include", JArr [JStr "billing-*"])])]);
   mkRuleset 13 "main_and_master"
     (JObj [("repository_name",
             JObj [("exclude", JArr []); ("include", JArr [])])])].

(** ** The post-migration steps as the specification lists them *)

(** Method and resource of the requests among some events, in order. *)
Fixpoint calls_in (es : list Event) : list (Method * Endpoint) :=
  match es with
  | [] => []
  | EvHttp r _ :: es' => (meth r, target r) :: calls_in es'
  | _ :: es' => calls_in es'
  end.

Inductive Step : Type :=
| UpdateRepoMetadata | CreateStatusFile | SetCustomProperties | CreateEnvironments
| SetTopics | GrantTeamAccess | CreateCodeowners | RegisterWebhooks
| AppendMigrationLedger | RemoveLegacyAdmin.

(** The calls each step makes when it runs to its end. *)
Definition calls_of_step (org repo project_code pipeline_type : string) (s : Step)
  : list (Method * Endpoint) :=
  let team role := get_gh_team_name (PyStr.upper project_code) role in
  match s with
  | UpdateRepoMetadata => [(GET, ProjectRegistry project_code); (PATCH, Repo org repo)]
  | CreateStatusFile => [(PUT, RepoContents org repo "migration_status.txt")]
  | SetCustomProperties => [(PATCH, RepoProperties org repo)]
  | CreateEnvironments =>
      [(GET, OrgTeam org (team "Managers"));
       (PUT, RepoEnvironment org repo "production");
       (POST, RepoBranchPolicies org repo "production");
       (POST, RepoBranchPolicies org repo "production")]
  | SetTopics => [(PUT, RepoTopics org repo)]
  | GrantTeamAccess =>
      [(PUT, TeamRepo org (team "Viewers") repo);
       (PUT, TeamRepo org (team "Contributors") repo);
       (PUT, TeamRepo org (team "Managers") repo)]
  | CreateCodeowners => [(PUT, RepoContents org repo "CODEOWNERS")]
  | RegisterWebhooks =>
      if String.eqb pipeline_type "Platform_Jenkins"
         || String.eqb pipeline_type "Old_Jenkins"
      then [(POST, RepoHooks org repo)]
      else if String.eqb pipeline_type "Both_Jenkins"
      then [(POST, RepoHooks org repo); (POST, RepoHooks org repo)]
      else []
  | AppendMigrationLedger =>
      [(GET, RepoContents "pru-pss" "pss-eta-bb2gh_migration" "migration_tracker.txt");
       (PUT, RepoContents "pru-pss" "pss-eta-bb2gh_migration" "migration_tracker.txt")]
  | RemoveLegacyAdmin => [(DELETE, RepoCollaborator org repo "SRVPSSAPRBITBUCKET01_pru")]
  end.

(** The order of the table in the specification. *)
Definition table_order : list Step :=
  [UpdateRepoMetadata; CreateStatusFile; SetCustomProperties; CreateEnvironments;
   SetTopics; GrantTeamAccess; CreateCodeowners; RegisterWebhooks;
   AppendMigrationLedger; RemoveLegacyAdmin].

(** The order of the calls in [run_migration]. *)
Definition code_order : list Step :=
  [UpdateRepoMetadata; CreateStatusFile; SetCustomProperties; SetTopics;
   GrantTeamAccess; CreateCodeowners; CreateEnvironments; RegisterWebhooks;
   AppendMigrationLedger; RemoveLegacyAdmin].

Definition is_normal {A} (o : Outcome A) : bool :=
  match o with Normal _ => true | _ => false end.

(** The project registry answers with a project the script can use. *)
Definition project_found (j : json) : bool :=
  match obind (Py.get j "count" (JNum 0)) Py.gt0 with
  | Normal true =>
      is_normal (obind (Py.get j "results" (JArr [])) (fun rs =>
                 obind (Py.index0 rs) (fun details => Py.get details "name" JNull)))
  | _ => false
  end.

(** A response that the post-migration code takes as success for the
    request it answers. *)
Definition accepted (req : Request) (resp : Response) : bool :=
  let status := status_code resp in
  match meth req, target req with
  | GET, ProjectRegistry _ => (status =? 200)%Z && project_found (json_of resp)
  | PATCH, Repo _ _ =>
      status_in resp [200; 201]%Z && is_normal (Py.getitem (json_of resp) "id")
  | PUT, RepoContents _ _ file_name =>
      if String.eqb file_name "migration_tracker.txt"
      then (status =? 200)%Z else (status =? 201)%Z
  | GET, RepoContents _ _ _ =>
      (status =? 200)%Z && is_normal (Py.getitem (json_of resp) "sha")
      && is_normal (Py.getitem (json_of resp) "content")
  | PATCH, RepoProperties _ _ =>
      (status =? 200)%Z || (status =? 201)%Z || (status =? 204)%Z
  | PUT, RepoTopics _ _ => (status =? 200)%Z
  | PUT, TeamRepo _ _ _ => (status =? 204)%Z
  | GET, OrgTeam _ _ =>
      (status =? 200)%Z && is_normal (Py.get (json_of resp) "id" JNull)
  | PUT, RepoEnvironment _ _ _ => (status =? 200)%Z
  | POST, RepoBranchPolicies _ _ _ => (status =? 200)%Z
  | POST, RepoHooks _ _ => (status =? 201)%Z
  | DELETE, RepoCollaborator _ _ _ => (status =? 204)%Z
  | _, _ => true
  end.

(** Every call returns success. *)
Definition all_calls_succeed (env : Env) : Prop :=
  forall h req, accepted req (http env h req) = true.

(** Faults for concrete runs: the read of the ledger fails; the lookup
    of the managers team fails. *)
Definition ledger_read_fails (req : Request) : option Response :=
  match meth req, target req with
  | GET, RepoContents _ _ "migration_tracker.txt" => Some not_found
  | _, _ => None
  end.

Definition team_lookup_fails (req : Request) : option Response :=
  match meth req, target req with
  | GET, OrgTeam _ _ => Some not_found
  | _, _ => None
  end.

(** An export run that ends cleanly without the success marker. *)
Definition export_without_marker : Process :=
  mkProcess ["[INFO] Export started"; "[INFO] Nothing to export"] EmptyString 0.

(** Child processes that write to their error stream. *)
Definition export_with_stderr : Process :=
  mkProcess ["[INFO] Export started"] "[ERROR] Unauthorized" 0.

Definition import_with_stderr : Process :=
  mkProcess ["[INFO] Import started"] "[WARNING] slow upload" 0.

(** ** Classes of events *)

(** Every event a computation can add has the property [P]. *)
Definition emits {A} (P : Event -> Prop) (m : M A) : Prop :=
  forall env h, Forall P (events_of m env h).

(** What may happen before the export: log records and reads. *)
Definition read_or_log (e : Event) : Prop :=
  match e with
  | EvLog _ _ => True
  | EvHttp r _ => meth r = GET
  | _ => False
  end.

(** The resources of the destination repository, which only the
    post-migration steps address. *)
Definition repository_endpoint (t : Endpoint) : bool :=
  match t with
  | ProjectRegistry _ | OrgTeam _ _ | OrgRulesets _ | OrgRuleset _ _ => false
  | _ => true
  end.

(** What may happen before the import of the archive into
    [org]/[new_repo]: no settle delay, no import process, no request to
    the destination repository. *)
Definition before_import (org new_repo key repo : string) (e : Event) : Prop :=
  match e with
  | EvSleep _ => False
  | EvPopen c => forall archive, c <> import_command archive org new_repo key repo
  | EvHttp r _ => repository_endpoint (target r) = false
  | _ => True
  end.

Definition export_log : Event :=
  EvLog INFO "Running the export command for {BB_PROJECT_KEY}/{BB_REPO_NAME}...".

Definition import_log : Event :=
  EvLog INFO "Migrating the repo {BB_PROJECT_KEY}/{BB_REPO_NAME} to {GH_ORG_NAME}/{GH_NEW_REPO_NAME}...".

(** The log records of the [remove] branch before the list is changed. *)
Definition remove_logs : list Event :=
  [EvLog INFO "removing reponame from the exclude list..";
   EvLog INFO "{existing_ruleset_condition}";
   EvLog INFO "{repo_name}"].

Definition export_failed : Event :=
  EvLog ERROR "Export command failed, Please see the *.log in current folder for more details.".

Definition import_failed : Event :=
  EvLog ERROR "Import command failed, Please see the *.log in current folder for more details.".

(** A run that did not end normally and in which, apart from events
    of the class [P], at most one child process [proc] ran, followed
    by the log record [failed] and nothing else. *)
Definition aborted_at {A} (P : Event -> Prop) (proc : Event -> Prop) (failed : Event)
    (r : Outcome A * list Event) : Prop :=
  is_normal (fst r) = false
  /\ (Forall P (snd r)
      \/ exists pre c, snd r = (pre ++ [c; failed])%list /\ proc c /\ Forall P pre).

(** A run that ends normally with a value that satisfies [Q], having
    made the calls [calls] in this order. *)
Definition completes {A} (m : M A) (env : Env) (h : list Event) (Q : A -> Prop)
    (calls : list (Method * Endpoint)) : Prop :=
  exists a es, m env h = (Normal a, es) /\ Q a /\ calls_in es = calls.

(** ** Further definitions: functions outside the pipeline, loop bodies,
    requests and classes of events *)

(** [ad_groups_format] and [get_ad_group_name] (lines 30 and 42-43);
    the pipeline does not call it. *)
Definition ad_groups_format : string := "GITHUB-<project_code>-<role>".

Definition get_ad_group_name (project_code role : string) : string :=
  PyStr.replace "<role>" role
    (PyStr.replace "<project_code>" (PyStr.upper project_code) ad_groups_format).

(** A line of the export output that does not change the archive path:
    it lacks the success marker, or nothing that is not white space
    follows the name of the shared-home variable in it. *)
Definition without_archive_path (output : string) : Prop :=
  PyStr.contains "Export completed" output = false \/ search_shared_home output = None.

(** The body of the loop of [validate] (lines 94-98) for one role. *)
Definition check_team (project_code org_login role : string) : M unit :=
  let team_slug := get_gh_team_name project_code role in
  ok <- valid_team_slug org_login team_slug ;;
  if negb ok then
    log_error "Team '{team_slug}' does not exist in the organization '{org_login}'." ;;
    log_error "Please update the prucore project {project_code} to include this organisation '{org_login}'" ;;
    sys_exit 1
  else ret tt.

(** The three commands of [scp_command] (lines 206-208) for an exported
    path: stage the archive, copy it, remove the staged file. *)
Definition scp_commands (BB_SSH_USERNAME BB_SERVER : option string)
    (EXPORT_ARCHIVE_FILE_PATH : string) : list string :=
  let REMOTE_FILE_PATH := "/apps/bitbucket/bitbucket/shared" ++ EXPORT_ARCHIVE_FILE_PATH in
  let staged := "/mnt/bbmigration" ++ "/" ++ PyStr.last_segment "/" EXPORT_ARCHIVE_FILE_PATH in
  [ssh_prefix BB_SSH_USERNAME BB_SERVER
   ++ dquote ++ "dzdo cat " ++ REMOTE_FILE_PATH ++ " > " ++ staged ++ dquote;
   "scp -o StrictHostKeyChecking=no -i ~/.ssh/id_rsa "
   ++ Py.str_opt BB_SSH_USERNAME ++ "@" ++ Py.str_opt BB_SERVER ++ ":" ++ staged ++ " .";
   ssh_prefix BB_SSH_USERNAME BB_SERVER ++ dquote ++ "rm " ++ staged ++ dquote].

(** The commands handed to [subprocess.run] among some events, in
    order. *)
Fixpoint runs_in (es : list Event) : list string :=
  match es with
  | [] => []
  | EvRun c :: es' => c :: runs_in es'
  | _ :: es' => runs_in es'
  end.

(** Faults for concrete runs: the registry does not know the project;
    the contributors team of project "abc" is missing. *)
Definition project_unknown (req : Request) : option Response :=
  match target req with
  | ProjectRegistry _ => Some (mkResponse 200 (JObj [("count", JNum 0); ("results", JArr [])]))
  | _ => None
  end.

Definition contributors_missing (req : Request) : option Response :=
  match target req with
  | OrgTeam _ "Project-ABC-Contributors" => Some not_found
  | _ => None
  end.

(** An environment in which the copy of the archive fails and every
    other shell command succeeds. *)
Definition copy_fails_env : Env :=
  mkEnv (fun _ => Some "set")
        (healthy_platform demo_store)
        (fun _ _ => export_ok)
        (fun _ command => if PyStr.startswith "scp " command then 1%Z else 0%Z).

(** The request by which [update_org_repository_access] grants the
    team of a role its permission (lines 498-511). *)
Definition grant_request (GH_ORG_NAME GH_NEW_REPO_NAME PROJECT_CODE role : string)
  : Request :=
  mkRequest PUT
    (TeamRepo GH_ORG_NAME (get_gh_team_name (PyStr.upper PROJECT_CODE) role)
       GH_NEW_REPO_NAME)
    (Some (JObj [("permission", JStr (permission_of role))])).

(** The body of the loop of [update_org_repository_access]
    (lines 498-517) for one role. *)
Definition grant_team (GH_ORG_NAME GH_NEW_REPO_NAME PROJECT_CODE role : string) : M unit :=
  let team_slug := get_gh_team_name (PyStr.upper PROJECT_CODE) role in
  response <- requests PUT (TeamRepo GH_ORG_NAME team_slug GH_NEW_REPO_NAME)
                (Some (JObj [("permission", JStr (permission_of role))])) ;;
  if (status_code response =? 204)%Z then
    log_info "Team '{team_slug}' added to the repository '{GH_NEW_REPO_NAME}' successfully with '{permission}' permission."
  else
    log_error "Failed to add team '{team_slug}' to the repository '{GH_NEW_REPO_NAME}'. Status code: {response.status_code}" ;;
    log_error "{response.text}" ;;
    sys_exit 1.

(** The request by which [update_repository_webhook] registers the
    hook with a given URL (lines 710-722). *)
Definition hook_request (GH_ORG_NAME GH_NEW_REPO_NAME WEBHOOK_URL : string) : Request :=
  mkRequest POST (RepoHooks GH_ORG_NAME GH_NEW_REPO_NAME)
    (Some (JObj [("name", JStr "web"); ("active", JBool true);
                 ("events", JArr [JStr "push"; JStr "pull_request"; JStr "create";
                                  JStr "delete"]);
                 ("config", JObj [("url", JStr WEBHOOK_URL); ("content_type", JStr "json");
                                  ("insecure_ssl", JStr "0")])])).

Definition platform_jenkins_url : string :=
  "https://platform-jenkins.pruconnect.net/jenkins/github-webhook/".

Definition old_jenkins_url : string := "https://jenkins.pruconnect.net/github-webhook/".

(** The file of the migration ledger. *)
Definition ledger : Endpoint :=
  RepoContents "pru-pss" "pss-eta-bb2gh_migration" "migration_tracker.txt".

(** The resources of the repository [org]/[repo]. *)
Definition in_repository (org repo : string) (t : Endpoint) : bool :=
  match t with
  | TeamRepo o _ n | Repo o n | RepoContents o n _ | RepoProperties o n
  | RepoEnvironment o n _ | RepoBranchPolicies o n _ | RepoTopics o n
  | RepoHooks o n | RepoCollaborator o n _ => String.eqb o org && String.eqb n repo
  | _ => false
  end.

(** The registry and the teams, which the post-migration tasks only
    read. *)
Definition lookup_endpoint (t : Endpoint) : bool :=
  match t with
  | ProjectRegistry _ | OrgTeam _ _ => true
  | _ => false
  end.

(** What the post-migration tasks for [org]/[repo] may do: log, send
    a request to a resource of that repository or to the ledger file,
    read the registry or a team. *)
Definition post_migration_event (org repo : string) (e : Event) : Prop :=
  match e with
  | EvLog _ _ => True
  | EvHttp r _ =>
      in_repository org repo (target r) = true
      \/ target r = ledger
      \/ (meth r = GET /\ lookup_endpoint (target r) = true)
  | _ => False
  end.

(** A run that ends as [o] having sent the requests [sent], in this
    order. *)
Definition sends {A} (m : M A) (env : Env) (h : list Event) (o : Outcome A)
    (sent : list Request) : Prop :=
  outcome_of m env h = o /\ requests_in (events_of m env h) = sent.

(** Faults for concrete runs: the grant to the contributors team of
    project "abc" is refused; the ledger file is answered without its
    [sha]. *)
Definition contributors_grant_refused (req : Request) : option Response :=
  match target req with
  | TeamRepo _ "Project-ABC-Contributors" _ => Some (mkResponse 422 JNull)
  | _ => None
  end.

Definition ledger_without_sha (req : Request) : option Response :=
  match meth req, target req with
  | GET, RepoContents _ _ "migration_tracker.txt" =>
      Some (mkResponse 200 (JObj [("content", JStr EmptyString)]))
  | _, _ => None
  end.

(** Faults for concrete runs: the listing of the rulesets is refused. *)
Definition rulesets_forbidden (req : Request) : option Response :=
  match target req with
  | OrgRulesets _ => Some (mkResponse 403 (JObj [("message", JStr "Forbidden")]))
  | _ => None
  end.

(** [update_team_parent] (lines 567-588); the pipeline does not call
    it. *)
Definition update_team_parent (org_login child_team parent_team : string) : M unit :=
  response <- requests GET (OrgTeam org_login parent_team) None ;;
  parent_team_id <- (if (status_code response =? 200)%Z then
                       lift (Py.get (json_of response) "id" JNull)
                     else
                       log_error "Failed to get team id for '{parent_team}'. Status code: {response.status_code}" ;;
                       log_error "{response.text}" ;;
                       sys_exit 1) ;;
  response <- requests PATCH (OrgTeam org_login child_team)
                (Some (JObj [("parent_team_id", parent_team_id)])) ;;
  if (status_code response =? 200)%Z then
    log_info "Team '{child_team}' is now a child of team '{parent_team}' successfully."
  else
    log_error "Failed to update team '{child_team}' as a child of team '{parent_team}'. Status code: {response.status_code}" ;;
    log_error "{response.text}".

(** The rulesets of an organisation, and a request to them. *)
Definition ruleset_endpoint (t : Endpoint) : bool :=
  match t with
  | OrgRulesets _ | OrgRuleset _ _ => true
  | _ => false
  end.

Definition ruleset_request (e : Event) : bool :=
  match e with
  | EvHttp r _ => ruleset_endpoint (target r)
  | _ => false
  end.

(** Anything but a delay. *)
Definition no_delay (e : Event) : Prop :=
  match e with
  | EvSleep _ => False
  | _ => True
  end.

(** The events up to the first delay, and those after it. *)
Fixpoint until_delay (es : list Event) : list Event :=
  match es with
  | [] => []
  | EvSleep _ :: _ => []
  | e :: es' => e :: until_delay es'
  end.

Fixpoint after_delay (es : list Event) : list Event :=
  match es with
  | [] => []
  | EvSleep _ :: es' => es'
  | _ :: es' => after_delay es'
  end.

(** What holds of a run of the pipeline whose events are split at the
    settle delay: when the post-migration tasks do not end normally,
    the run ends as they end and sends nothing to the rulesets after
    the delay. *)
Definition released_only_after_success (env : Env)
    (key repo code org pipeline_type user_defined_name : string)
    (h : list Event) (r : Outcome unit * list Event) : Prop :=
  forall pre tail,
    snd r = (pre ++ EvSleep 15 :: tail)%list ->
    outcome_of (post_migration_tasks key repo code org pipeline_type
                  (get_new_repo_name org repo code user_defined_name))
      env (h ++ pre ++ [EvSleep 15])%list <> Normal tt ->
    existsb ruleset_request tail = false
    /\ fst r
       = outcome_of (post_migration_tasks key repo code org pipeline_type
                       (get_new_repo_name org repo code user_defined_name))
           env (h ++ pre ++ [EvSleep 15])%list.

(** What a run does to the outside, without the answers and without
    the log records. *)
Inductive Effect : Type :=
| Call (m : Method) (t : Endpoint)
| Start (command : string)
| Shell (command : string)
| Wait (seconds : Z).

Fixpoint effects_in (es : list Event) : list Effect :=
  match es with
  | [] => []
  | EvHttp r _ :: es' => Call (meth r) (target r) :: effects_in es'
  | EvPopen c :: es' => Start c :: effects_in es'
  | EvRun c :: es' => Shell c :: effects_in es'
  | EvSleep s :: es' => Wait s :: effects_in es'
  | EvLog _ _ :: es' => effects_in es'
  end.

Definition call (c : Method * Endpoint) : Effect := Call (fst c) (snd c).

(** A request or a log record. *)
Definition request_or_log (e : Event) : Prop :=
  match e with
  | EvHttp _ _ | EvLog _ _ => True
  | _ => False
  end.

(** A request to the rulesets or a log record. *)
Definition ruleset_or_log (e : Event) : Prop :=
  match e with
  | EvHttp r _ => ruleset_endpoint (target r) = true
  | EvLog _ _ => True
  | _ => False
  end.

(** A platform whose only ruleset is not a managed one. *)
Definition unmanaged_store : list Ruleset :=
  [mkRuleset 12 "team_rules"
     (JObj [("repository_name",
             JObj [("exclude", JArr []); ("include", JArr [JStr "billing-*"])])])].

(** Faults for concrete runs: the settings of the repository cannot be
    changed. *)
Definition repository_locked (req : Request) : option Response :=
  match meth req, target req with
  | PATCH, Repo _ _ => Some (mkResponse 403 (JObj [("message", JStr "Forbidden")]))
  | _, _ => None
  end.

(** The child processes of a migration of the source repository
    [key]/[repo] to the destination [org]/[new_repo]: the export of the
    source, the import of an archive into the destination. *)
Definition migration_process (key repo org new_repo : string) (e : Event) : Prop :=
  match e with
  | EvPopen c =>
      c = export_command key repo
      \/ exists archive, c = import_command archive org new_repo key repo
  | _ => True
  end.

(** * Properties *)

(** ** Facts about the string operations *)

Module PyStrFacts.
Import PyStr.

Lemma append_assoc (a b c : string) : (a ++ b) ++ c = a ++ (b ++ c).
Proof. induction a as [|x a IH]; simpl; [reflexivity | now rewrite IH]. Qed.

Lemma append_empty_r (a : string) : a ++ EmptyString = a.
Proof. induction a as [|x a IH]; simpl; [reflexivity | now rewrite IH]. Qed.

Lemma lower_append (a b : string) : lower (a ++ b) = lower a ++ lower b.
Proof. induction a as [|x a IH]; simpl; [reflexivity | now rewrite IH]. Qed.

Lemma lower_ascii_idem (c : ascii) : lower_ascii (lower_ascii c) = lower_ascii c.
Proof. destruct c as [[] [] [] [] [] [] [] []]; reflexivity. Qed.

Lemma lower_idem (s : string) : lower (lower s) = lower s.
Proof.
  induction s as [|c s IH]; simpl; [reflexivity|].
  now rewrite lower_ascii_idem, IH.
Qed.

Lemma replace_space_cons (c : ascii) (s : string) :
  replace " " "-" (String c s) = String (hyphenate_ascii c) (replace " " "-" s).
Proof.
  unfold replace, hyphenate_ascii. cbn [replace_scan startswith String.length].
  destruct (Ascii.eqb " " c); reflexivity.
Qed.

Lemma hyphenate_lower_hyphenate (c : ascii) :
  hyphenate_ascii (lower_ascii (hyphenate_ascii c)) = lower_ascii (hyphenate_ascii c).
Proof. destruct c as [[] [] [] [] [] [] [] []]; reflexivity. Qed.

(** A normalised name has no space left to replace. *)
Lemma replace_space_normalized (b : string) :
  replace " " "-" (lower (replace " " "-" b)) = lower (replace " " "-" b).
Proof.
  induction b as [|c b IH]; [reflexivity|].
  rewrite replace_space_cons. cbn [lower]. rewrite replace_space_cons.
  now rewrite hyphenate_lower_hyphenate, IH.
Qed.

Lemma startswith_length (p s : string) :
  startswith p s = true -> (String.length p <= String.length s)%nat.
Proof.
  revert s. induction p as [|a p IH]; intros [|b s] H; simpl in *;
    try lia; try discriminate.
  apply andb_true_iff in H as [_ H]. apply IH in H. lia.
Qed.

Lemma startswith_append (p s x : string) :
  startswith p s = true -> startswith p (s ++ x) = true.
Proof.
  revert s. induction p as [|a p IH]; intros [|b s] H; simpl in *;
    try reflexivity; try discriminate.
  apply andb_true_iff in H as [H1 H2]. now rewrite H1, IH.
Qed.

Lemma endswith_append (a suf : string) : endswith (a ++ suf) suf = true.
Proof.
  induction a as [|c a IH].
  - destruct suf; cbn [append endswith]; now rewrite String.eqb_refl.
  - cbn [append endswith]. rewrite IH. apply orb_true_r.
Qed.

Lemma no_straddle_tail old c a x :
  no_straddle old (String c a) x -> no_straddle old a x.
Proof.
  intros H a1 c' t E. apply (H (String c a1) c' t). simpl. now rewrite E.
Qed.

(** Where nothing straddles the seam, the scan of a concatenation is
    the concatenation of the scans. *)
Lemma replace_scan_append (old new x a : string) :
  forall k, (k <= String.length a)%nat -> no_straddle old a x ->
    replace_scan old new k (a ++ x)
    = replace_scan old new k a ++ replace_scan old new 0 x.
Proof.
  induction a as [|c a IH]; intros k Hk Hns.
  - simpl in Hk. assert (k = 0)%nat as -> by lia. reflexivity.
  - pose proof (no_straddle_tail _ _ _ _ Hns) as Hns'.
    destruct k as [|k].
    + change (String c a ++ x) with (String c (a ++ x)).
      cbn [replace_scan].
      destruct (startswith old (String c (a ++ x))) eqn:E.
      * assert (E' : startswith old (String c a) = true)
          by (apply (Hns EmptyString c a eq_refl); exact E).
        rewrite E'. pose proof (startswith_length _ _ E') as L. simpl in L.
        rewrite IH by (auto; lia). now rewrite append_assoc.
      * destruct (startswith old (String c a)) eqn:E'.
        { apply (startswith_append _ _ x) in E'. simpl in E'. congruence. }
        rewrite IH by (auto; lia). reflexivity.
    + simpl in Hk. cbn [append replace_scan]. apply IH; [lia | exact Hns'].
Qed.

Lemma replace_append (old new a x : string) :
  old <> EmptyString -> no_straddle old a x ->
  replace old new (a ++ x) = replace old new a ++ replace old new x.
Proof.
  intros Hold Hns. unfold replace. destruct old as [|o old]; [congruence|].
  apply replace_scan_append; [lia | exact Hns].
Qed.

(** A string without an occurrence of [old] is left as it is. *)
Lemma replace_absent (old new s : string) :
  old <> EmptyString -> contains old s = false -> replace old new s = s.
Proof.
  intros Hold. unfold replace. destruct old as [|o old]; [congruence|]. clear Hold.
  induction s as [|c s IH]; intros H; [reflexivity|].
  cbn [contains] in H. apply orb_false_iff in H as [H1 H2].
  cbn [replace_scan]. rewrite H1. now rewrite IH.
Qed.

End PyStrFacts.

(** ** Destination name *)

Section DestinationName.
Import PyStr PyStrFacts.

(** A suffix of a string that ends in a hyphen ends in a hyphen. *)
Lemma suffix_of_hyphenated (a a1 : string) c t :
  a ++ "-" = a1 ++ String c t -> exists t', String c t = t' ++ "-".
Proof.
  revert a. induction a1 as [|x a1 IH]; intros a E; simpl in E.
  - exists a. now rewrite E.
  - destruct a as [|y a]; simpl in E.
    + destruct a1; simpl in E; discriminate.
    + injection E as _ E. now apply IH in E.
Qed.

Ltac split_eqb H :=
  repeat (apply andb_true_iff in H; let H1 := fresh H in destruct H as [H1 H]);
  repeat match goal with
         | E : Ascii.eqb _ _ = true |- _ => apply Ascii.eqb_eq in E
         end.

(** The marker never runs across a hyphen that ends the left part. *)
Lemma no_straddle_after_hyphen (a x : string) : no_straddle "pru-" (a ++ "-") x.
Proof.
  intros a1 c t E H.
  destruct (suffix_of_hyphenated _ _ _ _ E) as [t' Et]. rewrite Et in *. clear E Et.
  destruct t' as [|c1 [|c2 [|c3 [|c4 r]]]]; cbn [append startswith] in H |- *;
    try (split_eqb H; discriminate).
  - exact H.
  - exact H.
Qed.

(** It runs across the end of an organisation name only when the name
    ends in "pru" and the joining hyphen completes it. *)
Lemma no_straddle_org (org y : string) :
  endswith org "pru" = false -> no_straddle "pru-" org ("-" ++ y).
Proof.
  intros Hend a1 c t E H.
  destruct t as [|c2 [|c3 [|c4 r]]]; cbn [append startswith] in H |- *;
    try (split_eqb H; discriminate).
  - split_eqb H. subst c c2 c3.
    rewrite E, endswith_append in Hend. discriminate.
  - exact H.
Qed.

Lemma replace_marker_prefix (org rest : string) :
  replace "pru-" EmptyString (org ++ "-" ++ rest)
  = replace "pru-" EmptyString (org ++ "-") ++ replace "pru-" EmptyString rest.
Proof.
  rewrite <- append_assoc.
  apply replace_append; [discriminate | apply no_straddle_after_hyphen].
Qed.

(** The name as the code builds it, for a given slug. *)
Lemma get_new_repo_name_unfold (org b code u : string) :
  get_new_repo_name org b code u
  = lower (replace "pru-" EmptyString (org ++ "-" ++ code ++ "-")
           ++ replace " " "-" (if String.eqb u "None" then b else u)).
Proof. unfold get_new_repo_name. destruct (String.eqb u "None"); reflexivity. Qed.

End DestinationName.

(** C5, as stated, fails: for an organisation that ends in "pru" the
    hyphen joining it to the project code completes the marker and is
    removed with it, so the name is not the stripped organisation, the
    project code and the slug joined by hyphens. *)
Lemma C5_counterexample :
  get_new_repo_name "asia-pru" (normalize_repo_name "My Repo") "abc" "None"
  <> spec_destination_name "asia-pru" "abc" (normalize_repo_name "My Repo").
Proof. vm_compute. discriminate. Qed.

(** C5 (amended): "My Repo" is normalised to "my-repo" and, with project
    code "abc", organisation "pru-myorg" and no override, named
    "myorg-abc-my-repo"; and whenever the organisation does not end in
    "pru" and the project code followed by a hyphen does not contain
    "pru-", the destination name is the organisation with the marker
    stripped, the project code and the slug, joined by hyphens and
    lowercased. *)
Theorem C5_destination_name :
  (normalize_repo_name "My Repo" = "my-repo"
   /\ get_new_repo_name "pru-myorg" "my-repo" "abc" "None" = "myorg-abc-my-repo")
  /\ forall org code b : string,
       PyStr.endswith org "pru" = false ->
       PyStr.contains "pru-" (code ++ "-") = false ->
       get_new_repo_name org (normalize_repo_name b) code "None"
       = spec_destination_name org code (normalize_repo_name b).
Proof.
  split; [split; reflexivity|].
  intros org code b Hend Hcode.
  rewrite get_new_repo_name_unfold. unfold spec_destination_name.
  cbn [String.eqb Ascii.eqb Bool.eqb]. unfold normalize_repo_name.
  rewrite !PyStrFacts.lower_append.
  rewrite PyStrFacts.replace_space_normalized.
  change (org ++ "-" ++ code ++ "-") with (org ++ ("-" ++ (code ++ "-"))).
  rewrite PyStrFacts.replace_append
    by (try discriminate; now apply no_straddle_org).
  rewrite (PyStrFacts.replace_absent "pru-" EmptyString ("-" ++ (code ++ "-")))
    by (try discriminate; cbn [append PyStr.contains PyStr.startswith];
        exact Hcode).
  rewrite !PyStrFacts.lower_append.
  rewrite !PyStrFacts.append_assoc. reflexivity.
Qed.

Lemma C5_destination_name_witness :
  get_new_repo_name "pru-myorg" (normalize_repo_name "My Repo") "abc" "None"
  = spec_destination_name "pru-myorg" "abc" (normalize_repo_name "My Repo").
Proof. apply (proj2 C5_destination_name); reflexivity. Defined.

(** C6, as stated, fails: the lowercase word "none" is not the sentinel
    of the code, so it is taken as an override and the normalised source
    name is not used. *)
Lemma C6_counterexample :
  get_new_repo_name "pru-myorg" (normalize_repo_name "My Repo") "abc" "none"
  <> spec_destination_name "pru-myorg" "abc" (normalize_repo_name "My Repo").
Proof. vm_compute. discriminate. Qed.

(** C6 (amended): the sentinel is the exact string "None".  For every
    input the destination name is built from the override, its spaces
    replaced by hyphens, when the override differs from "None", and
    from the source repository name when it equals "None". *)
Theorem C6_override_precedence (org b code u : string) :
  get_new_repo_name org b code u
  = PyStr.lower (PyStr.replace "pru-" EmptyString (org ++ "-" ++ code ++ "-")
                 ++ PyStr.replace " " "-" (if String.eqb u "None" then b else u)).
Proof. apply get_new_repo_name_unfold. Qed.

(** C9: the marker is deleted from the combined prefix.  A marker at
    the head of the project code, and a marker inside the organisation
    name after a hyphen, leave no trace in the destination name. *)
Theorem C9_marker_removed_everywhere :
  (forall org b code u : string,
     get_new_repo_name org b ("pru-" ++ code) u = get_new_repo_name org b code u)
  /\ (forall a org b code u : string,
        get_new_repo_name (a ++ "-pru-" ++ org) b code u
        = get_new_repo_name (a ++ "-" ++ org) b code u)
  /\ get_new_repo_name "pru-myorg" "my-repo" "pru-abc" "None" = "myorg-abc-my-repo"
  /\ get_new_repo_name "asia-pru-myorg" "my-repo" "abc" "None" = "asia-myorg-abc-my-repo".
Proof.
  split; [|split; [|split; reflexivity]].
  - intros org b code u. rewrite !get_new_repo_name_unfold. do 2 f_equal.
    change (org ++ "-" ++ ("pru-" ++ code) ++ "-")
      with (org ++ "-" ++ ("pru-" ++ (code ++ "-"))).
    rewrite 2 replace_marker_prefix. reflexivity.
  - intros a org b code u. rewrite !get_new_repo_name_unfold. do 2 f_equal.
    rewrite !PyStrFacts.append_assoc.
    change (a ++ "-pru-" ++ org ++ "-" ++ code ++ "-")
      with (a ++ "-" ++ ("pru-" ++ (org ++ "-" ++ code ++ "-"))).
    rewrite !replace_marker_prefix.
    rewrite <- (replace_marker_prefix org (code ++ "-")). reflexivity.
Qed.

(** ** Facts about dicts and lists *)

Module PyFacts.
Import Py.
Local Open Scope list_scope.

Lemma dict_set_same k v d : lookup k d = Some v -> dict_set k v d = d.
Proof.
  induction d as [|[k' v'] d IH]; simpl; [discriminate|].
  destruct (String.eqb k k'); intros H.
  - now injection H as ->.
  - now rewrite IH.
Qed.

Lemma lookup_dict_set k v d : lookup k (dict_set k v d) = Some v.
Proof.
  induction d as [|[k' v'] d IH]; simpl.
  - now rewrite String.eqb_refl.
  - destruct (String.eqb k k') eqn:E; simpl; now rewrite E.
Qed.

Lemma lookup_dict_set_other k k' v d :
  String.eqb k' k = false -> lookup k' (dict_set k v d) = lookup k' d.
Proof.
  intros Hk. induction d as [|[k0 v0] d IH]; simpl.
  - now rewrite Hk.
  - destruct (String.eqb k k0) eqn:E; simpl.
    + apply String.eqb_eq in E. subst k0. now rewrite Hk.
    + now rewrite IH.
Qed.

Lemma dict_set_twice k v w d : dict_set k w (dict_set k v d) = dict_set k w d.
Proof.
  induction d as [|[k' v'] d IH]; simpl.
  - now rewrite String.eqb_refl.
  - destruct (String.eqb k k') eqn:E; simpl; rewrite E; [reflexivity | now rewrite IH].
Qed.

Lemma remove_first_mem s l :
  mem_str s l = true <-> remove_first s l <> None.
Proof.
  unfold mem_str. induction l as [|v l IH]; simpl.
  - split; [discriminate | congruence].
  - destruct (eq_str v s); simpl.
    + split; [discriminate | reflexivity].
    + rewrite IH. destruct (remove_first s l); split; congruence.
Qed.

Lemma remove_first_absent s l :
  mem_str s l = false -> remove_first s l = None.
Proof.
  intros H. destruct (remove_first s l) eqn:E; [|reflexivity].
  assert (mem_str s l = true) by (apply remove_first_mem; congruence). congruence.
Qed.

(** Removing after appending: the appended copy goes when the list
    had none, the first of the earlier copies otherwise. *)
Lemma remove_first_snoc s l :
  remove_first s (l ++ [JStr s])
  = Some (match remove_first s l with
          | Some r => r ++ [JStr s]
          | None => l
          end).
Proof.
  induction l as [|v l IH]; simpl.
  - now rewrite String.eqb_refl.
  - destruct (eq_str v s); [reflexivity|].
    rewrite IH. now destruct (remove_first s l).
Qed.

End PyFacts.

(** ** Ruleset guard *)

Section RulesetConditions.
Import Py PyFacts.
Local Open Scope list_scope.

Lemma repository_name_lists_inv cond ex inc :
  repository_name_lists cond = Some (ex, inc) ->
  exists d rn, cond = JObj d
    /\ lookup "repository_name" d = Some (JObj rn)
    /\ lookup "exclude" rn = Some (JArr ex)
    /\ lookup "include" rn = Some (JArr inc).
Proof.
  unfold repository_name_lists. intros H.
  destruct cond as [| | | | |d]; try discriminate.
  destruct (lookup "repository_name" d) as [[| | | | |rn]|] eqn:E1; try discriminate.
  destruct (lookup "exclude" rn) as [[| | | |e|]|] eqn:E2; try discriminate.
  destruct (lookup "include" rn) as [[| | | |i|]|] eqn:E3; try discriminate.
  injection H as -> ->. now exists d, rn.
Qed.

(** Line 636 on a condition object of the documented shape. *)
Lemma exclude_append_shape d rn ex repo :
  lookup "repository_name" d = Some (JObj rn) ->
  lookup "exclude" rn = Some (JArr ex) ->
  exclude_append (JObj d) repo
  = Normal (JObj (dict_set "repository_name"
                    (JObj (dict_set "exclude" (JArr (ex ++ [JStr repo])) rn)) d)).
Proof.
  intros H1 H2. unfold exclude_append. cbn [getitem obind]. rewrite H1.
  cbn [getitem obind]. rewrite H2. reflexivity.
Qed.

(** Line 643 on a condition object of the documented shape. *)
Lemma exclude_remove_shape d rn ex repo :
  lookup "repository_name" d = Some (JObj rn) ->
  lookup "exclude" rn = Some (JArr ex) ->
  exclude_remove (JObj d) repo
  = match remove_first repo ex with
    | Some r => Normal (JObj (dict_set "repository_name"
                                (JObj (dict_set "exclude" (JArr r) rn)) d))
    | None => Raise ValueError
    end.
Proof.
  intros H1 H2. unfold exclude_remove. cbn [getitem obind]. rewrite H1.
  cbn [getitem obind]. rewrite H2. cbn [obind remove].
  now destruct (remove_first repo ex).
Qed.

(** Lines 645-646 on a condition object of the documented shape. *)
Lemma include_all_if_empty_shape d rn ex inc :
  lookup "repository_name" d = Some (JObj rn) ->
  lookup "exclude" rn = Some (JArr ex) ->
  lookup "include" rn = Some (JArr inc) ->
  include_all_if_empty (JObj d)
  = Normal (match ex, inc with
            | [], [] => JObj (dict_set "repository_name"
                                (JObj (dict_set "include" (JArr [JStr "~ALL"]) rn)) d)
            | _, _ => JObj d
            end).
Proof.
  intros H1 H2 H3. unfold include_all_if_empty. cbn [getitem obind]. rewrite H1.
  cbn [getitem obind]. rewrite H2. cbn [obind truthy].
  destruct ex; cbn [negb]; [|reflexivity].
  rewrite H3. cbn [obind truthy]. destruct inc; reflexivity.
Qed.

Lemma repository_name_lists_with_include cond ex inc l :
  repository_name_lists cond = Some (ex, inc) ->
  repository_name_lists (with_include cond l) = Some (ex, l).
Proof.
  intros H. destruct (repository_name_lists_inv _ _ _ H) as (d & rn & -> & H1 & H2 & H3).
  unfold with_include. rewrite H1. unfold repository_name_lists.
  rewrite lookup_dict_set, lookup_dict_set.
  rewrite lookup_dict_set_other by reflexivity. now rewrite H2.
Qed.

(** Appending the name and removing its first occurrence gives back
    the object when the name was not there before. *)
Lemma exclude_append_remove cond repo ex inc :
  repository_name_lists cond = Some (ex, inc) ->
  mem_str repo ex = false ->
  exists c1, exclude_append cond repo = Normal c1
             /\ exclude_remove c1 repo = Normal cond.
Proof.
  intros H Habs. destruct (repository_name_lists_inv _ _ _ H) as (d & rn & -> & H1 & H2 & H3).
  eexists. split; [exact (exclude_append_shape _ _ _ _ H1 H2)|].
  rewrite exclude_remove_shape
    with (rn := dict_set "exclude" (JArr (ex ++ [JStr repo])) rn)
         (ex := ex ++ [JStr repo])
    by apply lookup_dict_set.
  rewrite remove_first_snoc, (remove_first_absent _ _ Habs).
  rewrite !dict_set_twice.
  rewrite (dict_set_same _ _ _ H2). now rewrite (dict_set_same _ _ _ H1).
Qed.

End RulesetConditions.

(** ** Running computations *)

Section Prepend.
Local Open Scope list_scope.
Context {A : Type}.

Lemma prepend_nil (r : Outcome A * list Event) : prepend [] r = r.
Proof. now destruct r. Qed.

Lemma prepend_prepend es es' (r : Outcome A * list Event) :
  prepend es (prepend es' r) = prepend (es ++ es') r.
Proof. unfold prepend. simpl. now rewrite app_assoc. Qed.

Lemma fst_prepend es (r : Outcome A * list Event) : fst (prepend es r) = fst r.
Proof. reflexivity. Qed.

Lemma snd_prepend es (r : Outcome A * list Event) :
  snd (prepend es r) = es ++ snd r.
Proof. reflexivity. Qed.

End Prepend.

Section Running.
Local Open Scope list_scope.
Context {A B : Type}.

(** A computation whose run is known, followed by a continuation. *)
Lemma bind_run (m : M A) (f : A -> M B) env h a es :
  m env h = (Normal a, es) ->
  bind m f env h = prepend es (f a env (h ++ es)).
Proof. intros H. unfold bind. now rewrite H. Qed.

Lemma bind_run_exit (m : M A) (f : A -> M B) env h c es :
  m env h = (Exit c, es) -> bind m f env h = (Exit c, es).
Proof. intros H. unfold bind. now rewrite H. Qed.

Lemma bind_run_raise (m : M A) (f : A -> M B) env h e es :
  m env h = (Raise e, es) -> bind m f env h = (Raise e, es).
Proof. intros H. unfold bind. now rewrite H. Qed.

Lemma bind_ret (a : A) (f : A -> M B) env h : bind (ret a) f env h = f a env h.
Proof. unfold bind, ret. cbv beta iota. now rewrite app_nil_r, prepend_nil. Qed.

Lemma bind_lift_normal (a : A) (f : A -> M B) env h :
  bind (lift (Normal a)) f env h = f a env h.
Proof. apply bind_ret. Qed.

Lemma bind_lift_raise e (f : A -> M B) env h :
  bind (lift (Raise e)) f env h = (Raise e, []).
Proof. reflexivity. Qed.

Lemma bind_lift_exit c (f : A -> M B) env h :
  bind (lift (Exit c)) f env h = (Exit c, []).
Proof. reflexivity. Qed.

End Running.

Section RunningEffects.
Local Open Scope list_scope.
Context {B : Type}.

Lemma bind_emit e (f : unit -> M B) env h :
  bind (emit e) f env h = prepend [e] (f tt env (h ++ [e])).
Proof. reflexivity. Qed.

Lemma bind_log_info msg (f : unit -> M B) env h :
  bind (log_info msg) f env h
  = prepend [EvLog INFO msg] (f tt env (h ++ [EvLog INFO msg])).
Proof. reflexivity. Qed.

Lemma bind_log_error msg (f : unit -> M B) env h :
  bind (log_error msg) f env h
  = prepend [EvLog ERROR msg] (f tt env (h ++ [EvLog ERROR msg])).
Proof. reflexivity. Qed.

Lemma bind_requests m t b (f : Response -> M B) env h :
  bind (requests m t b) f env h
  = prepend [EvHttp (mkRequest m t b) (http env h (mkRequest m t b))]
      (f (http env h (mkRequest m t b)) env
         (h ++ [EvHttp (mkRequest m t b) (http env h (mkRequest m t b))])).
Proof. reflexivity. Qed.

Lemma bind_assoc {A C} (m : M A) (f : A -> M C) (g : C -> M B) env h :
  bind (bind m f) g env h = bind m (fun a => bind (f a) g) env h.
Proof.
  unfold bind. destruct (m env h) as [[a|c|e] es]; try reflexivity.
  unfold prepend at 1. cbn [fst snd].
  destruct (f a env (h ++ es)) as [[x|c|e] es']; cbn [fst snd prepend];
    try reflexivity.
  unfold prepend. cbn [fst snd]. now rewrite !app_assoc.
Qed.

End RunningEffects.

Section Traces.
Local Open Scope list_scope.

Lemma requests_in_app es es' :
  requests_in (es ++ es') = requests_in es ++ requests_in es'.
Proof.
  induction es as [|e es IH]; [reflexivity|].
  destruct e; simpl; now rewrite IH.
Qed.

Lemma requests_in_In r resp es : In (EvHttp r resp) es -> In r (requests_in es).
Proof.
  induction es as [|e es IH]; simpl; [tauto|].
  intros [->|H]; [now left|]. destruct e; simpl; auto.
Qed.

(** A loop that ends normally ran every turn to a normal end, and
    every event of the loop is an event of one of its turns. *)
Lemma for_each_normal {A} (f : A -> M unit) env (l : list A) :
  forall h, outcome_of (for_each l f) env h = Normal tt ->
    (forall x, In x l -> exists h',
        outcome_of (f x) env h' = Normal tt
        /\ incl (events_of (f x) env h') (events_of (for_each l f) env h))
    /\ (forall e, In e (events_of (for_each l f) env h) -> exists x h',
          In x l /\ outcome_of (f x) env h' = Normal tt
          /\ In e (events_of (f x) env h')).
Proof.
  unfold outcome_of, events_of.
  induction l as [|x l IH]; intros h Hn.
  - split; [intros ? []| intros ? []].
  - cbn [for_each] in *. unfold bind in *.
    destruct (f x env h) as [[[]|c|e] es] eqn:E; try discriminate.
    cbn [fst snd prepend] in *.
    destruct (IH _ Hn) as [IH1 IH2]. split.
    + intros y [<-|Hy].
      * exists h. rewrite E. split; [reflexivity|]. cbn [snd].
        now apply incl_appl, incl_refl.
      * destruct (IH1 _ Hy) as (h' & Ho & Hi). exists h'. split; [exact Ho|].
        now apply incl_appr.
    + intros e He. apply in_app_or in He as [He|He].
      * exists x, h. rewrite E. split; [now left|]. now split.
      * destruct (IH2 _ He) as (y & h' & Hy & Ho & Hi).
        exists y, h'. split; [now right|]. now split.
Qed.

(** Every event of a loop is an event of one of its turns; that turn
    ended normally, or it ended the loop and its events come last. *)
Lemma for_each_event {A} (f : A -> M unit) env (l : list A) :
  forall h e, In e (events_of (for_each l f) env h) ->
    exists x h' pre,
      In x l /\ In e (events_of (f x) env h')
      /\ (outcome_of (f x) env h' = Normal tt
          \/ (outcome_of (for_each l f) env h = outcome_of (f x) env h'
              /\ events_of (for_each l f) env h = pre ++ events_of (f x) env h')).
Proof.
  unfold outcome_of, events_of.
  induction l as [|x l IH]; intros h e He; [destruct He|].
  cbn [for_each] in *. unfold bind in *.
  destruct (f x env h) as [[[]|c|ex] es] eqn:E; cbn [fst snd prepend] in *.
  - apply in_app_or in He as [He|He].
    + exists x, h, []. rewrite E. split; [now left|]. split; [exact He | now left].
    + destruct (IH _ _ He) as (y & h' & pre & Hy & Hin & Hcase).
      exists y, h', (es ++ pre). split; [now right|]. split; [exact Hin|].
      destruct Hcase as [Hn|[Ho Hev]]; [now left|right].
      split; [exact Ho|]. now rewrite Hev, app_assoc.
  - exists x, h, []. rewrite E. split; [now left|]. split; [exact He|]. now right.
  - exists x, h, []. rewrite E. split; [now left|]. split; [exact He|]. now right.
Qed.

End Traces.

Section RulesetShapes.
Import Py PyFacts.
Local Open Scope list_scope.

Lemma exclude_list_inv cond ex :
  exclude_list cond = Some ex ->
  exists d rn, cond = JObj d
    /\ lookup "repository_name" d = Some (JObj rn)
    /\ lookup "exclude" rn = Some (JArr ex).
Proof.
  unfold exclude_list. intros H.
  destruct cond as [| | | | |d]; try discriminate.
  destruct (lookup "repository_name" d) as [[| | | | |rn]|] eqn:E1; try discriminate.
  destruct (lookup "exclude" rn) as [[| | | |e|]|] eqn:E2; try discriminate.
  injection H as ->. now exists d, rn.
Qed.

Lemma repository_name_lists_exclude cond ex inc :
  repository_name_lists cond = Some (ex, inc) -> exclude_list cond = Some ex.
Proof.
  intros H. destruct (repository_name_lists_inv _ _ _ H) as (d & rn & -> & H1 & H2 & H3).
  unfold exclude_list. now rewrite H1, H2.
Qed.

Lemma exclude_list_contains_key cond ex :
  exclude_list cond = Some ex -> contains_key "repository_name" cond = Normal true.
Proof.
  intros H. destruct (exclude_list_inv _ _ H) as (d & rn & -> & H1 & H2).
  cbn [contains_key]. now rewrite H1.
Qed.

Lemma repository_name_lists_with_exclude cond ex inc r :
  repository_name_lists cond = Some (ex, inc) ->
  repository_name_lists (with_exclude cond r) = Some (r, inc).
Proof.
  intros H. destruct (repository_name_lists_inv _ _ _ H) as (d & rn & -> & H1 & H2 & H3).
  unfold with_exclude. rewrite H1. unfold repository_name_lists.
  rewrite lookup_dict_set, lookup_dict_set.
  rewrite lookup_dict_set_other by reflexivity. now rewrite H3.
Qed.

(** Line 643: the first occurrence goes, or [ValueError] is raised. *)
Lemma exclude_remove_list cond ex repo :
  exclude_list cond = Some ex ->
  exclude_remove cond repo
  = match remove_first repo ex with
    | Some r => Normal (with_exclude cond r)
    | None => Raise ValueError
    end.
Proof.
  intros H. destruct (exclude_list_inv _ _ H) as (d & rn & -> & H1 & H2).
  rewrite (exclude_remove_shape _ _ _ _ H1 H2). unfold with_exclude. now rewrite H1.
Qed.

Lemma include_all_if_empty_lists cond ex inc :
  repository_name_lists cond = Some (ex, inc) ->
  include_all_if_empty cond
  = Normal (match ex, inc with
            | [], [] => with_include cond [JStr "~ALL"]
            | _, _ => cond
            end).
Proof.
  intros H. destruct (repository_name_lists_inv _ _ _ H) as (d & rn & -> & H1 & H2 & H3).
  rewrite (include_all_if_empty_shape _ _ _ _ H1 H2 H3). unfold with_include.
  now rewrite H1.
Qed.

(** The whole [remove] branch on a condition object of the documented
    shape. *)
Lemma conditions_after_remove_lists cond ex inc repo :
  repository_name_lists cond = Some (ex, inc) ->
  conditions_after_remove cond repo
  = match remove_first repo ex with
    | Some r =>
        Normal (match r, inc with
                | [], [] => with_include (with_exclude cond []) [JStr "~ALL"]
                | _, _ => with_exclude cond r
                end)
    | None => Raise ValueError
    end.
Proof.
  intros H. unfold conditions_after_remove.
  rewrite (exclude_remove_list _ _ _ (repository_name_lists_exclude _ _ _ H)).
  destruct (remove_first repo ex) as [r|]; [|reflexivity]. cbn [obind].
  rewrite (include_all_if_empty_lists _ _ _ (repository_name_lists_with_exclude _ _ _ r H)).
  now destruct r, inc.
Qed.

(** A normal end of the [remove] branch shows that the name was in
    the exclude list. *)
Lemma conditions_after_remove_normal cond repo c :
  conditions_after_remove cond repo = Normal c ->
  exists ex, exclude_list cond = Some ex /\ mem_str repo ex = true.
Proof.
  unfold conditions_after_remove, exclude_remove. intros H.
  destruct cond as [| | | | |d]; try discriminate.
  cbn [getitem obind] in H.
  destruct (lookup "repository_name" d) as [rn|] eqn:E1; [|discriminate].
  cbn [obind] in H.
  destruct rn as [| | | | |rn]; try discriminate.
  cbn [getitem obind] in H.
  destruct (lookup "exclude" rn) as [x|] eqn:E2; [|discriminate].
  cbn [obind] in H.
  destruct x as [| | | |ex|]; try discriminate.
  cbn [remove] in H.
  destruct (remove_first repo ex) as [r|] eqn:E3; [|discriminate].
  exists ex. split.
  - unfold exclude_list. now rewrite E1, E2.
  - apply remove_first_mem. congruence.
Qed.

End RulesetShapes.

Section RulesetGuard.
Import Py PyFacts.
Local Open Scope list_scope.

Variable env : Env.
Variables org repo : string.

(** [update_ruleset] sends one request, the write-back. *)
Lemma update_ruleset_requests h id c :
  requests_in (events_of (update_ruleset org id c) env h) = [put_ruleset org id c].
Proof.
  unfold events_of, update_ruleset.
  rewrite bind_log_info, bind_requests, bind_log_info.
  match goal with |- context [status_in ?r ?l] => destruct (status_in r l) end;
    cbn [negb]; [reflexivity|].
  match goal with |- context [get ?x ?k ?d] => destruct (get x k d) end.
  - rewrite bind_lift_normal, bind_log_error. reflexivity.
  - rewrite bind_lift_exit. reflexivity.
  - rewrite bind_lift_raise. reflexivity.
Qed.

(** The [remove] turn of the loop for a managed ruleset whose read
    succeeds and whose conditions have a [repository_name] entry: the
    read, three log records, then the change and the write-back. *)
Lemma toggle_ruleset_remove_run h items ruleset name id cond :
  getitem ruleset "name" = Normal (JStr name) ->
  existsb (String.eqb name) managed_rulesets = true ->
  first_id_named name items = Normal id ->
  let resp := http env h (get_ruleset org id) in
  status_in resp [200; 201]%Z = true ->
  getitem (json_of resp) "conditions" = Normal cond ->
  contains_key "repository_name" cond = Normal true ->
  toggle_ruleset org repo "remove" items ruleset env h
  = prepend (EvHttp (get_ruleset org id) resp :: remove_logs)
      (bind (lift (conditions_after_remove cond repo)) (update_ruleset org id)
         env (h ++ EvHttp (get_ruleset org id) resp :: remove_logs)).
Proof.
  intros Hname Hman Hid resp Hst Hcond Hkey.
  unfold toggle_ruleset.
  rewrite Hname, bind_lift_normal. rewrite Hman.
  rewrite Hid, bind_lift_normal.
  rewrite bind_requests. fold (get_ruleset org id). fold resp. rewrite Hst. cbn [negb].
  rewrite bind_ret. rewrite Hcond, bind_lift_normal.
  cbn [String.eqb Ascii.eqb Bool.eqb].
  rewrite Hkey, bind_lift_normal.
  rewrite !bind_log_info. rewrite !prepend_prepend, <- !app_assoc.
  reflexivity.
Qed.

(** ... and when the name is not in the exclude list, the turn ends in
    [ValueError] after the read, with nothing written back. *)
Lemma toggle_ruleset_remove_absent h items ruleset name id cond ex :
  getitem ruleset "name" = Normal (JStr name) ->
  existsb (String.eqb name) managed_rulesets = true ->
  first_id_named name items = Normal id ->
  let resp := http env h (get_ruleset org id) in
  status_in resp [200; 201]%Z = true ->
  getitem (json_of resp) "conditions" = Normal cond ->
  exclude_list cond = Some ex ->
  mem_str repo ex = false ->
  toggle_ruleset org repo "remove" items ruleset env h
  = (Raise ValueError, EvHttp (get_ruleset org id) resp :: remove_logs).
Proof.
  intros Hname Hman Hid resp Hst Hcond Hex Habs.
  rewrite (toggle_ruleset_remove_run h items ruleset name id cond)
    by (auto; now apply exclude_list_contains_key with (ex := ex)).
  unfold conditions_after_remove.
  rewrite (exclude_remove_list _ _ _ Hex), (remove_first_absent _ _ Habs).
  cbn [obind]. rewrite bind_lift_raise. unfold prepend. cbn [fst snd].
  now rewrite app_nil_r.
Qed.

(** ... and when the removal succeeds, the changed conditions are
    what is written back. *)
Lemma toggle_ruleset_remove_written h items ruleset name id cond c :
  getitem ruleset "name" = Normal (JStr name) ->
  existsb (String.eqb name) managed_rulesets = true ->
  first_id_named name items = Normal id ->
  let resp := http env h (get_ruleset org id) in
  status_in resp [200; 201]%Z = true ->
  getitem (json_of resp) "conditions" = Normal cond ->
  contains_key "repository_name" cond = Normal true ->
  conditions_after_remove cond repo = Normal c ->
  requests_in (events_of (toggle_ruleset org repo "remove" items ruleset) env h)
  = [get_ruleset org id; put_ruleset org id c].
Proof.
  intros Hname Hman Hid resp Hst Hcond Hkey Hc. unfold events_of.
  rewrite (toggle_ruleset_remove_run h items ruleset name id cond) by auto.
  rewrite Hc, bind_lift_normal, snd_prepend.
  change (EvHttp (get_ruleset org id) (http env h (get_ruleset org id)) :: remove_logs)
    with ([EvHttp (get_ruleset org id) (http env h (get_ruleset org id))] ++ remove_logs).
  rewrite !requests_in_app.
  fold (events_of (update_ruleset org id c) env
          (h ++ [EvHttp (get_ruleset org id) (http env h (get_ruleset org id))]
             ++ remove_logs)).
  now rewrite update_ruleset_requests.
Qed.

(** A turn for a managed ruleset whose conditions have no
    [repository_name] entry logs the fact and writes nothing back,
    whatever the action. *)
Lemma toggle_ruleset_without_entry h action items ruleset name id cond :
  getitem ruleset "name" = Normal (JStr name) ->
  existsb (String.eqb name) managed_rulesets = true ->
  first_id_named name items = Normal id ->
  let resp := http env h (get_ruleset org id) in
  status_in resp [200; 201]%Z = true ->
  getitem (json_of resp) "conditions" = Normal cond ->
  contains_key "repository_name" cond = Normal false ->
  toggle_ruleset org repo action items ruleset env h
  = (Normal tt,
     [EvHttp (get_ruleset org id) resp;
      EvLog ERROR "Invalid action or repository_name condition not found in the ruleset."]).
Proof.
  intros Hname Hman Hid resp Hst Hcond Hkey.
  unfold toggle_ruleset.
  rewrite Hname, bind_lift_normal. rewrite Hman.
  rewrite Hid, bind_lift_normal.
  rewrite bind_requests. fold (get_ruleset org id). fold resp. rewrite Hst. cbn [negb].
  rewrite bind_ret. rewrite Hcond, bind_lift_normal.
  destruct (String.eqb action "add"); [|destruct (String.eqb action "remove")];
    try rewrite Hkey, bind_lift_normal; reflexivity.
Qed.

(** A read among the events of a turn is the read of the managed
    ruleset of that turn, answered by the environment at that point. *)
Lemma toggle_ruleset_read h action items ruleset id resp :
  In (EvHttp (get_ruleset org id) resp)
     (events_of (toggle_ruleset org repo action items ruleset) env h) ->
  exists name,
    getitem ruleset "name" = Normal (JStr name)
    /\ existsb (String.eqb name) managed_rulesets = true
    /\ first_id_named name items = Normal id
    /\ resp = http env h (get_ruleset org id).
Proof.
  unfold events_of, toggle_ruleset.
  destruct (getitem ruleset "name") as [n|c|e] eqn:Hn; [|intros []|intros []].
  rewrite bind_lift_normal.
  destruct n as [| | |s| |]; try (intros []).
  destruct (existsb (String.eqb s) managed_rulesets) eqn:Hman; [|intros []].
  destruct (first_id_named s items) as [id0|c|e] eqn:Hid; [|intros []|intros []].
  rewrite bind_lift_normal, bind_requests. fold (get_ruleset org id0).
  rewrite snd_prepend. intros [Hin|Hin].
  - injection Hin as <- <-. now exists s.
  - exfalso. revert Hin.
    set (resp0 := http env h (get_ruleset org id0)).
    set (h1 := h ++ [EvHttp (get_ruleset org id0) resp0]).
    assert (Hupd : forall hh c, ~ In (EvHttp (get_ruleset org id) resp)
                                    (snd (update_ruleset org id0 c env hh))).
    { intros hh c Hin. apply requests_in_In in Hin.
      pose proof (update_ruleset_requests hh id0 c) as Hput. unfold events_of in Hput.
      rewrite Hput in Hin. destruct Hin as [Hin|[]]. discriminate. }
    destruct (status_in resp0 [200; 201]%Z); cbn [negb].
    { rewrite bind_ret.
      destruct (getitem (json_of resp0) "conditions") as [cond|c|e];
        [|intros []|intros []].
      rewrite bind_lift_normal.
      assert (Hinv : forall hh, ~ In (EvHttp (get_ruleset org id) resp)
                 (snd (log_error "Invalid action or repository_name condition not found in the ruleset." env hh)))
        by (intros hh [Hin|[]]; discriminate).
      destruct (String.eqb action "add").
      - destruct (contains_key "repository_name" cond) as [[]|c|e];
          [| |intros []|intros []]; rewrite bind_lift_normal; [|apply Hinv].
        destruct (conditions_after_add cond repo) as [c|c|e]; [|intros []|intros []].
        rewrite bind_lift_normal. apply Hupd.
      - destruct (String.eqb action "remove"); [|apply Hinv].
        destruct (contains_key "repository_name" cond) as [[]|c|e];
          [| |intros []|intros []]; rewrite bind_lift_normal; [|apply Hinv].
        rewrite 3 bind_log_info.
        destruct (conditions_after_remove cond repo) as [c|c|e];
          [|intros Hin; repeat (destruct Hin as [Hin|Hin]; [discriminate|]);
            destruct Hin ..].
        rewrite bind_lift_normal.
        match goal with
        | |- context [update_ruleset org id0 c env ?hh] =>
            pose proof (Hupd hh c) as Hno;
            remember (update_ruleset org id0 c env hh) as U eqn:HU
        end.
        clear HU. rewrite !snd_prepend. intros Hin.
        repeat (destruct Hin as [Hin|Hin]; [discriminate|]). now apply Hno. }
    rewrite bind_assoc.
    destruct (get (json_of resp0) "message" JNull);
      [rewrite bind_lift_normal, bind_assoc, bind_log_error
      |rewrite bind_lift_exit|rewrite bind_lift_raise];
      intros Hin; repeat (destruct Hin as [Hin|Hin]; [discriminate|]); destruct Hin.
Qed.

(** A [remove] turn that ends normally: every ruleset it read with
    a [repository_name] entry had the name in its exclude list, and a
    managed entry of the listing was read. *)
Lemma toggle_ruleset_remove_normal h items ruleset :
  outcome_of (toggle_ruleset org repo "remove" items ruleset) env h = Normal tt ->
  (forall id resp cond,
      In (EvHttp (get_ruleset org id) resp)
         (events_of (toggle_ruleset org repo "remove" items ruleset) env h) ->
      getitem (json_of resp) "conditions" = Normal cond ->
      contains_key "repository_name" cond = Normal true ->
      exists ex, exclude_list cond = Some ex /\ mem_str repo ex = true)
  /\ (forall name,
        getitem ruleset "name" = Normal (JStr name) ->
        existsb (String.eqb name) managed_rulesets = true ->
        exists id resp,
          first_id_named name items = Normal id
          /\ In (EvHttp (get_ruleset org id) resp)
                (events_of (toggle_ruleset org repo "remove" items ruleset) env h)).
Proof.
  unfold outcome_of, events_of, toggle_ruleset.
  destruct (getitem ruleset "name") as [n|c|e] eqn:Hn; [|discriminate|discriminate].
  rewrite bind_lift_normal.
  destruct n as [| | |s| |];
    try (intros _; split; [intros ? ? ? []| intros ? [=]]).
  destruct (existsb (String.eqb s) managed_rulesets) eqn:Hman;
    [|intros _; split; [intros ? ? ? []| intros ? [= <-]; congruence]].
  destruct (first_id_named s items) as [id|c|e] eqn:Hid; [|discriminate|discriminate].
  rewrite bind_lift_normal, bind_requests. fold (get_ruleset org id).
  set (resp := http env h (get_ruleset org id)).
  destruct (status_in resp [200; 201]%Z) eqn:Hst; cbn [negb].
  2:{ rewrite bind_assoc.
      destruct (get (json_of resp) "message" JNull);
        [rewrite bind_lift_normal, bind_assoc, bind_log_error
        |rewrite bind_lift_exit|rewrite bind_lift_raise]; discriminate. }
  rewrite bind_ret.
  destruct (getitem (json_of resp) "conditions") as [cond|c|e] eqn:Hcond;
    [|rewrite bind_lift_exit; discriminate|rewrite bind_lift_raise; discriminate].
  rewrite bind_lift_normal. cbn [String.eqb Ascii.eqb Bool.eqb].
  destruct (contains_key "repository_name" cond) as [[]|c|e] eqn:Hkey;
    [| |rewrite bind_lift_exit; discriminate|rewrite bind_lift_raise; discriminate];
    rewrite bind_lift_normal.
  - rewrite !bind_log_info.
    destruct (conditions_after_remove cond repo) as [c|c|e] eqn:Hc;
      [|rewrite bind_lift_exit; discriminate|rewrite bind_lift_raise; discriminate].
    rewrite bind_lift_normal.
    match goal with
    | |- context [update_ruleset org id c env ?hh] =>
        pose proof (update_ruleset_requests hh id c) as Hput;
        unfold events_of in Hput;
        remember (update_ruleset org id c env hh) as U eqn:HU
    end.
    clear HU.
    intros _. rewrite !snd_prepend. split.
    + intros id' resp' cond' Hin Hcond' Hkey'.
      destruct Hin as [Hin|Hin].
      * injection Hin as <- <-. rewrite Hcond in Hcond'. injection Hcond' as <-.
        now apply conditions_after_remove_normal with (c := c).
      * repeat (destruct Hin as [Hin|Hin]; [discriminate|]).
        cbn [app] in Hin. apply requests_in_In in Hin. rewrite Hput in Hin.
        destruct Hin as [Hin|[]]. discriminate.
    + intros name [= <-] _. exists id, resp. split; [exact Hid | now left].
  - intros _. split.
    + intros id' resp' cond' Hin Hcond' Hkey'.
      destruct Hin as [Hin|Hin].
      * injection Hin as <- <-. congruence.
      * repeat (destruct Hin as [Hin|Hin]; [discriminate|]). destruct Hin.
    + intros name [= <-] _. exists id, resp. split; [exact Hid | now left].
Qed.

End RulesetGuard.

Section RulesetRun.
Import Py PyFacts.
Local Open Scope list_scope.

Variable env : Env.
Variables org repo : string.

(** What a normal end of the whole [remove] call shows. *)
Lemma remove_normal h :
  outcome_of (repo_name_to_exclusion_ruleset org repo "remove") env h = Normal tt ->
  (forall id resp cond,
      In (EvHttp (get_ruleset org id) resp)
         (events_of (repo_name_to_exclusion_ruleset org repo "remove") env h) ->
      getitem (json_of resp) "conditions" = Normal cond ->
      contains_key "repository_name" cond = Normal true ->
      exists ex, exclude_list cond = Some ex /\ mem_str repo ex = true)
  /\ (forall items ruleset name,
        iter (json_of (http env h (list_rulesets org))) = Normal items ->
        In ruleset items ->
        getitem ruleset "name" = Normal (JStr name) ->
        existsb (String.eqb name) managed_rulesets = true ->
        exists id resp,
          first_id_named name items = Normal id
          /\ In (EvHttp (get_ruleset org id) resp)
               (events_of (repo_name_to_exclusion_ruleset org repo "remove") env h)).
Proof.
  unfold outcome_of, events_of, repo_name_to_exclusion_ruleset.
  rewrite bind_requests. fold (list_rulesets org).
  set (resp0 := http env h (list_rulesets org)).
  destruct (status_in resp0 [200; 201]%Z) eqn:Hst; cbn [negb].
  2:{ rewrite bind_assoc.
      destruct (get (json_of resp0) "message" JNull);
        [rewrite bind_lift_normal, bind_assoc, bind_log_error
        |rewrite bind_lift_exit|rewrite bind_lift_raise]; discriminate. }
  rewrite bind_ret.
  destruct (iter (json_of resp0)) as [items|c|e] eqn:Hit;
    [|rewrite bind_lift_exit; discriminate|rewrite bind_lift_raise; discriminate].
  rewrite bind_lift_normal, fst_prepend, snd_prepend.
  intros Hn.
  destruct (for_each_normal (toggle_ruleset org repo "remove" items) env items _ Hn)
    as [Hall Hev].
  unfold events_of in *. split.
  - intros id resp cond [Hin|Hin] Hcond Hkey; [discriminate|].
    destruct (Hev _ Hin) as (x & h' & _ & Hx & Hin').
    exact (proj1 (toggle_ruleset_remove_normal env org repo h' items x Hx)
             id resp cond Hin' Hcond Hkey).
  - intros items' ruleset name [= <-] Hin Hname Hman.
    destruct (Hall _ Hin) as (h' & Hx & Hincl).
    destruct (proj2 (toggle_ruleset_remove_normal env org repo h' items ruleset Hx)
                name Hname Hman) as (id & resp & Hid & Hin').
    exists id, resp. split; [exact Hid|]. right. now apply Hincl.
Qed.

(** When the [remove] call reads a ruleset whose exclude list lacks
    the name, it ends there in [ValueError]: the read is its last
    request. *)
Lemma remove_absent_run h id resp cond ex :
  In (EvHttp (get_ruleset org id) resp)
     (events_of (repo_name_to_exclusion_ruleset org repo "remove") env h) ->
  status_in resp [200; 201]%Z = true ->
  getitem (json_of resp) "conditions" = Normal cond ->
  exclude_list cond = Some ex ->
  mem_str repo ex = false ->
  outcome_of (repo_name_to_exclusion_ruleset org repo "remove") env h = Raise ValueError
  /\ exists pre logs,
       events_of (repo_name_to_exclusion_ruleset org repo "remove") env h
       = pre ++ EvHttp (get_ruleset org id) resp :: logs
       /\ requests_in logs = [].
Proof.
  unfold outcome_of, events_of, repo_name_to_exclusion_ruleset.
  rewrite bind_requests. fold (list_rulesets org).
  set (resp0 := http env h (list_rulesets org)).
  rewrite fst_prepend, snd_prepend. intros [Hin|Hin]; [discriminate|]. revert Hin.
  destruct (status_in resp0 [200; 201]%Z) eqn:Hst; cbn [negb].
  2:{ rewrite bind_assoc.
      destruct (get (json_of resp0) "message" JNull);
        [rewrite bind_lift_normal, bind_assoc, bind_log_error
        |rewrite bind_lift_exit|rewrite bind_lift_raise];
        intros Hin; repeat (destruct Hin as [Hin|Hin]; [discriminate|]); destruct Hin. }
  rewrite bind_ret.
  destruct (iter (json_of resp0)) as [items|c|e] eqn:Hit; [|intros []|intros []].
  rewrite bind_lift_normal. intros Hin Hok Hcond Hex Habs.
  destruct (for_each_event (toggle_ruleset org repo "remove" items) env items _ _ Hin)
    as (x & h' & pre & Hx & Hin' & Hcase).
  destruct (toggle_ruleset_read env org repo h' "remove" items x id resp Hin')
    as (name & Hname & Hman & Hid & ->).
  pose proof (toggle_ruleset_remove_absent env org repo h' items x name id cond ex
                Hname Hman Hid Hok Hcond Hex Habs) as Hrun.
  unfold outcome_of, events_of in Hcase. rewrite Hrun in Hcase. cbn [fst snd] in Hcase.
  destruct Hcase as [Hn|[Ho Hev]]; [discriminate|].
  split; [exact Ho|].
  exists (EvHttp (list_rulesets org) resp0 :: pre). eexists.
  split; [rewrite Hev; reflexivity | reflexivity].
Qed.

End RulesetRun.

(** C1, as stated, fails: when the name is already in the exclude list
    with another entry after it, [remove] takes out the earlier copy and
    the appended one stays at the end, so the list comes back in another
    order although the original lists were not both empty. *)
Lemma C1_counterexample :
  let cond := JObj [("repository_name",
                     JObj [("exclude", JArr [JStr "my-repo"; JStr "legacy-repo"]);
                           ("include", JArr [JStr "~ALL"])])] in
  obind (conditions_after_add cond "my-repo")
        (fun c1 => conditions_after_remove c1 "my-repo")
  = Normal (JObj [("repository_name",
                   JObj [("exclude", JArr [JStr "legacy-repo"; JStr "my-repo"]);
                         ("include", JArr [JStr "~ALL"])])])
  /\ obind (conditions_after_add cond "my-repo")
           (fun c1 => conditions_after_remove c1 "my-repo")
     <> Normal cond.
Proof. split; [reflexivity | vm_compute; discriminate]. Qed.

(** C1 (amended): for every condition object whose exclude list does not
    already hold the repository name, [add] followed by [remove] for
    that name gives back the original object exactly, except when the
    original exclude and include lists were both empty: then the object
    comes back with ["~ALL"] as its include list.  A condition object
    without a [repository_name] entry is read and never written back,
    so it stays as it was. *)
Theorem C1_add_then_remove :
  (forall (cond : json) (repo : string) (ex inc : list json),
      repository_name_lists cond = Some (ex, inc) ->
      Py.mem_str repo ex = false ->
      exists c1 c2,
        conditions_after_add cond repo = Normal c1
        /\ conditions_after_remove c1 repo = Normal c2
        /\ match ex, inc with
           | [], [] => c2 = with_include cond [JStr "~ALL"]
                       /\ repository_name_lists c2 = Some ([], [JStr "~ALL"])
           | _, _ => c2 = cond
           end)
  /\ (forall env h org repo action items ruleset name id cond,
        Py.getitem ruleset "name" = Normal (JStr name) ->
        existsb (String.eqb name) managed_rulesets = true ->
        first_id_named name items = Normal id ->
        status_in (http env h (get_ruleset org id)) [200; 201]%Z = true ->
        Py.getitem (json_of (http env h (get_ruleset org id))) "conditions" = Normal cond ->
        Py.contains_key "repository_name" cond = Normal false ->
        outcome_of (toggle_ruleset org repo action items ruleset) env h = Normal tt
        /\ requests_in (events_of (toggle_ruleset org repo action items ruleset) env h)
           = [get_ruleset org id]).
Proof.
  split.
  - intros cond repo ex inc H Habs.
    destruct (exclude_append_remove _ _ _ _ H Habs) as (c1 & Hadd & Hrem).
    exists c1. eexists. split; [exact Hadd|]. split.
    + unfold conditions_after_remove. rewrite Hrem. cbn [obind].
      apply include_all_if_empty_lists with (ex := ex) (inc := inc). exact H.
    + destruct ex; [destruct inc|]; try reflexivity.
      split; [reflexivity|].
      now apply repository_name_lists_with_include with (inc := []).
  - intros env h org repo action items ruleset name id cond
      Hname Hman Hid Hst Hcond Hkey.
    unfold outcome_of, events_of.
    rewrite (toggle_ruleset_without_entry env org repo h action items ruleset name id cond)
      by assumption.
    split; reflexivity.
Qed.

Lemma C1_add_then_remove_witness :
  exists c1 c2,
    conditions_after_add
      (JObj [("repository_name",
              JObj [("exclude", JArr [JStr "legacy-repo"]); ("include", JArr [JStr "~ALL"])])])
      "my-repo" = Normal c1
    /\ conditions_after_remove c1 "my-repo" = Normal c2
    /\ c2 = JObj [("repository_name",
                   JObj [("exclude", JArr [JStr "legacy-repo"]);
                         ("include", JArr [JStr "~ALL"])])].
Proof.
  exact (proj1 C1_add_then_remove
           (JObj [("repository_name",
                   JObj [("exclude", JArr [JStr "legacy-repo"]);
                         ("include", JArr [JStr "~ALL"])])])
           "my-repo" [JStr "legacy-repo"] [JStr "~ALL"] eq_refl eq_refl).
Defined.

(** On the platform that keeps the rulesets, the [add] call followed by
    the [remove] call leaves the managed ruleset with entries as it
    was, the unmanaged one untouched, and the managed one whose lists
    were both empty with ["~ALL"] as its include list. *)
Example add_then_remove_on_platform :
  let env := demo_env demo_store export_ok import_ok no_faults in
  let added :=
    events_of (repo_name_to_exclusion_ruleset "pru-myorg" "myorg-abc-my-repo" "add")
      env [] in
  let removed :=
    events_of (repo_name_to_exclusion_ruleset "pru-myorg" "myorg-abc-my-repo" "remove")
      env added in
  map (fun r => conditions_now (added ++ removed) (rs_id r) (rs_conditions r)) demo_store
  = [JObj [("ref_name", JObj [("exclude", JArr []); ("include", JArr [JStr "~ALL"])]);
           ("repository_name",
            JObj [("exclude", JArr [JStr "playground"]); ("include", JArr [JStr "~ALL"]);
                  ("protected", JBool false)])];
     JObj [("repository_name",
            JObj [("exclude", JArr []); ("include", JArr [JStr "billing-*"])])];
     JObj [("repository_name",
            JObj [("exclude", JArr []); ("include", JArr [JStr "~ALL"])])]].
Proof. vm_compute. reflexivity. Qed.

(** C7: removing "repo-a" from exclude ["repo-a"], include [] gives
    exclude [], include ["~ALL"]; and whenever the removal empties the
    exclude list while the include list is empty, the object handed to
    the write-back has ["~ALL"] as its include list: the turn of the
    loop sends the read and then the write-back with that object. *)
Theorem C7_remove_last_exclusion :
  conditions_after_remove
    (JObj [("repository_name",
            JObj [("exclude", JArr [JStr "repo-a"]); ("include", JArr [])])])
    "repo-a"
  = Normal (JObj [("repository_name",
                   JObj [("exclude", JArr []); ("include", JArr [JStr "~ALL"])])])
  /\ forall env h org repo items ruleset name id cond ex,
       Py.getitem ruleset "name" = Normal (JStr name) ->
       existsb (String.eqb name) managed_rulesets = true ->
       first_id_named name items = Normal id ->
       status_in (http env h (get_ruleset org id)) [200; 201]%Z = true ->
       Py.getitem (json_of (http env h (get_ruleset org id))) "conditions" = Normal cond ->
       repository_name_lists cond = Some (ex, []) ->
       Py.remove_first repo ex = Some [] ->
       let c := with_include (with_exclude cond []) [JStr "~ALL"] in
       conditions_after_remove cond repo = Normal c
       /\ repository_name_lists c = Some ([], [JStr "~ALL"])
       /\ requests_in (events_of (toggle_ruleset org repo "remove" items ruleset) env h)
          = [get_ruleset org id; put_ruleset org id c].
Proof.
  split; [reflexivity|].
  intros env h org repo items ruleset name id cond ex Hname Hman Hid Hst Hcond Hl Hrem c.
  assert (Hc : conditions_after_remove cond repo = Normal c).
  { rewrite (conditions_after_remove_lists _ _ _ repo Hl), Hrem. reflexivity. }
  split; [exact Hc|]. split.
  - apply repository_name_lists_with_include with (inc := []).
    now apply repository_name_lists_with_exclude with (ex := ex).
  - apply toggle_ruleset_remove_written with (name := name) (cond := cond); auto.
    apply exclude_list_contains_key with (ex := ex).
    now apply repository_name_lists_exclude with (inc := []).
Qed.

Lemma C7_remove_last_exclusion_witness :
  let env := demo_env last_exclusion_store export_ok import_ok no_faults in
  let entry := JObj [("id", JNum 21); ("name", JStr "branch_names")] in
  let c := JObj [("repository_name",
                  JObj [("exclude", JArr []); ("include", JArr [JStr "~ALL"])])] in
  conditions_after_remove last_exclusion_conditions "repo-a" = Normal c
  /\ repository_name_lists c = Some ([], [JStr "~ALL"])
  /\ requests_in (events_of (toggle_ruleset "pru-myorg" "repo-a" "remove" [entry] entry)
                    env [])
     = [get_ruleset "pru-myorg" (JNum 21); put_ruleset "pru-myorg" (JNum 21) c].
Proof.
  exact (proj2 C7_remove_last_exclusion
           (demo_env last_exclusion_store export_ok import_ok no_faults) []
           "pru-myorg" "repo-a"
           [JObj [("id", JNum 21); ("name", JStr "branch_names")]]
           (JObj [("id", JNum 21); ("name", JStr "branch_names")])
           "branch_names" (JNum 21) last_exclusion_conditions [JStr "repo-a"]
           eq_refl eq_refl eq_refl eq_refl eq_refl eq_refl eq_refl).
Defined.


(** The error ends the call at the ruleset that lacks the name; a
    ruleset earlier in the listing that held it has been written back
    by then. *)
Example remove_stops_at_first_absence :
  let env := demo_env partial_store export_ok import_ok no_faults in
  let remove := repo_name_to_exclusion_ruleset "pru-myorg" "repo-a" "remove" in
  outcome_of remove env [] = Raise ValueError
  /\ requests_in (events_of remove env [])
     = [list_rulesets "pru-myorg";
        get_ruleset "pru-myorg" (JNum 31);
        put_ruleset "pru-myorg" (JNum 31)
          (JObj [("repository_name",
                  JObj [("exclude", JArr []); ("include", JArr [JStr "~ALL"])])]);
        get_ruleset "pru-myorg" (JNum 32)].
Proof. split; reflexivity. Qed.


(** ** Classes of events of the pipeline *)

Section Emits.
Local Open Scope list_scope.
Variable P : Event -> Prop.

Lemma emits_ret {A} (a : A) : emits P (ret a).
Proof. intros env h. constructor. Qed.

Lemma emits_lift {A} (o : Outcome A) : emits P (lift o).
Proof. intros env h. constructor. Qed.

Lemma emits_os_getenv name : emits P (os_getenv name).
Proof. intros env h. constructor. Qed.

Lemma emits_emit e : P e -> emits P (emit e).
Proof. intros H env h. now repeat constructor. Qed.

Lemma emits_requests m t b :
  (forall resp, P (EvHttp (mkRequest m t b) resp)) -> emits P (requests m t b).
Proof. intros H env h. now repeat constructor. Qed.

Lemma emits_Popen c : P (EvPopen c) -> emits P (subprocess_Popen c).
Proof. intros H env h. now repeat constructor. Qed.

Lemma emits_run c : P (EvRun c) -> emits P (subprocess_run c).
Proof. intros H env h. now repeat constructor. Qed.

Lemma emits_bind {A B} (m : M A) (f : A -> M B) :
  emits P m -> (forall a, emits P (f a)) -> emits P (bind m f).
Proof.
  intros Hm Hf env h. specialize (Hm env h). unfold events_of, bind in *.
  destruct (m env h) as [[a|c|e] es]; cbn [snd] in *; try assumption.
  apply Forall_app. split; [assumption | apply Hf].
Qed.

Lemma emits_try_except {A} (m : M A) (f : Exn -> M A) :
  emits P m -> (forall e, emits P (f e)) -> emits P (try_except m f).
Proof.
  intros Hm Hf env h. specialize (Hm env h). unfold events_of, try_except in *.
  destruct (m env h) as [[a|c|e] es]; cbn [snd] in *; try assumption.
  apply Forall_app. split; [assumption | apply Hf].
Qed.

Lemma emits_for_each {A} (l : list A) (f : A -> M unit) :
  (forall x, emits P (f x)) -> emits P (for_each l f).
Proof.
  intros Hf. induction l as [|x l IH]; cbn [for_each].
  - apply emits_ret.
  - apply emits_bind; [apply Hf | intros _; exact IH].
Qed.

End Emits.

(** Breaks a computation down to its primitive steps. *)
Ltac emits_steps :=
  repeat first
    [ apply emits_ret | apply emits_lift | apply emits_os_getenv
    | apply emits_bind; [|intros ?]
    | apply emits_try_except; [|intros ?]
    | apply emits_for_each; intros ?
    | apply emits_emit; cbn; try exact I
    | apply emits_requests; intros ?; cbn; try reflexivity
    | apply emits_Popen; cbn
    | apply emits_run; cbn; try exact I
    | match goal with
      | |- emits _ (if ?b then _ else _) => destruct b
      | |- emits _ (match ?x with _ => _ end) => destruct x
      end ].

Section PipelineClasses.
Local Open Scope list_scope.

Lemma prequisite_reads_or_logs : emits read_or_log set_migration_prequisite.
Proof. unfold set_migration_prequisite, log_error, raise. emits_steps. Qed.

Lemma validate_reads_or_logs code org : emits read_or_log (validate code org).
Proof.
  unfold validate, valid_team_slug, log_error, log_info, sys_exit. emits_steps.
Qed.

End PipelineClasses.

(** ** Child processes that write to their error stream *)

Section ErrorStream.
Local Open Scope list_scope.

Variable env : Env.
Variables key repo code org : string.

(** The export step leaves through [sys.exit()] when the error stream
    of its process is not empty, whatever the output and the exit
    code were. *)
Lemma run_export_archive_stderr h :
  stderr (popen env (h ++ [export_log]) (export_command key repo)) <> EmptyString ->
  run_export_archive key repo code org env h
  = (Exit 0, [export_log; EvPopen (export_command key repo); export_failed]).
Proof.
  intros Herr. unfold run_export_archive.
  rewrite bind_log_info. unfold bind at 1, subprocess_Popen at 1.
  fold export_log.
  set (process := popen env (h ++ [export_log]) (export_command key repo)) in *.
  unfold try_except.
  apply String.eqb_neq in Herr. rewrite Herr. cbn [negb].
  rewrite bind_assoc, bind_log_error. reflexivity.
Qed.

(** So does the import step. *)
Lemma run_import_archive_stderr h path new_repo :
  let command :=
    import_command (PyStr.last_segment "/" path) org new_repo key repo in
  stderr (popen env (h ++ [import_log]) command) <> EmptyString ->
  run_import_archive key repo code org (Some path) new_repo env h
  = (Exit 0, [import_log; EvPopen command; import_failed]).
Proof.
  intros command Herr. unfold run_import_archive, local_archive_name.
  rewrite bind_ret, bind_log_info. unfold bind at 1, subprocess_Popen at 1.
  fold import_log. fold command.
  set (process := popen env (h ++ [import_log]) command) in *.
  unfold try_except.
  apply String.eqb_neq in Herr. rewrite Herr. cbn [negb].
  rewrite bind_log_error. reflexivity.
Qed.

End ErrorStream.

Section AbortedRuns.
Local Open Scope list_scope.
Variable P : Event -> Prop.
Variable proc : Event -> Prop.
Variable failed : Event.

Lemma aborted_at_prepend {A} es (r : Outcome A * list Event) :
  Forall P es -> aborted_at P proc failed r -> aborted_at P proc failed (prepend es r).
Proof.
  intros Hes [Hn Hr]. split; [exact Hn|]. rewrite snd_prepend.
  destruct Hr as [Hall|(pre & c & -> & Hc & Hpre)].
  - left. apply Forall_app. now split.
  - right. exists (es ++ pre), c. rewrite app_assoc. split; [reflexivity|].
    split; [exact Hc|]. apply Forall_app. now split.
Qed.

(** A step of the class [P] before a continuation that aborts. *)
Lemma aborted_at_bind {A B} (m : M A) (f : A -> M B) env h :
  emits P m ->
  (forall a h', aborted_at P proc failed (f a env h')) ->
  aborted_at P proc failed (bind m f env h).
Proof.
  intros Hm Hf. specialize (Hm env h). unfold events_of, bind in *.
  destruct (m env h) as [[a|c|e] es]; cbn [snd] in *.
  - apply aborted_at_prepend; [assumption | apply Hf].
  - split; [reflexivity | now left].
  - split; [reflexivity | now left].
Qed.

End AbortedRuns.

Section ErrorStreamPipeline.
Local Open Scope list_scope.

Variable env : Env.
Variables key repo code org pipeline_type user_defined_name new_repo : string.

(** With an export process that writes to its error stream, the run
    ends at the export: before it only log records and reads. *)
Lemma run_migration_export_stderr h :
  (forall h', stderr (popen env h' (export_command key repo)) <> EmptyString) ->
  aborted_at read_or_log (eq (EvPopen (export_command key repo))) export_failed
    (run_migration key repo code org pipeline_type user_defined_name env h).
Proof.
  intros Herr. unfold run_migration.
  apply aborted_at_bind; [apply prequisite_reads_or_logs|intros _ h1].
  apply aborted_at_bind; [apply validate_reads_or_logs|intros _ h2].
  apply aborted_at_bind; [unfold log_info; emits_steps|intros _ h3].
  rewrite (bind_run_exit _ _ _ _ _ _ (run_export_archive_stderr env key repo code org h3 (Herr _))).
  split; [reflexivity|]. right.
  eexists [_], _. split; [reflexivity|]. split; [reflexivity|].
  repeat constructor.
Qed.

Lemma export_is_not_import archive :
  export_command key repo <> import_command archive org new_repo key repo.
Proof. unfold export_command, import_command. cbn [append]. discriminate. Qed.

Lemma export_before_import :
  emits (before_import org new_repo key repo) (run_export_archive key repo code org).
Proof.
  unfold run_export_archive, log_info, log_error, sys_exit. emits_steps.
  intros archive. apply export_is_not_import.
Qed.

Lemma scp_before_import path :
  emits (before_import org new_repo key repo) (scp_command path).
Proof.
  unfold scp_command, local_archive_name, run_command, log_info, log_error, raise.
  emits_steps.
Qed.

Lemma exclusion_before_import action :
  emits (before_import org new_repo key repo)
    (repo_name_to_exclusion_ruleset org new_repo action).
Proof.
  unfold repo_name_to_exclusion_ruleset, toggle_ruleset, update_ruleset,
    log_info, log_error, sys_exit.
  emits_steps.
Qed.

(** With an import process that writes to its error stream, the run
    ends at the import: no settle delay and no request to the
    destination repository before it, nothing after it. *)
Lemma run_migration_import_stderr h :
  new_repo = get_new_repo_name org repo code user_defined_name ->
  (forall h' archive,
      stderr (popen env h' (import_command archive org new_repo key repo))
      <> EmptyString) ->
  aborted_at (before_import org new_repo key repo)
    (fun c => exists archive, c = EvPopen (import_command archive org new_repo key repo))
    import_failed
    (run_migration key repo code org pipeline_type user_defined_name env h).
Proof.
  intros Hnew Herr. unfold run_migration. rewrite <- Hnew.
  apply aborted_at_bind;
    [unfold set_migration_prequisite, log_error, raise; emits_steps|intros _ h1].
  apply aborted_at_bind;
    [unfold validate, valid_team_slug, log_error, log_info, sys_exit; emits_steps
    |intros _ h2].
  apply aborted_at_bind; [unfold log_info; emits_steps|intros _ h3].
  apply aborted_at_bind; [apply export_before_import|intros path h4].
  apply aborted_at_bind; [apply scp_before_import|intros _ h5].
  apply aborted_at_bind; [apply exclusion_before_import|intros _ h6].
  destruct path as [path|].
  - rewrite (bind_run_exit _ _ _ _ _ _
               (run_import_archive_stderr env key repo code org h6 path new_repo
                  (Herr _ _))).
    split; [reflexivity|]. right.
    eexists [_], _. split; [reflexivity|]. split; [now eexists|].
    repeat constructor.
  - split; [reflexivity|]. left. constructor.
Qed.

End ErrorStreamPipeline.

(** C8: when the error stream of the export or of the import process is
    not empty, the step leaves through [sys.exit()], whatever the
    output and the exit code of the process; the run of the pipeline
    then did not end normally and nothing follows the process but the
    log record of the failure: before a failed export there are only
    log records and reads, before a failed import there is no settle
    delay and no request to the destination repository. *)
Theorem C8_error_stream_aborts :
  (forall env key repo code org h,
      stderr (popen env (h ++ [export_log])%list (export_command key repo))
      <> EmptyString ->
      outcome_of (run_export_archive key repo code org) env h = Exit 0)
  /\ (forall env key repo code org h path new_repo,
        stderr (popen env (h ++ [import_log])%list
                  (import_command (PyStr.last_segment "/" path) org new_repo key repo))
        <> EmptyString ->
        outcome_of (run_import_archive key repo code org (Some path) new_repo) env h
        = Exit 0)
  /\ (forall env key repo code org pipeline_type user_defined_name h,
        (forall h', stderr (popen env h' (export_command key repo)) <> EmptyString) ->
        aborted_at read_or_log (eq (EvPopen (export_command key repo))) export_failed
          (run_migration key repo code org pipeline_type user_defined_name env h))
  /\ (forall env key repo code org pipeline_type user_defined_name h,
        let new_repo := get_new_repo_name org repo code user_defined_name in
        (forall h' archive,
            stderr (popen env h' (import_command archive org new_repo key repo))
            <> EmptyString) ->
        aborted_at (before_import org new_repo key repo)
          (fun c => exists archive,
               c = EvPopen (import_command archive org new_repo key repo))
          import_failed
          (run_migration key repo code org pipeline_type user_defined_name env h)).
Proof.
  split; [|split; [|split]].
  - intros env key repo code org h Herr. unfold outcome_of.
    now rewrite run_export_archive_stderr.
  - intros env key repo code org h path new_repo Herr. unfold outcome_of.
    now rewrite run_import_archive_stderr.
  - intros env key repo code org pipeline_type user_defined_name h.
    apply run_migration_export_stderr.
  - intros env key repo code org pipeline_type user_defined_name h new_repo.
    now apply run_migration_import_stderr.
Qed.

Lemma C8_error_stream_aborts_witness :
  aborted_at read_or_log (eq (EvPopen (export_command "PRJ" "my-repo"))) export_failed
    (run_migration "PRJ" "my-repo" "abc" "pru-myorg" "Both_Jenkins" "None"
       (demo_env demo_store export_with_stderr import_ok no_faults) [])
  /\ aborted_at (before_import "pru-myorg" "myorg-abc-my-repo" "PRJ" "my-repo")
       (fun c => exists archive,
            c = EvPopen (import_command archive "pru-myorg" "myorg-abc-my-repo"
                           "PRJ" "my-repo"))
       import_failed
       (run_migration "PRJ" "my-repo" "abc" "pru-myorg" "Both_Jenkins" "None"
          (demo_env demo_store export_ok import_with_stderr no_faults) []).
Proof.
  split.
  - apply (proj1 (proj2 (proj2 C8_error_stream_aborts))).
    intros h'. vm_compute. discriminate.
  - apply (proj2 (proj2 (proj2 C8_error_stream_aborts))
             (demo_env demo_store export_ok import_with_stderr no_faults)
             "PRJ" "my-repo" "abc" "pru-myorg" "Both_Jenkins" "None" []).
    intros h' archive. cbn. discriminate.
Defined.

(** ** Post-migration steps that run to their end *)

Section Completes.
Local Open Scope list_scope.

Lemma calls_in_app es es' : calls_in (es ++ es') = calls_in es ++ calls_in es'.
Proof.
  induction es as [|e es IH]; [reflexivity|].
  destruct e; simpl; now rewrite IH.
Qed.

Variable env : Env.

Lemma completes_ret {A} (a : A) h (Q : A -> Prop) : Q a -> completes (ret a) env h Q [].
Proof. intros H. now exists a, []. Qed.

Lemma completes_lift {A} (a : A) h (Q : A -> Prop) :
  Q a -> completes (lift (Normal a)) env h Q [].
Proof. intros H. now exists a, []. Qed.

Lemma completes_emit e h (Q : unit -> Prop) :
  Q tt -> calls_in [e] = [] -> completes (emit e) env h Q [].
Proof. intros H He. now exists tt, [e]. Qed.

Lemma completes_requests m t b h (Q : Response -> Prop) :
  Q (http env h (mkRequest m t b)) -> completes (requests m t b) env h Q [(m, t)].
Proof. intros H. eexists _, _. split; [reflexivity|]. now split. Qed.

Lemma completes_bind {A B} (m : M A) (f : A -> M B) h Q R c1 c2 :
  completes m env h Q c1 ->
  (forall a h', Q a -> completes (f a) env h' R c2) ->
  completes (bind m f) env h R (c1 ++ c2).
Proof.
  intros (a & es & Hm & Ha & Hc) Hf.
  destruct (Hf a (h ++ es) Ha) as (b & es' & Hfa & Hb & Hc').
  exists b, (es ++ es'). rewrite (bind_run _ _ _ _ _ _ Hm), Hfa.
  split; [reflexivity|]. split; [exact Hb|]. now rewrite calls_in_app, Hc, Hc'.
Qed.

Lemma completes_for_each {A} (l : list A) (f : A -> M unit) (c : A -> list (Method * Endpoint)) :
  (forall x h, completes (f x) env h (fun _ => True) (c x)) ->
  forall h, completes (for_each l f) env h (fun _ => True) (flat_map c l).
Proof.
  intros Hf. induction l as [|x l IH]; intros h; cbn [for_each flat_map].
  - now apply completes_ret.
  - apply completes_bind with (Q := fun _ => True); [apply Hf | intros _ h' _; apply IH].
Qed.

Lemma completes_bind_lift {A B} (a : A) (f : A -> M B) h Q c :
  completes (f a) env h Q c -> completes (bind (lift (Normal a)) f) env h Q c.
Proof. unfold completes. now rewrite bind_lift_normal. Qed.

Lemma completes_bind_ret {A B} (a : A) (f : A -> M B) h Q c :
  completes (f a) env h Q c -> completes (bind (ret a) f) env h Q c.
Proof. unfold completes. now rewrite bind_ret. Qed.

Lemma completes_calls {A} (m : M A) h Q c c' :
  completes m env h Q c -> c = c' -> completes m env h Q c'.
Proof. now intros H <-. Qed.

End Completes.

(** One step of a computation that runs to its end. *)
Ltac completes_log :=
  first [ apply completes_emit; [exact I | reflexivity]
        | eapply completes_bind;
          [apply completes_emit with (Q := fun _ => True); [exact I | reflexivity]
          | intros _ ? _ ] ].

Ltac completes_call Hok Ha :=
  eapply completes_bind;
  [ match goal with
    | |- completes (requests ?m ?t ?b) ?env _ _ _ =>
        apply (completes_requests env m t b _
                 (fun r => accepted (mkRequest m t b) r = true));
        apply Hok
    end
  | let resp := fresh "resp" in intros resp ? Ha; cbn in Ha ].

Section PostMigrationSuccess.
Local Open Scope list_scope.

Variable env : Env.
Hypothesis Hok : all_calls_succeed env.
Variables key bb_repo code org pipeline_type repo : string.

Lemma get_project_details_ok h :
  completes (get_project_details code) env h
    (fun details => is_normal (Py.get details "name" JNull) = true)
    [(GET, ProjectRegistry code)].
Proof.
  unfold get_project_details.
  eapply completes_calls; [|apply app_nil_r].
  completes_call Hok Ha.
  apply andb_true_iff in Ha as [Hst Hp]. rewrite Hst.
  unfold project_found in Hp.
  destruct (Py.get (json_of resp) "count" (JNum 0)) as [count| |]; try discriminate.
  cbn [obind] in Hp. apply completes_bind_lift.
  destruct (Py.gt0 count) as [[]| |]; try discriminate.
  apply completes_bind_lift.
  destruct (Py.get (json_of resp) "results" (JArr [])) as [rs| |]; try discriminate.
  cbn [obind] in Hp. apply completes_bind_lift.
  destruct (Py.index0 rs) as [details| |]; try discriminate.
  cbn [obind] in Hp. now apply completes_lift.
Qed.

Lemma update_org_repository_ok h :
  completes (update_org_repository org repo code) env h (fun _ => True)
    (calls_of_step org repo code pipeline_type UpdateRepoMetadata).
Proof.
  unfold update_org_repository.
  eapply completes_calls.
  - eapply completes_bind; [apply get_project_details_ok|intros details h1 Hd].
    cbv beta in Hd. destruct (Py.get details "name" JNull) as [name| |]; try discriminate.
    apply completes_bind_lift.
    completes_call Hok Ha. apply andb_true_iff in Ha as [Hst Hid].
    eapply completes_bind with (Q := fun _ => True);
      [|intros _ h3 _; now apply completes_ret].
    change (status_in resp [200%Z; 201%Z] = true) in Hst. rewrite Hst.
    destruct (Py.getitem (json_of resp) "id") as [id| |]; try discriminate.
    apply completes_bind_lift. completes_log.
  - reflexivity.
Qed.

Lemma create_status_file_in_repo_ok h :
  completes (create_status_file_in_repo org repo key bb_repo) env h (fun _ => True)
    (calls_of_step org repo code pipeline_type CreateStatusFile).
Proof.
  unfold create_status_file_in_repo.
  eapply completes_calls;
    [completes_call Hok Ha; rewrite Ha; completes_log | reflexivity].
Qed.

Lemma create_codeowners_in_repo_ok h :
  completes (create_codeowners_in_repo org repo key bb_repo code) env h (fun _ => True)
    (calls_of_step org repo code pipeline_type CreateCodeowners).
Proof.
  unfold create_codeowners_in_repo.
  eapply completes_calls;
    [completes_call Hok Ha; rewrite Ha; completes_log | reflexivity].
Qed.

Lemma update_repo_properties_ok h :
  completes (update_repo_properties org repo) env h (fun _ => True)
    (calls_of_step org repo code pipeline_type SetCustomProperties).
Proof.
  unfold update_repo_properties.
  eapply completes_calls;
    [completes_call Hok Ha; rewrite Ha; completes_log | reflexivity].
Qed.

Lemma update_org_repository_topics_ok h :
  completes (update_org_repository_topics org repo code) env h (fun _ => True)
    (calls_of_step org repo code pipeline_type SetTopics).
Proof.
  unfold update_org_repository_topics.
  eapply completes_calls;
    [completes_call Hok Ha; rewrite Ha; completes_log | reflexivity].
Qed.

Lemma update_org_repository_access_ok h :
  completes (update_org_repository_access org repo code) env h (fun _ => True)
    (calls_of_step org repo code pipeline_type GrantTeamAccess).
Proof.
  unfold update_org_repository_access.
  eapply completes_calls.
  - apply completes_for_each
      with (c := fun role =>
                   [(PUT, TeamRepo org (get_gh_team_name (PyStr.upper code) role) repo)]).
    intros role h1.
    eapply completes_calls;
      [completes_call Hok Ha; rewrite Ha; completes_log | reflexivity].
  - reflexivity.
Qed.

Lemma update_or_create_enviroments_ok h :
  completes (update_or_create_enviroments org repo code) env h (fun _ => True)
    (calls_of_step org repo code pipeline_type CreateEnvironments).
Proof.
  unfold update_or_create_enviroments.
  eapply completes_calls.
  - completes_call Hok Ha. apply andb_true_iff in Ha as [Hst Hid].
    eapply completes_bind with (Q := fun team_id => team_id <> None).
    { rewrite Hst.
      destruct (Py.get (json_of resp) "id" JNull) as [id| |]; try discriminate.
      apply completes_bind_lift. now apply completes_ret. }
    intros [id|] h2 Hid'; cbv beta in Hid'; [|congruence].
    cbn [for_each String.eqb Ascii.eqb Bool.eqb read_local].
    eapply completes_bind with (Q := fun _ => True);
      [|intros _ h3 _; now apply completes_ret].
    eapply completes_bind with (Q := fun _ => True).
    { apply completes_bind_ret. now apply completes_ret. }
    intros data h3 _.
    completes_call Hok Ha1.
    eapply completes_bind with (Q := fun _ => True).
    { rewrite Ha1. completes_log. }
    intros _ h5 _.
    eapply completes_bind with (Q := fun _ => True).
    { completes_call Hok Ha2. rewrite Ha2. completes_log. }
    intros _ h6 _.
    eapply completes_bind with (Q := fun _ => True);
      [|intros _ h7 _; now apply completes_ret].
    completes_call Hok Ha3. rewrite Ha3. completes_log.
  - reflexivity.
Qed.

Lemma update_repository_webhook_ok variant h :
  String.eqb variant "Platform_Jenkins" || String.eqb variant "Old_Jenkins" = true ->
  completes (update_repository_webhook org repo key bb_repo variant) env h
    (fun _ => True) [(POST, RepoHooks org repo)].
Proof.
  intros Hv. unfold update_repository_webhook. rewrite Hv.
  eapply completes_calls;
    [completes_call Hok Ha; rewrite Ha; completes_log | reflexivity].
Qed.

Lemma register_webhooks_ok h :
  completes (register_webhooks org repo key bb_repo pipeline_type) env h
    (fun _ => True) (calls_of_step org repo code pipeline_type RegisterWebhooks).
Proof.
  unfold register_webhooks, calls_of_step.
  destruct (String.eqb pipeline_type "Platform_Jenkins"
            || String.eqb pipeline_type "Old_Jenkins") eqn:E1.
  - now apply update_repository_webhook_ok.
  - destruct (String.eqb pipeline_type "Both_Jenkins").
    + eapply completes_calls.
      * eapply completes_bind with (Q := fun _ => True);
          [now apply update_repository_webhook_ok|intros _ h1 _].
        now apply update_repository_webhook_ok.
      * reflexivity.
    + now apply completes_ret.
Qed.

Lemma update_migration_tracker_ok h :
  completes (update_migration_tracker org repo key bb_repo) env h (fun _ => True)
    (calls_of_step org repo code pipeline_type AppendMigrationLedger).
Proof.
  unfold update_migration_tracker.
  eapply completes_calls.
  - completes_call Hok Ha.
    apply andb_true_iff in Ha as [Ha Hcontent]. apply andb_true_iff in Ha as [Hst Hsha].
    eapply completes_bind
      with (Q := fun locals => fst locals <> None /\ snd locals <> None).
    { rewrite Hst.
      destruct (Py.getitem (json_of resp) "sha") as [sha| |]; try discriminate.
      destruct (Py.getitem (json_of resp) "content") as [content| |]; try discriminate.
      do 2 apply completes_bind_lift. apply completes_ret. cbn. split; congruence. }
    intros [[sha|] [content|]] h2 [H1 H2]; cbn in H1, H2; try congruence.
    cbn [read_local]. do 2 apply completes_bind_ret.
    completes_call Hok Ha1. rewrite Ha1. completes_log.
  - reflexivity.
Qed.

Lemma remove_repo_admin_ok h :
  completes (remove_repo_admin org repo) env h (fun _ => True)
    (calls_of_step org repo code pipeline_type RemoveLegacyAdmin).
Proof.
  unfold remove_repo_admin. cbn [for_each].
  eapply completes_calls.
  - eapply completes_bind with (Q := fun _ => True);
      [|intros _ h1 _; now apply completes_ret].
    completes_call Hok Ha. rewrite Ha. completes_log.
  - reflexivity.
Qed.

(** When every call returns success, the post-migration tasks run to
    their end and make the calls of the ten steps in the order of the
    code. *)
Lemma post_migration_tasks_ok h :
  completes (post_migration_tasks key bb_repo code org pipeline_type repo) env h
    (fun _ => True) (flat_map (calls_of_step org repo code pipeline_type) code_order).
Proof.
  unfold post_migration_tasks, code_order. cbn [flat_map].
  eapply completes_bind with (Q := fun _ => True);
    [apply update_org_repository_ok|intros _ ? _].
  eapply completes_bind with (Q := fun _ => True);
    [apply create_status_file_in_repo_ok|intros _ ? _].
  eapply completes_bind with (Q := fun _ => True);
    [apply update_repo_properties_ok|intros _ ? _].
  eapply completes_bind with (Q := fun _ => True);
    [apply update_org_repository_topics_ok|intros _ ? _].
  eapply completes_bind with (Q := fun _ => True);
    [apply update_org_repository_access_ok|intros _ ? _].
  eapply completes_bind with (Q := fun _ => True);
    [apply create_codeowners_in_repo_ok|intros _ ? _].
  eapply completes_bind with (Q := fun _ => True);
    [apply update_or_create_enviroments_ok|intros _ ? _].
  eapply completes_bind with (Q := fun _ => True);
    [apply register_webhooks_ok|intros _ ? _].
  eapply completes_bind with (Q := fun _ => True);
    [apply update_migration_tracker_ok|intros _ ? _].
  rewrite app_nil_r. apply remove_repo_admin_ok.
Qed.

End PostMigrationSuccess.

(** On the healthy platform every call returns success. *)
Lemma demo_env_succeeds store export import :
  all_calls_succeed (demo_env store export import no_faults).
Proof.
  intros h [m t b].
  destruct t, m; try reflexivity.
  all: cbn; destruct (String.eqb file_name "migration_tracker.txt"); reflexivity.
Qed.




(** ** Steps that fail *)

Section FailingSteps.
Local Open Scope list_scope.

Variable env : Env.
Variables key bb_repo code org repo : string.

(** The five steps that only send one request and log its result end
    normally whatever the answer is. *)
Lemma best_effort_steps_continue h variant :
  outcome_of (create_status_file_in_repo org repo key bb_repo) env h = Normal tt
  /\ outcome_of (update_repo_properties org repo) env h = Normal tt
  /\ outcome_of (update_org_repository_topics org repo code) env h = Normal tt
  /\ outcome_of (create_codeowners_in_repo org repo key bb_repo code) env h = Normal tt
  /\ outcome_of (update_repository_webhook org repo key bb_repo variant) env h = Normal tt.
Proof.
  unfold outcome_of, create_status_file_in_repo, update_repo_properties,
    update_org_repository_topics, create_codeowners_in_repo, update_repository_webhook.
  repeat split;
    repeat first
      [ rewrite bind_requests
      | match goal with
        | |- context [if ?b then _ else _] => destruct b
        end ];
    reflexivity.
Qed.

(** The three fatal steps leave through [sys.exit(1)] when their call
    fails. *)
Lemma update_org_repository_fails h :
  let registry := mkRequest GET (ProjectRegistry code) None in
  accepted registry (http env h registry) = true ->
  status_in (http env (h ++ [EvHttp registry (http env h registry)])
               (mkRequest PATCH (Repo org repo) None)) [200; 201]%Z = false ->
  outcome_of (update_org_repository org repo code) env h = Exit 1.
Proof.
  intros registry Hreg Hst.
  unfold outcome_of, update_org_repository, get_project_details.
  rewrite !bind_assoc, bind_requests. fold registry.
  cbn [accepted meth target registry] in Hreg. fold registry in Hreg.
  apply andb_true_iff in Hreg as [H200 Hp]. rewrite H200.
  unfold project_found in Hp.
  destruct (Py.get (json_of (http env h registry)) "count" (JNum 0)) as [count| |];
    try discriminate.
  cbn [obind] in Hp. rewrite !bind_assoc, bind_lift_normal.
  destruct (Py.gt0 count) as [[]| |]; try discriminate.
  rewrite !bind_assoc, bind_lift_normal.
  destruct (Py.get (json_of (http env h registry)) "results" (JArr [])) as [rs| |];
    try discriminate.
  cbn [obind] in Hp. rewrite !bind_assoc, bind_lift_normal.
  destruct (Py.index0 rs) as [details| |]; try discriminate.
  cbn [obind] in Hp. rewrite bind_lift_normal.
  destruct (Py.get details "name" JNull) as [name| |]; try discriminate.
  rewrite bind_lift_normal, bind_requests. rewrite Hst.
  repeat first [rewrite bind_assoc | rewrite bind_log_error]. reflexivity.
Qed.

Lemma update_org_repository_access_fails h :
  (status_code (http env h
     (mkRequest PUT (TeamRepo org (get_gh_team_name (PyStr.upper code) "Viewers") repo)
        (Some (JObj [("permission", JStr "pull")])))) =? 204)%Z = false ->
  outcome_of (update_org_repository_access org repo code) env h = Exit 1.
Proof.
  intros Hst. unfold outcome_of, update_org_repository_access, roles.
  cbn [for_each]. rewrite bind_assoc, bind_requests.
  change (permission_of "Viewers") with "pull". rewrite Hst.
  repeat first [rewrite bind_assoc | rewrite bind_log_error]. reflexivity.
Qed.

Lemma remove_repo_admin_fails h :
  (status_code (http env h
     (mkRequest DELETE (RepoCollaborator org repo "SRVPSSAPRBITBUCKET01_pru") None))
   =? 204)%Z = false ->
  outcome_of (remove_repo_admin org repo) env h = Exit 1.
Proof.
  intros Hst. unfold outcome_of, remove_repo_admin. cbn [for_each].
  rewrite bind_assoc, bind_requests. rewrite Hst.
  repeat first [rewrite bind_assoc | rewrite bind_log_error]. reflexivity.
Qed.

(** The ledger step does not survive a failed read: after the log
    records, [content] is read though no branch assigned it. *)
Lemma update_migration_tracker_read_fails h :
  let read := mkRequest GET
                (RepoContents "pru-pss" "pss-eta-bb2gh_migration" "migration_tracker.txt")
                None in
  (status_code (http env h read) =? 200)%Z = false ->
  update_migration_tracker org repo key bb_repo env h
  = (Raise UnboundLocalError,
     [EvHttp read (http env h read);
      EvLog ERROR "Failed to get file {file_name}.";
      EvLog ERROR "{response.text}"]).
Proof.
  intros read Hst. unfold update_migration_tracker.
  rewrite bind_requests. fold read. rewrite Hst.
  repeat first [rewrite bind_assoc | rewrite bind_log_error | rewrite bind_ret].
  reflexivity.
Qed.

(** Nor does the environments step survive a failed team lookup:
    [team_id] is read though no branch assigned it. *)
Lemma update_or_create_enviroments_lookup_fails h :
  let lookup :=
    mkRequest GET (OrgTeam org (get_gh_team_name (PyStr.upper code) "Managers")) None in
  (status_code (http env h lookup) =? 200)%Z = false ->
  update_or_create_enviroments org repo code env h
  = (Raise UnboundLocalError,
     [EvHttp lookup (http env h lookup);
      EvLog ERROR "Failed to get team id for '{team_slug}'. Status code: {response.status_code}";
      EvLog ERROR "{response.text}"]).
Proof.
  intros lookup Hst. unfold update_or_create_enviroments.
  rewrite bind_requests. fold lookup. rewrite Hst.
  repeat first [rewrite bind_assoc | rewrite bind_log_error | rewrite bind_ret].
  reflexivity.
Qed.

End FailingSteps.

(** C3: the code breaks the claim at two of the seven best-effort
    steps.  With the read of the ledger answered by 404 and every other
    call successful, the post-migration tasks end in
    [UnboundLocalError] after that read: the ledger is not written and
    the legacy admin is not removed.  With the lookup of the managers
    team answered by 404, they end in [UnboundLocalError] after the
    lookup: no environment, webhook, ledger or admin call follows. *)
Theorem C3_best_effort_step_aborts :
  let run faults :=
    post_migration_tasks "PRJ" "my-repo" "abc" "pru-myorg" "Both_Jenkins"
      "myorg-abc-my-repo" (demo_env demo_store export_ok import_ok faults) [] in
  let calls := calls_of_step "pru-myorg" "myorg-abc-my-repo" "abc" "Both_Jenkins" in
  (fst (run ledger_read_fails) = Raise UnboundLocalError
   /\ calls_in (snd (run ledger_read_fails))
      = (flat_map calls
           [UpdateRepoMetadata; CreateStatusFile; SetCustomProperties; SetTopics;
            GrantTeamAccess; CreateCodeowners; CreateEnvironments; RegisterWebhooks]
         ++ [(GET, RepoContents "pru-pss" "pss-eta-bb2gh_migration"
                     "migration_tracker.txt")])%list)
  /\ (fst (run team_lookup_fails) = Raise UnboundLocalError
      /\ calls_in (snd (run team_lookup_fails))
         = (flat_map calls
              [UpdateRepoMetadata; CreateStatusFile; SetCustomProperties; SetTopics;
               GrantTeamAccess; CreateCodeowners]
            ++ [(GET, OrgTeam "pru-myorg" "Project-ABC-Managers")])%list).
Proof. repeat split; vm_compute; reflexivity. Qed.

(** The archive path is what follows the shared-home variable on the
    line of the success marker. *)
Example export_path_extracted :
  read_export_line None
    "Export completed ... BITBUCKET_SHARED_HOME/tmp/archive123.tar"
  = Some "/tmp/archive123.tar".
Proof. reflexivity. Qed.

(** ** An export without the success marker *)

Section ExportWithoutMarker.
Local Open Scope list_scope.

Lemma read_export_lines_without_marker lines :
  Forall (fun line => PyStr.contains "Export completed" line = false) lines ->
  fold_left read_export_line lines None = None.
Proof.
  induction 1 as [|line lines Hline _ IH]; [reflexivity|].
  cbn [fold_left]. unfold read_export_line at 2. rewrite Hline.
  destruct (negb (String.eqb line EmptyString)); exact IH.
Qed.

(** The export step returns without a path, and without ending the
    run, when its process ends with an empty error stream and no line
    of its output holds the marker. *)
Lemma run_export_archive_without_marker env key repo code org h :
  let process := popen env (h ++ [export_log]) (export_command key repo) in
  Forall (fun line => PyStr.contains "Export completed" line = false) (stdout process) ->
  stderr process = EmptyString ->
  run_export_archive key repo code org env h
  = (Normal None, [export_log; EvPopen (export_command key repo)]).
Proof.
  intros process Hout Herr. unfold run_export_archive.
  rewrite bind_log_info. unfold bind at 1, subprocess_Popen at 1.
  fold export_log. fold process. unfold try_except.
  rewrite Herr, (read_export_lines_without_marker _ Hout). reflexivity.
Qed.

(** The download step raises on a missing path before it runs any
    command. *)
Lemma scp_command_without_path env h :
  scp_command None env h = (Raise AttributeError, []).
Proof. reflexivity. Qed.

End ExportWithoutMarker.

(** C4: the code does not treat the missing marker as fatal in the
    export step.  For an export process that ends cleanly without the
    marker, [run_export_archive] returns [None] normally; the run goes
    on to the download step, which raises [AttributeError] on the
    missing path: the run ends with that exception, its last event
    being the start of the export process. *)
Theorem C4_export_without_marker :
  let env := demo_env demo_store export_without_marker import_ok no_faults in
  let run := run_migration "PRJ" "my-repo" "abc" "pru-myorg" "Both_Jenkins" "None" in
  outcome_of (run_export_archive "PRJ" "my-repo" "abc" "pru-myorg") env [] = Normal None
  /\ outcome_of (scp_command None) env [] = Raise AttributeError
  /\ outcome_of run env [] = Raise AttributeError
  /\ last (events_of run env []) (EvSleep 0) = EvPopen (export_command "PRJ" "my-repo").
Proof. repeat split; vm_compute; reflexivity. Qed.

(** * Further properties of the code *)

(** ** Names of teams and groups *)

Section TeamNames.
Import PyStr PyStrFacts.

Lemma upper_ascii_idem (c : ascii) : upper_ascii (upper_ascii c) = upper_ascii c.
Proof. destruct c as [[] [] [] [] [] [] [] []]; reflexivity. Qed.

Lemma upper_idem (s : string) : upper (upper s) = upper s.
Proof.
  induction s as [|c s IH]; simpl; [reflexivity|].
  now rewrite upper_ascii_idem, IH.
Qed.

(** No upper-cased character is the letter that follows the bracket of
    the role placeholder. *)
Lemma upper_ascii_not_r (c : ascii) : Ascii.eqb "r" (upper_ascii c) = false.
Proof. destruct c as [[] [] [] [] [] [] [] []]; reflexivity. Qed.

Lemma role_not_in_upper (u : string) :
  startswith "role>" (upper u ++ "-<role>") = false.
Proof.
  destruct u; cbn [upper append startswith]; [reflexivity|].
  now rewrite upper_ascii_not_r.
Qed.

Lemma startswith_cons (a b : ascii) (p s : string) :
  startswith (String a p) (String b s) = Ascii.eqb a b && startswith p s.
Proof. reflexivity. Qed.

(** The second replacement finds the role placeholder only behind the
    upper-cased project code. *)
Lemma replace_role_after_upper (u role : string) :
  replace_scan "<role>" role 0 (upper u ++ "-<role>") = upper u ++ "-" ++ role.
Proof.
  induction u as [|c u IH].
  - cbn. now rewrite append_empty_r.
  - cbn [upper append replace_scan].
    rewrite startswith_cons, role_not_in_upper, andb_false_r. now rewrite IH.
Qed.

End TeamNames.

(** X1: the name of a team is "Project-", the upper-cased project code,
    a hyphen and the role, for every project code and role: text in the
    code or in the role that looks like a placeholder is not replaced
    again.  The directory group is named in the same way behind
    "GITHUB-".  The case of the project code makes no difference. *)
Theorem team_name_format :
  (forall code role : string,
      get_gh_team_name code role = "Project-" ++ PyStr.upper code ++ "-" ++ role)
  /\ (forall code role : string,
        get_ad_group_name code role = "GITHUB-" ++ PyStr.upper code ++ "-" ++ role)
  /\ (forall code role : string,
        get_gh_team_name (PyStr.upper code) role = get_gh_team_name code role).
Proof.
  assert (H1 : forall code role : string,
             get_gh_team_name code role = "Project-" ++ PyStr.upper code ++ "-" ++ role).
  { intros code role. unfold get_gh_team_name, gh_team_format.
    change (PyStr.replace "<project_code>" (PyStr.upper code) "Project-<project_code>-<role>")
      with ("Project-" ++ (PyStr.upper code ++ "-<role>")).
    unfold PyStr.replace.
    cbn [append PyStr.replace_scan PyStr.startswith Ascii.eqb Bool.eqb andb].
    now rewrite replace_role_after_upper. }
  split; [exact H1|]. split.
  - intros code role. unfold get_ad_group_name, ad_groups_format.
    change (PyStr.replace "<project_code>" (PyStr.upper code) "GITHUB-<project_code>-<role>")
      with ("GITHUB-" ++ (PyStr.upper code ++ "-<role>")).
    unfold PyStr.replace.
    cbn [append PyStr.replace_scan PyStr.startswith Ascii.eqb Bool.eqb andb].
    now rewrite replace_role_after_upper.
  - intros code role. now rewrite !H1, upper_idem.
Qed.

(** ** Normalised names *)

Section NormalisedNames.
Import PyStr PyStrFacts.

Lemma normalize_repo_name_cons (c : ascii) (b : string) :
  normalize_repo_name (String c b)
  = String (lower_ascii (hyphenate_ascii c)) (normalize_repo_name b).
Proof. unfold normalize_repo_name. now rewrite replace_space_cons. Qed.

Lemma normalized_ascii_not_space (c : ascii) :
  Ascii.eqb " " (lower_ascii (hyphenate_ascii c)) = false.
Proof. destruct c as [[] [] [] [] [] [] [] []]; reflexivity. Qed.

Lemma hyphenate_ascii_not_space (c : ascii) : Ascii.eqb " " (hyphenate_ascii c) = false.
Proof. destruct c as [[] [] [] [] [] [] [] []]; reflexivity. Qed.

Lemma lower_ascii_space (c : ascii) : Ascii.eqb " " (lower_ascii c) = Ascii.eqb " " c.
Proof. destruct c as [[] [] [] [] [] [] [] []]; reflexivity. Qed.

Lemma contains_space_cons (c : ascii) (s : string) :
  contains " " (String c s) = Ascii.eqb " " c || contains " " s.
Proof. cbn [contains startswith]. now rewrite andb_true_r. Qed.

Lemma contains_space_append (a b : string) :
  contains " " (a ++ b) = contains " " a || contains " " b.
Proof.
  induction a as [|c a IH].
  - cbn [append]. destruct b; reflexivity.
  - cbn [append]. rewrite !contains_space_cons, IH. now rewrite orb_assoc.
Qed.

Lemma contains_space_lower (s : string) : contains " " (lower s) = contains " " s.
Proof.
  induction s as [|c s IH]; [reflexivity|].
  cbn [lower]. now rewrite !contains_space_cons, lower_ascii_space, IH.
Qed.

Lemma contains_space_hyphenated (s : string) : contains " " (replace " " "-" s) = false.
Proof.
  induction s as [|c s IH]; [reflexivity|].
  now rewrite replace_space_cons, contains_space_cons, hyphenate_ascii_not_space, IH.
Qed.

(** Deleting text puts no space where there was none. *)
Lemma contains_space_deleted (old s : string) :
  contains " " s = false ->
  forall k, contains " " (replace_scan old EmptyString k s) = false.
Proof.
  induction s as [|c s IH]; intros H k; [reflexivity|].
  rewrite contains_space_cons in H. apply orb_false_iff in H as [Hc Hs].
  destruct k as [|k]; cbn [replace_scan]; [|now apply IH].
  destruct (startswith old (String c s)); cbn [append]; [now apply IH|].
  now rewrite contains_space_cons, Hc, IH.
Qed.

End NormalisedNames.


(** The name derived from a normalised source name is the name derived
    from the source name as it is. *)
Lemma get_new_repo_name_normalized (org b code u : string) :
  get_new_repo_name org (normalize_repo_name b) code u = get_new_repo_name org b code u.
Proof.
  rewrite !get_new_repo_name_unfold.
  destruct (String.eqb u "None"); [|reflexivity].
  rewrite !PyStrFacts.lower_append. f_equal. unfold normalize_repo_name.
  now rewrite PyStrFacts.replace_space_normalized, PyStrFacts.lower_idem.
Qed.


(** X4: when neither the organisation nor the project code holds a
    space, the destination name holds none, whatever the source name
    and the override are. *)
Theorem destination_name_without_space (org b code u : string) :
  PyStr.contains " " org = false ->
  PyStr.contains " " code = false ->
  PyStr.contains " " (get_new_repo_name org b code u) = false.
Proof.
  intros Horg Hcode. rewrite get_new_repo_name_unfold.
  rewrite contains_space_lower, contains_space_append, contains_space_hyphenated.
  rewrite orb_false_r. unfold PyStr.replace. apply contains_space_deleted.
  rewrite !contains_space_append, Horg, Hcode. reflexivity.
Qed.

Lemma destination_name_without_space_witness :
  PyStr.contains " " (get_new_repo_name "pru-myorg" "My Repo" "abc" "Billing Service")
  = false.
Proof.
  apply (destination_name_without_space "pru-myorg" "My Repo" "abc" "Billing Service");
    reflexivity.
Defined.

(** ** The local name of the archive *)

Section LastSegment.
Import PyStr PyStrFacts.

Lemma contains_char_cons (sep c : ascii) (s : string) :
  contains (String sep EmptyString) (String c s)
  = Ascii.eqb sep c || contains (String sep EmptyString) s.
Proof. cbn [contains startswith]. now rewrite andb_true_r. Qed.

Lemma contains_char_append_r (sep : ascii) (a b : string) :
  contains (String sep EmptyString) b = true ->
  contains (String sep EmptyString) (a ++ b) = true.
Proof.
  intros H. induction a as [|c a IH]; [exact H|].
  cbn [append]. rewrite contains_char_cons, IH. apply orb_true_r.
Qed.

Lemma last_segment_absent (sep : ascii) (s : string) :
  contains (String sep EmptyString) s = false -> last_segment sep s = s.
Proof.
  destruct s as [|c s]; [reflexivity|].
  rewrite contains_char_cons. intros H. apply orb_false_iff in H as [Hc Hs].
  cbn [last_segment]. rewrite Ascii.eqb_sym, Hc, Hs. reflexivity.
Qed.

(** The last segment holds no separator. *)
Lemma last_segment_no_separator (sep : ascii) (s : string) :
  contains (String sep EmptyString) (last_segment sep s) = false.
Proof.
  induction s as [|c s IH]; [reflexivity|].
  cbn [last_segment].
  destruct (Ascii.eqb c sep) eqn:Ec; [exact IH|].
  destruct (contains (String sep EmptyString) s) eqn:Es; [exact IH|].
  now rewrite contains_char_cons, Ascii.eqb_sym, Ec, Es.
Qed.

(** What stands behind the last separator is the last segment. *)
Lemma last_segment_join (sep : ascii) (d f : string) :
  contains (String sep EmptyString) f = false ->
  last_segment sep (d ++ String sep f) = f.
Proof.
  intros Hf. induction d as [|c d IH]; cbn [append last_segment].
  - rewrite Ascii.eqb_refl. now apply last_segment_absent.
  - destruct (Ascii.eqb c sep); [exact IH|].
    rewrite contains_char_append_r; [exact IH|].
    rewrite contains_char_cons, Ascii.eqb_refl. reflexivity.
Qed.

End LastSegment.

(** X5: the local name of the archive, under which it is staged,
    copied and imported, is the file name of the exported path: it
    holds no slash, and for a path made of a directory, a slash and a
    file name without slash it is that file name. *)
Theorem local_archive_name_is_file_name :
  (forall (path : string) env h,
      exists name, local_archive_name (Some path) env h = (Normal name, [])
                   /\ PyStr.contains "/" name = false)
  /\ (forall (dir file : string) env h,
        PyStr.contains "/" file = false ->
        local_archive_name (Some (dir ++ "/" ++ file)) env h = (Normal file, [])).
Proof.
  split.
  - intros path env h. exists (PyStr.last_segment "/" path).
    split; [reflexivity | apply last_segment_no_separator].
  - intros dir file env h Hf. unfold local_archive_name, ret.
    cbn [append]. now rewrite last_segment_join.
Qed.

Lemma local_archive_name_is_file_name_witness :
  local_archive_name (Some ("/data/migration/export" ++ "/" ++ "Bitbucket_export_7.tar"))
    (demo_env demo_store export_ok import_ok no_faults) []
  = (Normal "Bitbucket_export_7.tar", []).
Proof.
  apply (proj2 local_archive_name_is_file_name
           "/data/migration/export" "Bitbucket_export_7.tar").
  reflexivity.
Defined.

(** ** The archive path in the output of the export *)

Section ArchivePath.
Import PyStr PyStrFacts.

Lemma startswith_drop (p s : string) :
  startswith p s = true -> s = p ++ drop (String.length p) s.
Proof.
  revert s. induction p as [|a p IH]; intros [|b s] H; cbn in *;
    try reflexivity; try discriminate.
  apply andb_true_iff in H as [Hab H]. apply Ascii.eqb_eq in Hab. subst b.
  f_equal. now apply IH.
Qed.

(** A string is its prefix without white space and a rest that is
    empty or begins with white space. *)
Lemma take_nonspace_rest (s : string) :
  exists rest, s = take_nonspace s ++ rest
    /\ (rest = EmptyString \/ exists c r, rest = String c r /\ is_space c = true).
Proof.
  induction s as [|c s (rest & E & Hrest)]; cbn [take_nonspace].
  - exists EmptyString. split; [reflexivity | now left].
  - destruct (is_space c) eqn:Ec.
    + exists (String c s). split; [reflexivity|]. right. now exists c, s.
    + exists rest. cbn [append]. split; [now rewrite <- E | exact Hrest].
Qed.

Lemma take_nonspace_chars (s : string) (c : ascii) :
  In c (list_ascii_of_string (take_nonspace s)) -> is_space c = false.
Proof.
  induction s as [|x s IH]; cbn [take_nonspace]; [intros []|].
  destruct (is_space x) eqn:Ex; [intros []|].
  cbn [list_ascii_of_string]. intros [<-|H]; [exact Ex | now apply IH].
Qed.

Lemma read_export_lines_keep (lines : list string) (path : option string) :
  Forall without_archive_path lines ->
  fold_left read_export_line lines path = path.
Proof.
  induction 1 as [|line lines Hline _ IH]; [reflexivity|].
  cbn [fold_left]. rewrite <- IH at 2. f_equal.
  unfold read_export_line.
  destruct (negb (String.eqb line EmptyString)); [|reflexivity].
  destruct Hline as [-> | ->]; [reflexivity|].
  now destruct (contains "Export completed" line).
Qed.

Lemma read_export_line_path (line p : string) (path : option string) :
  contains "Export completed" line = true ->
  search_shared_home line = Some p ->
  read_export_line path line = Some p.
Proof.
  intros Hm Hp. unfold read_export_line. rewrite Hm, Hp.
  destruct line; [discriminate | reflexivity].
Qed.

(** The export step with an empty error stream returns what the
    reading loop has found. *)
Lemma run_export_archive_path env key repo code org h p :
  let process := popen env (h ++ [export_log])%list (export_command key repo) in
  stderr process = EmptyString ->
  fold_left read_export_line (stdout process) None = Some p ->
  run_export_archive key repo code org env h
  = (Normal (Some p), [export_log; EvPopen (export_command key repo)]).
Proof.
  intros process Herr Hout. unfold run_export_archive.
  rewrite bind_log_info. unfold bind at 1, subprocess_Popen at 1.
  fold export_log. fold process. unfold try_except.
  rewrite Herr, Hout. reflexivity.
Qed.

(** So does the import step end normally. *)
Lemma run_import_archive_quiet env key repo code org h path new_repo :
  let command := import_command (last_segment "/" path) org new_repo key repo in
  stderr (popen env (h ++ [import_log])%list command) = EmptyString ->
  run_import_archive key repo code org (Some path) new_repo env h
  = (Normal tt, [import_log; EvPopen command]).
Proof.
  intros command Herr. unfold run_import_archive, local_archive_name.
  rewrite bind_ret, bind_log_info. unfold bind at 1, subprocess_Popen at 1.
  fold import_log. fold command. unfold try_except.
  rewrite Herr. reflexivity.
Qed.

End ArchivePath.

(** X6: what the export step takes as the archive path is never empty
    and holds no white space: in the line it stands right behind the
    name of the shared-home variable, and the line ends behind it or
    goes on with white space.  A line in which the name of the variable
    does not occur gives no path. *)
Theorem search_shared_home_sound :
  (forall output g : string,
      search_shared_home output = Some g ->
      g <> EmptyString
      /\ (forall c, In c (list_ascii_of_string g) -> is_space c = false)
      /\ exists pre rest,
           output = pre ++ shared_home ++ g ++ rest
           /\ (rest = EmptyString \/ exists c r, rest = String c r /\ is_space c = true))
  /\ (forall output : string,
        PyStr.contains shared_home output = false -> search_shared_home output = None).
Proof.
  split.
  - intros output g. induction output as [|c output IH]; [discriminate|].
    cbn [search_shared_home].
    destruct (PyStr.startswith shared_home (String c output)) eqn:Es.
    + destruct (take_nonspace (drop (String.length shared_home) (String c output)))
        as [|x t] eqn:Et.
      * intros H. destruct (IH H) as (Hg & Hc & pre & rest & -> & Hrest).
        split; [exact Hg|]. split; [exact Hc|].
        exists (String c pre), rest. split; [reflexivity | exact Hrest].
      * intros [= <-]. split; [discriminate|]. split.
        { intros a Ha. rewrite <- Et in Ha. now apply take_nonspace_chars in Ha. }
        destruct (take_nonspace_rest (drop (String.length shared_home) (String c output)))
          as (rest & E & Hrest).
        exists EmptyString, rest. split; [|exact Hrest].
        rewrite <- Et, <- E. cbn [append]. now apply startswith_drop.
    + intros H. destruct (IH H) as (Hg & Hc & pre & rest & -> & Hrest).
      split; [exact Hg|]. split; [exact Hc|].
      exists (String c pre), rest. split; [reflexivity | exact Hrest].
  - intros output. induction output as [|c output IH]; [reflexivity|].
    cbn [PyStr.contains search_shared_home]. intros H.
    apply orb_false_iff in H as [-> H]. now apply IH.
Qed.

Lemma search_shared_home_sound_witness :
  (exists pre rest,
      "Export completed at $BITBUCKET_SHARED_HOME/data/export_7.tar (done)"
      = pre ++ shared_home ++ "/data/export_7.tar" ++ rest
      /\ (rest = EmptyString \/ exists c r, rest = String c r /\ is_space c = true))
  /\ search_shared_home "Export completed, see the log" = None.
Proof.
  split.
  - exact (proj2 (proj2 (proj1 search_shared_home_sound
             "Export completed at $BITBUCKET_SHARED_HOME/data/export_7.tar (done)"
             "/data/export_7.tar" eq_refl))).
  - exact (proj2 search_shared_home_sound "Export completed, see the log" eq_refl).
Defined.

(** X7: when the export process leaves its error stream empty, the
    export step returns the path of the last line of the output that
    holds the success marker and a path; lines after it that lack the
    marker or a path change nothing, and neither does the exit code of
    the process.  The step starts one process and nothing else. *)
Theorem run_export_archive_returns_path env key repo code org h before line after p :
  let process := popen env (h ++ [export_log])%list (export_command key repo) in
  stderr process = EmptyString ->
  stdout process = (before ++ line :: after)%list ->
  PyStr.contains "Export completed" line = true ->
  search_shared_home line = Some p ->
  Forall without_archive_path after ->
  run_export_archive key repo code org env h
  = (Normal (Some p), [export_log; EvPopen (export_command key repo)]).
Proof.
  intros process Herr Hout Hm Hp Hafter.
  apply run_export_archive_path; [exact Herr|]. fold process.
  rewrite Hout, fold_left_app. cbn [fold_left].
  now rewrite (read_export_line_path _ _ _ Hm Hp), (read_export_lines_keep _ _ Hafter).
Qed.

Lemma run_export_archive_returns_path_witness :
  run_export_archive "PRJ" "my-repo" "abc" "pru-myorg"
    (demo_env demo_store export_ok import_ok no_faults) []
  = (Normal (Some "/data/migration/export/Bitbucket_export_7.tar"),
     [export_log; EvPopen (export_command "PRJ" "my-repo")]).
Proof.
  apply (run_export_archive_returns_path
           (demo_env demo_store export_ok import_ok no_faults)
           "PRJ" "my-repo" "abc" "pru-myorg" []
           ["[INFO] Export started"]
           "[INFO] Export completed. Your migration archive should be available on your instance of Bitbucket Server at the path $BITBUCKET_SHARED_HOME/data/migration/export/Bitbucket_export_7.tar"
           []);
    try reflexivity.
  constructor.
Defined.

(** X8: the import step looks at the error stream of its process and at
    nothing else: it ends normally when the stream is empty and leaves
    through [sys.exit()] otherwise, after one process, whose archive
    argument is the local name of the exported path. *)
Theorem run_import_archive_by_error_stream env key repo code org h path new_repo :
  let command := import_command (PyStr.last_segment "/" path) org new_repo key repo in
  let process := popen env (h ++ [import_log])%list command in
  run_import_archive key repo code org (Some path) new_repo env h
  = if String.eqb (stderr process) EmptyString
    then (Normal tt, [import_log; EvPopen command])
    else (Exit 0, [import_log; EvPopen command; import_failed]).
Proof.
  intros command process.
  destruct (String.eqb (stderr process) EmptyString) eqn:E.
  - apply String.eqb_eq in E. now apply run_import_archive_quiet.
  - apply String.eqb_neq in E. now apply run_import_archive_stderr.
Qed.

(** ** More on running computations, and loops *)

Section RunningMore.
Local Open Scope list_scope.

Lemma bind_os_getenv {B} name (f : option string -> M B) env h :
  bind (os_getenv name) f env h = f (getenv env name) env h.
Proof. unfold bind, os_getenv. cbv beta iota. now rewrite app_nil_r, prepend_nil. Qed.

(** Two continuations that run alike give binds that run alike. *)
Lemma bind_ext {A B} (m : M A) (f g : A -> M B) env h :
  (forall a h', f a env h' = g a env h') -> bind m f env h = bind m g env h.
Proof. intros H. unfold bind. destruct (m env h) as [[a|c|e] es]; now rewrite ?H. Qed.

Lemma bind_ret_tt (m : M unit) env h : bind m (fun _ => ret tt) env h = m env h.
Proof.
  unfold bind, ret, prepend. destruct (m env h) as [[[]|c|e] es]; cbn [fst snd];
    now rewrite ?app_nil_r.
Qed.

Lemma for_each_app {A} (f : A -> M unit) (l1 l2 : list A) env h :
  for_each (l1 ++ l2) f env h = bind (for_each l1 f) (fun _ => for_each l2 f) env h.
Proof.
  revert h. induction l1 as [|x l1 IH]; intros h; cbn [app for_each].
  - now rewrite bind_ret.
  - rewrite bind_assoc. apply bind_ext. intros _ h'. apply IH.
Qed.

End RunningMore.

Section Loops.
Local Open Scope list_scope.
Context {A T : Type}.

(** What is observed of the events: the calls, the requests or the
    shell commands among them. *)
Variable observe : list Event -> list T.
Hypothesis observe_nil : observe [] = [].
Hypothesis observe_app : forall es es', observe (es ++ es') = observe es ++ observe es'.

Variable f : A -> M unit.
Variable c : A -> list T.
Variable env : Env.

(** A loop all of whose turns end normally ends normally, and what is
    observed of it is what is observed of its turns, in order. *)
Lemma for_each_all (l : list A) :
  (forall x h, In x l ->
     outcome_of (f x) env h = Normal tt /\ observe (events_of (f x) env h) = c x) ->
  forall h,
    outcome_of (for_each l f) env h = Normal tt
    /\ observe (events_of (for_each l f) env h) = flat_map c l.
Proof.
  unfold outcome_of, events_of.
  induction l as [|x l IH]; intros Hl h; cbn [for_each flat_map].
  - now split.
  - destruct (Hl x h (or_introl eq_refl)) as [Ho Hc]. unfold bind.
    destruct (f x env h) as [o es]. cbn [fst snd] in Ho, Hc. subst o.
    rewrite fst_prepend, snd_prepend, observe_app, Hc.
    destruct (IH (fun y h' Hy => Hl y h' (or_intror Hy)) (h ++ es)) as [H1 H2].
    split; [exact H1 | now rewrite H2].
Qed.

(** A loop stops at the first turn that does not end normally: it
    ends as that turn ends, and what is observed of it is what is
    observed of the turns up to that one. *)
Lemma for_each_stops (before : list A) (x : A) (after : list A) (o : Outcome unit) :
  is_normal o = false ->
  (forall y h, In y before ->
     outcome_of (f y) env h = Normal tt /\ observe (events_of (f y) env h) = c y) ->
  (forall h, outcome_of (f x) env h = o /\ observe (events_of (f x) env h) = c x) ->
  forall h,
    outcome_of (for_each (before ++ x :: after) f) env h = o
    /\ observe (events_of (for_each (before ++ x :: after) f) env h)
       = flat_map c before ++ c x.
Proof.
  intros Ho Hbefore Hx. unfold outcome_of, events_of in *.
  induction before as [|y before IH]; intros h; cbn [app for_each flat_map].
  - destruct (Hx h) as [H1 H2]. unfold bind.
    destruct (f x env h) as [[[]|code|e] es]; cbn [fst snd] in *;
      subst o; try discriminate; now split.
  - destruct (Hbefore y h (or_introl eq_refl)) as [Hy Hc]. unfold bind.
    destruct (f y env h) as [oy es]. cbn [fst snd] in Hy, Hc. subst oy.
    rewrite fst_prepend, snd_prepend, observe_app, Hc.
    destruct (IH (fun z h' Hz => Hbefore z h' (or_intror Hz)) (h ++ es)) as [H1 H2].
    split; [exact H1|]. now rewrite H2, app_assoc.
Qed.

End Loops.

Section Observed.
Local Open Scope list_scope.

Lemma runs_in_app es es' : runs_in (es ++ es') = runs_in es ++ runs_in es'.
Proof.
  induction es as [|e es IH]; [reflexivity|].
  destruct e; simpl; now rewrite IH.
Qed.

Lemma flat_map_singleton {A B} (f : A -> B) (l : list A) :
  flat_map (fun x => [f x]) l = map f l.
Proof. induction l as [|x l IH]; [reflexivity|]. cbn. now rewrite IH. Qed.

End Observed.

(** ** Prerequisites *)

(** X9: the prerequisite check ends normally, without any effect, when
    each of the six variables is set (an empty value counts as set);
    otherwise it raises [ValueError] after one log record, and reads no
    variable behind the first one missing. *)
Theorem set_migration_prequisite_checks_six env h :
  set_migration_prequisite env h
  = if forallb (fun name => match getenv env name with Some _ => true | None => false end)
         ["BBS_USERNAME"; "BBS_PASSWORD"; "GH_PAT"; "AZURE_STORAGE_CONNECTION_STRING";
          "BB_SERVER"; "BB_SSH_USERNAME"]
    then (Normal tt, [])
    else (Raise ValueError, [EvLog ERROR "Environment variable '{var_name}' is not set."]).
Proof.
  unfold set_migration_prequisite, required_env_vars. cbn [for_each forallb].
  repeat (rewrite bind_assoc, bind_os_getenv;
          match goal with
          | |- context [getenv env ?n] => destruct (getenv env n)
          end;
          [rewrite bind_ret; cbn [andb]
          |rewrite bind_assoc, bind_log_error; reflexivity]).
  reflexivity.
Qed.

(** ** Validation *)

Section Validation.
Local Open Scope list_scope.

Variable env : Env.
Variables code org : string.

Lemma validate_known h count :
  let registry := mkRequest GET (ProjectRegistry code) None in
  let resp := http env h registry in
  (status_code resp =? 200)%Z = true ->
  Py.getitem (json_of resp) "count" = Normal count ->
  Py.gt0 count = Normal true ->
  validate code org env h
  = prepend [EvHttp registry resp; EvLog INFO "Project code {project_code} is valid."]
      (for_each roles (check_team code org) env
         (h ++ [EvHttp registry resp; EvLog INFO "Project code {project_code} is valid."])).
Proof.
  intros registry resp Hst Hcount Hpos. unfold validate.
  rewrite bind_requests. fold registry. fold resp. rewrite Hst, Hcount.
  rewrite bind_assoc, bind_lift_normal, Hpos, bind_lift_normal.
  rewrite bind_log_info, prepend_prepend, <- app_assoc. reflexivity.
Qed.

Lemma validate_unknown h :
  let registry := mkRequest GET (ProjectRegistry code) None in
  let resp := http env h registry in
  (status_code resp =? 200)%Z = false
  \/ (exists n, Py.getitem (json_of resp) "count" = Normal (JNum n) /\ (n <= 0)%Z) ->
  validate code org env h
  = (Exit 0,
     [EvHttp registry resp;
      EvLog ERROR "Project code {project_code} is invalid. Please onboard to https://core.pru.intranet.asia/org/projects/"]).
Proof.
  intros registry resp H. unfold validate.
  rewrite bind_requests. fold registry. fold resp.
  assert (Hk : forall K : bool -> M unit,
             bind (if (status_code resp =? 200)%Z
                   then bind (lift (Py.getitem (json_of resp) "count"))
                          (fun count => lift (Py.gt0 count))
                   else ret false) K env (h ++ [EvHttp registry resp])
             = K false env (h ++ [EvHttp registry resp])).
  { intros K. destruct (status_code resp =? 200)%Z.
    - destruct H as [H|(n & Hn & Hle)]; [discriminate|].
      rewrite Hn, bind_assoc, bind_lift_normal. cbn [Py.gt0].
      assert ((0 <? n)%Z = false) as -> by lia. now rewrite bind_lift_normal.
    - now rewrite bind_ret. }
  rewrite Hk. rewrite bind_assoc, bind_log_error. reflexivity.
Qed.

Lemma check_team_found h role :
  (status_code (http env h (mkRequest GET (OrgTeam org (get_gh_team_name code role)) None))
   =? 200)%Z = true ->
  outcome_of (check_team code org role) env h = Normal tt
  /\ calls_in (events_of (check_team code org role) env h)
     = [(GET, OrgTeam org (get_gh_team_name code role))].
Proof.
  intros Hst. unfold outcome_of, events_of, check_team, valid_team_slug.
  rewrite bind_assoc, bind_requests, bind_ret, Hst. cbn [negb]. now split.
Qed.

Lemma check_team_missing h role :
  (status_code (http env h (mkRequest GET (OrgTeam org (get_gh_team_name code role)) None))
   =? 200)%Z = false ->
  outcome_of (check_team code org role) env h = Exit 1
  /\ calls_in (events_of (check_team code org role) env h)
     = [(GET, OrgTeam org (get_gh_team_name code role))].
Proof.
  intros Hst. unfold outcome_of, events_of, check_team, valid_team_slug.
  rewrite bind_assoc, bind_requests, bind_ret, Hst. cbn [negb].
  rewrite !bind_log_error. now split.
Qed.

(** With a known project and the three teams in place, [validate] runs
    to its end after the registry request and the three lookups. *)
Lemma validate_found h count :
  let registry := mkRequest GET (ProjectRegistry code) None in
  (status_code (http env h registry) =? 200)%Z = true ->
  Py.getitem (json_of (http env h registry)) "count" = Normal count ->
  Py.gt0 count = Normal true ->
  (forall r h', In r roles ->
     (status_code (http env h'
        (mkRequest GET (OrgTeam org (get_gh_team_name code r)) None)) =? 200)%Z
     = true) ->
  completes (validate code org) env h (fun _ => True)
    ((GET, ProjectRegistry code)
     :: map (fun r => (GET, OrgTeam org (get_gh_team_name code r))) roles).
Proof.
  cbv beta zeta. intros Hst Hcount Hpos Hteams.
  unfold completes. rewrite (validate_known h count Hst Hcount Hpos).
  destruct (for_each_all calls_in eq_refl calls_in_app (check_team code org)
              (fun r => [(GET, OrgTeam org (get_gh_team_name code r))]) env roles
              (fun r h' Hr => check_team_found h' r (Hteams r h' Hr))
              (h ++ [EvHttp (mkRequest GET (ProjectRegistry code) None)
                       (http env h (mkRequest GET (ProjectRegistry code) None));
                     EvLog INFO "Project code {project_code} is valid."]))
    as [Hrun Hcalls].
  unfold outcome_of, events_of in Hrun, Hcalls.
  destruct (for_each roles (check_team code org) env _) as [o es].
  cbn [fst snd] in Hrun, Hcalls. subst o.
  eexists tt, _. split; [reflexivity|]. split; [exact I|].
  cbn [snd]. rewrite calls_in_app, Hcalls, flat_map_singleton. reflexivity.
Qed.

End Validation.

(** X10: [validate] leaves through [sys.exit()], that is with exit code
    0, when the registry does not answer 200 or counts no project for
    the code; it has then sent the one request to the registry and
    looked up no team. *)
Theorem validate_unknown_project env h code org :
  let registry := mkRequest GET (ProjectRegistry code) None in
  let resp := http env h registry in
  (status_code resp =? 200)%Z = false
  \/ (exists n, Py.getitem (json_of resp) "count" = Normal (JNum n) /\ (n <= 0)%Z) ->
  outcome_of (validate code org) env h = Exit 0
  /\ requests_in (events_of (validate code org) env h) = [registry].
Proof.
  intros registry resp H. unfold outcome_of, events_of.
  rewrite (validate_unknown env code org h H). now split.
Qed.

Lemma validate_unknown_project_witness :
  let env := demo_env demo_store export_ok import_ok project_unknown in
  outcome_of (validate "abc" "pru-myorg") env [] = Exit 0
  /\ requests_in (events_of (validate "abc" "pru-myorg") env [])
     = [mkRequest GET (ProjectRegistry "abc") None].
Proof.
  apply (validate_unknown_project
           (demo_env demo_store export_ok import_ok project_unknown) [] "abc" "pru-myorg").
  right. exists 0%Z. split; [reflexivity | lia].
Defined.

(** X11: with a project that the registry knows, [validate] looks up
    the teams of the three roles in the order Viewers, Contributors,
    Managers and leaves through [sys.exit(1)] at the first one that is
    not answered by 200: the teams after it are not looked up. *)
Theorem validate_missing_team env h code org count before role after :
  let registry := mkRequest GET (ProjectRegistry code) None in
  let lookup r := mkRequest GET (OrgTeam org (get_gh_team_name code r)) None in
  roles = (before ++ role :: after)%list ->
  (status_code (http env h registry) =? 200)%Z = true ->
  Py.getitem (json_of (http env h registry)) "count" = Normal count ->
  Py.gt0 count = Normal true ->
  (forall r h', In r before -> (status_code (http env h' (lookup r)) =? 200)%Z = true) ->
  (forall h', (status_code (http env h' (lookup role)) =? 200)%Z = false) ->
  outcome_of (validate code org) env h = Exit 1
  /\ calls_in (events_of (validate code org) env h)
     = (GET, ProjectRegistry code)
       :: map (fun r => (GET, OrgTeam org (get_gh_team_name code r))) (before ++ [role])%list.
Proof.
  cbv beta zeta. intros Hroles Hst Hcount Hpos Hbefore Hrole.
  unfold outcome_of, events_of.
  rewrite (validate_known env code org h count Hst Hcount Hpos), Hroles.
  rewrite fst_prepend, snd_prepend.
  destruct (for_each_stops calls_in calls_in_app (check_team code org)
              (fun r => [(GET, OrgTeam org (get_gh_team_name code r))])
              env before role after (Exit 1) eq_refl
              (fun r h' Hr => check_team_found env code org h' r (Hbefore r h' Hr))
              (fun h' => check_team_missing env code org h' role (Hrole h'))
              (h ++ [EvHttp (mkRequest GET (ProjectRegistry code) None)
                       (http env h (mkRequest GET (ProjectRegistry code) None));
                     EvLog INFO "Project code {project_code} is valid."])%list)
    as [H1 H2].
  unfold outcome_of, events_of in H1, H2. split; [exact H1|].
  rewrite calls_in_app, H2, flat_map_singleton, map_app. reflexivity.
Qed.

Lemma validate_missing_team_witness :
  let env := demo_env demo_store export_ok import_ok contributors_missing in
  outcome_of (validate "abc" "pru-myorg") env [] = Exit 1
  /\ calls_in (events_of (validate "abc" "pru-myorg") env [])
     = [(GET, ProjectRegistry "abc");
        (GET, OrgTeam "pru-myorg" "Project-ABC-Viewers");
        (GET, OrgTeam "pru-myorg" "Project-ABC-Contributors")].
Proof.
  apply (validate_missing_team
           (demo_env demo_store export_ok import_ok contributors_missing) []
           "abc" "pru-myorg" (JNum 1) ["Viewers"] "Contributors" ["Managers"]);
    try reflexivity.
  intros r h' [<-|[]]. reflexivity.
Defined.

(** X12: [validate] sends nothing but reads; and when the registry
    counts a project for the code and the three teams are there, it
    ends normally after the registry request and the three lookups, in
    the order Viewers, Contributors, Managers. *)
Theorem validate_reads_only :
  (forall env h code org e,
      In e (events_of (validate code org) env h) -> read_or_log e)
  /\ (forall env h code org count,
        let registry := mkRequest GET (ProjectRegistry code) None in
        (status_code (http env h registry) =? 200)%Z = true ->
        Py.getitem (json_of (http env h registry)) "count" = Normal count ->
        Py.gt0 count = Normal true ->
        (forall r h', In r roles ->
           (status_code (http env h'
              (mkRequest GET (OrgTeam org (get_gh_team_name code r)) None)) =? 200)%Z
           = true) ->
        completes (validate code org) env h (fun _ => True)
          ((GET, ProjectRegistry code)
           :: map (fun r => (GET, OrgTeam org (get_gh_team_name code r))) roles)).
Proof.
  split.
  - intros env h code org e He.
    pose proof (validate_reads_or_logs code org env h) as Hall.
    rewrite Forall_forall in Hall. now apply Hall.
  - intros env h code org count. apply validate_found.
Qed.

Lemma validate_reads_only_witness :
  completes (validate "abc" "pru-myorg")
    (demo_env demo_store export_ok import_ok no_faults) [] (fun _ => True)
    [(GET, ProjectRegistry "abc");
     (GET, OrgTeam "pru-myorg" "Project-ABC-Viewers");
     (GET, OrgTeam "pru-myorg" "Project-ABC-Contributors");
     (GET, OrgTeam "pru-myorg" "Project-ABC-Managers")].
Proof.
  apply (proj2 validate_reads_only
           (demo_env demo_store export_ok import_ok no_faults) [] "abc" "pru-myorg"
           (JNum 1));
    reflexivity.
Defined.

(** ** Download of the archive *)

Section Download.
Local Open Scope list_scope.

Variable env : Env.

Lemma run_command_ok h command :
  shell env h command = 0%Z ->
  run_command command env h
  = (Normal tt, [EvRun command; EvLog INFO "Command '{command}' executed successfully."]).
Proof.
  intros H. unfold run_command, bind, subprocess_run. cbv beta iota. now rewrite H.
Qed.

Lemma run_command_failed h command :
  shell env h command <> 0%Z ->
  run_command command env h
  = (Raise CalledProcessError,
     [EvRun command; EvLog ERROR "Command '{command}' failed with error code {e.returncode}."]).
Proof.
  intros H. unfold run_command, bind, subprocess_run. cbv beta iota.
  apply Z.eqb_neq in H. now rewrite H.
Qed.

(** [scp_command] runs its three commands one after the other. *)
Lemma scp_command_commands h path :
  scp_command (Some path) env h
  = for_each (scp_commands (getenv env "BB_SSH_USERNAME") (getenv env "BB_SERVER") path)
      run_command env h.
Proof.
  unfold scp_command, local_archive_name, scp_commands.
  rewrite bind_ret, !bind_os_getenv. cbn [for_each Py.str_opt].
  apply bind_ext. intros _ h1. apply bind_ext. intros _ h2.
  now rewrite bind_ret_tt.
Qed.

Lemma run_command_zero h command :
  shell env h command = 0%Z ->
  outcome_of (run_command command) env h = Normal tt
  /\ runs_in (events_of (run_command command) env h) = [command].
Proof. intros H. unfold outcome_of, events_of. now rewrite run_command_ok. Qed.

Lemma run_command_nonzero h command :
  shell env h command <> 0%Z ->
  outcome_of (run_command command) env h = Raise CalledProcessError
  /\ runs_in (events_of (run_command command) env h) = [command].
Proof. intros H. unfold outcome_of, events_of. now rewrite run_command_failed. Qed.

End Download.

(** X13: for an exported path, the download step runs three shell
    commands in this order: stage the archive under /mnt/bbmigration
    with its local name, copy it, remove the staged file.  When all
    three end with code 0 the step ends normally.  At the first command
    that ends with another code the step raises [CalledProcessError]
    and runs no further command: a failed copy leaves the staged file
    in place. *)
Theorem scp_command_stops_at_failure env h path :
  let commands :=
    scp_commands (getenv env "BB_SSH_USERNAME") (getenv env "BB_SERVER") path in
  ((forall c h', In c commands -> shell env h' c = 0%Z) ->
   outcome_of (scp_command (Some path)) env h = Normal tt
   /\ runs_in (events_of (scp_command (Some path)) env h) = commands)
  /\ (forall before c after,
        commands = (before ++ c :: after)%list ->
        (forall c' h', In c' before -> shell env h' c' = 0%Z) ->
        (forall h', shell env h' c <> 0%Z) ->
        outcome_of (scp_command (Some path)) env h = Raise CalledProcessError
        /\ runs_in (events_of (scp_command (Some path)) env h) = (before ++ [c])%list).
Proof.
  intros commands. unfold outcome_of, events_of. rewrite scp_command_commands.
  fold commands. split.
  - intros Hok.
    destruct (for_each_all runs_in eq_refl runs_in_app run_command (fun c => [c]) env
                commands (fun c h' Hc => run_command_zero env h' c (Hok c h' Hc)) h)
      as [H1 H2].
    unfold outcome_of, events_of in H1, H2.
    split; [exact H1|]. rewrite H2, flat_map_singleton. apply map_id.
  - intros before c after -> Hok Hc.
    destruct (for_each_stops runs_in runs_in_app run_command (fun c => [c]) env
                before c after (Raise CalledProcessError) eq_refl
                (fun c' h' Hc' => run_command_zero env h' c' (Hok c' h' Hc'))
                (fun h' => run_command_nonzero env h' c (Hc h')) h)
      as [H1 H2].
    unfold outcome_of, events_of in H1, H2.
    split; [exact H1|]. rewrite H2, flat_map_singleton. now rewrite map_id.
Qed.

Lemma scp_command_stops_at_failure_witness :
  let path := "/data/migration/export/Bitbucket_export_7.tar" in
  let stage :=
    "ssh -o StrictHostKeyChecking=no -i ~/.ssh/id_rsa set@set "
    ++ dquote ++ "dzdo cat /apps/bitbucket/bitbucket/shared/data/migration/export/Bitbucket_export_7.tar > /mnt/bbmigration/Bitbucket_export_7.tar" ++ dquote in
  let copy :=
    "scp -o StrictHostKeyChecking=no -i ~/.ssh/id_rsa set@set:/mnt/bbmigration/Bitbucket_export_7.tar ." in
  let clean :=
    "ssh -o StrictHostKeyChecking=no -i ~/.ssh/id_rsa set@set "
    ++ dquote ++ "rm /mnt/bbmigration/Bitbucket_export_7.tar" ++ dquote in
  (outcome_of (scp_command (Some path))
     (demo_env demo_store export_ok import_ok no_faults) [] = Normal tt
   /\ runs_in (events_of (scp_command (Some path))
                 (demo_env demo_store export_ok import_ok no_faults) [])
      = [stage; copy; clean])
  /\ (outcome_of (scp_command (Some path)) copy_fails_env [] = Raise CalledProcessError
      /\ runs_in (events_of (scp_command (Some path)) copy_fails_env []) = [stage; copy]).
Proof.
  split.
  - apply (proj1 (scp_command_stops_at_failure
                    (demo_env demo_store export_ok import_ok no_faults) []
                    "/data/migration/export/Bitbucket_export_7.tar")).
    reflexivity.
  - apply (proj2 (scp_command_stops_at_failure copy_fails_env []
                    "/data/migration/export/Bitbucket_export_7.tar")
             [("ssh -o StrictHostKeyChecking=no -i ~/.ssh/id_rsa set@set "
               ++ dquote ++ "dzdo cat /apps/bitbucket/bitbucket/shared/data/migration/export/Bitbucket_export_7.tar > /mnt/bbmigration/Bitbucket_export_7.tar" ++ dquote)%string]
             "scp -o StrictHostKeyChecking=no -i ~/.ssh/id_rsa set@set:/mnt/bbmigration/Bitbucket_export_7.tar ."
             [("ssh -o StrictHostKeyChecking=no -i ~/.ssh/id_rsa set@set "
               ++ dquote ++ "rm /mnt/bbmigration/Bitbucket_export_7.tar" ++ dquote)%string]).
    + reflexivity.
    + intros c' h' [<-|[]]. reflexivity.
    + intros h'. cbn. discriminate.
Defined.

(** ** Requests sent, step by step *)

Section Sends.
Local Open Scope list_scope.

Variable env : Env.

Lemma sends_ret {A} (a : A) h : sends (ret a) env h (Normal a) [].
Proof. now split. Qed.

Lemma sends_emit e h : requests_in [e] = [] -> sends (emit e) env h (Normal tt) [].
Proof. now split. Qed.

Lemma sends_bind_ret {A B} (a : A) (f : A -> M B) h o sent :
  sends (f a) env h o sent -> sends (bind (ret a) f) env h o sent.
Proof. unfold sends, outcome_of, events_of. now rewrite bind_ret. Qed.

Lemma sends_bind_assoc {A B C} (m : M A) (f : A -> M B) (g : B -> M C) h o sent :
  sends (bind m (fun a => bind (f a) g)) env h o sent ->
  sends (bind (bind m f) g) env h o sent.
Proof. unfold sends, outcome_of, events_of. now rewrite bind_assoc. Qed.

(** A log record before a continuation, whatever was done before. *)
Lemma sends_bind_emit {B} e (f : unit -> M B) h o sent :
  requests_in [e] = [] ->
  (forall h', sends (f tt) env h' o sent) -> sends (bind (emit e) f) env h o sent.
Proof.
  intros He Hf. destruct (Hf (h ++ [e])) as [H1 H2].
  unfold sends, outcome_of, events_of in *.
  rewrite bind_emit, fst_prepend, snd_prepend, requests_in_app, He. now split.
Qed.

(** A request before a continuation, whatever it is answered. *)
Lemma sends_bind_requests {B} m t b (f : Response -> M B) h o sent :
  (forall resp h', sends (f resp) env h' o sent) ->
  sends (bind (requests m t b) f) env h o (mkRequest m t b :: sent).
Proof.
  intros Hf. unfold sends, outcome_of, events_of in *.
  rewrite bind_requests, fst_prepend, snd_prepend.
  destruct (Hf (http env h (mkRequest m t b))
              (h ++ [EvHttp (mkRequest m t b) (http env h (mkRequest m t b))]))
    as [H1 H2].
  split; [exact H1|]. cbn [app requests_in]. now rewrite H2.
Qed.

(** ... and a request whose answer is looked at. *)
Lemma sends_bind_requests_here {B} m t b (f : Response -> M B) h o sent :
  (forall h', sends (f (http env h (mkRequest m t b))) env h' o sent) ->
  sends (bind (requests m t b) f) env h o (mkRequest m t b :: sent).
Proof.
  intros Hf. unfold sends, outcome_of, events_of in *.
  rewrite bind_requests, fst_prepend, snd_prepend.
  destruct (Hf (h ++ [EvHttp (mkRequest m t b) (http env h (mkRequest m t b))]))
    as [H1 H2].
  split; [exact H1|]. cbn [app requests_in]. now rewrite H2.
Qed.

End Sends.

(** Runs a computation whose requests are answered in any way. *)
Ltac sends_steps :=
  repeat first
    [ apply sends_ret
    | apply sends_emit; reflexivity
    | apply sends_bind_ret
    | apply sends_bind_assoc
    | apply sends_bind_emit; [reflexivity | intros ?]
    | apply sends_bind_requests; intros ? ?
    | match goal with
      | |- sends (if ?b then _ else _) _ _ _ _ => destruct b
      | |- sends (bind (if ?b then _ else _) _) _ _ _ _ => destruct b
      end ].

(** ** Post-migration steps, one by one *)

Section PostMigrationSteps.
Local Open Scope list_scope.

Variable env : Env.
Variables key bb_repo code org repo : string.

Lemma update_org_repository_access_loop h :
  update_org_repository_access org repo code env h
  = for_each roles (grant_team org repo code) env h.
Proof. reflexivity. Qed.

Lemma grant_team_granted h role :
  (status_code (http env h (grant_request org repo code role)) =? 204)%Z = true ->
  outcome_of (grant_team org repo code role) env h = Normal tt
  /\ requests_in (events_of (grant_team org repo code role) env h)
     = [grant_request org repo code role].
Proof.
  intros Hst. unfold outcome_of, events_of, grant_team.
  rewrite bind_requests. fold (grant_request org repo code role). rewrite Hst.
  now split.
Qed.

Lemma grant_team_refused h role :
  (status_code (http env h (grant_request org repo code role)) =? 204)%Z = false ->
  outcome_of (grant_team org repo code role) env h = Exit 1
  /\ requests_in (events_of (grant_team org repo code role) env h)
     = [grant_request org repo code role].
Proof.
  intros Hst. unfold outcome_of, events_of, grant_team.
  rewrite bind_requests. fold (grant_request org repo code role). rewrite Hst.
  rewrite !bind_log_error. now split.
Qed.

(** The hook of one pipeline is registered by one request, and the
    step ends normally whatever the answer is. *)
Lemma update_repository_webhook_run h variant :
  String.eqb variant "Platform_Jenkins" || String.eqb variant "Old_Jenkins" = true ->
  outcome_of (update_repository_webhook org repo key bb_repo variant) env h = Normal tt
  /\ requests_in (events_of (update_repository_webhook org repo key bb_repo variant) env h)
     = [hook_request org repo
          (if String.eqb variant "Platform_Jenkins"
           then platform_jenkins_url else old_jenkins_url)].
Proof.
  intros Hv. unfold outcome_of, events_of, update_repository_webhook. rewrite Hv.
  rewrite bind_requests.
  match goal with |- context [if (status_code ?r =? 201)%Z then _ else _] =>
    destruct (status_code r =? 201)%Z
  end; now split.
Qed.

End PostMigrationSteps.

(** X14: when the registry does not answer 200, or counts no project
    for the code (a body without [count] counts none),
    [update_org_repository] ends in [AttributeError] on the missing
    project details: the request to the registry is its only one, the
    settings of the repository are not sent. *)
Theorem update_org_repository_unknown_project env h org repo code :
  let registry := mkRequest GET (ProjectRegistry code) None in
  let resp := http env h registry in
  (status_code resp =? 200)%Z = false
  \/ (exists count, Py.get (json_of resp) "count" (JNum 0) = Normal count
                    /\ Py.gt0 count = Normal false) ->
  update_org_repository org repo code env h = (Raise AttributeError, [EvHttp registry resp]).
Proof.
  cbv beta zeta. intros H. unfold update_org_repository, get_project_details.
  rewrite bind_assoc, bind_requests.
  destruct (status_code (http env h (mkRequest GET (ProjectRegistry code) None)) =? 200)%Z.
  - destruct H as [H|(count & Hcount & Hpos)]; [discriminate|].
    rewrite Hcount, !bind_assoc, bind_lift_normal, Hpos, !bind_assoc, bind_lift_normal.
    rewrite bind_ret. reflexivity.
  - rewrite bind_ret. reflexivity.
Qed.

Lemma update_org_repository_unknown_project_witness :
  let env := demo_env demo_store export_ok import_ok project_unknown in
  update_org_repository "pru-myorg" "myorg-abc-my-repo" "abc" env []
  = (Raise AttributeError,
     [EvHttp (mkRequest GET (ProjectRegistry "abc") None)
        (mkResponse 200 (JObj [("count", JNum 0); ("results", JArr [])]))]).
Proof.
  apply (update_org_repository_unknown_project
           (demo_env demo_store export_ok import_ok project_unknown) []
           "pru-myorg" "myorg-abc-my-repo" "abc").
  right. exists (JNum 0). split; reflexivity.
Defined.

(** X15: the access step grants the teams of the roles in the order
    Viewers, Contributors, Managers, with the permission of the role,
    and ends normally when each grant is answered by 204; at the first
    grant answered otherwise it leaves through [sys.exit(1)], and the
    teams after that one get no access. *)
Theorem update_org_repository_access_stops env h org repo code :
  ((forall role h', In role roles ->
      (status_code (http env h' (grant_request org repo code role)) =? 204)%Z = true) ->
   outcome_of (update_org_repository_access org repo code) env h = Normal tt
   /\ requests_in (events_of (update_org_repository_access org repo code) env h)
      = map (grant_request org repo code) roles)
  /\ (forall before role after,
        roles = (before ++ role :: after)%list ->
        (forall r h', In r before ->
           (status_code (http env h' (grant_request org repo code r)) =? 204)%Z = true) ->
        (forall h',
           (status_code (http env h' (grant_request org repo code role)) =? 204)%Z = false) ->
        outcome_of (update_org_repository_access org repo code) env h = Exit 1
        /\ requests_in (events_of (update_org_repository_access org repo code) env h)
           = map (grant_request org repo code) (before ++ [role])%list).
Proof.
  unfold outcome_of, events_of. rewrite update_org_repository_access_loop. split.
  - intros Hok.
    destruct (for_each_all requests_in eq_refl requests_in_app (grant_team org repo code)
                (fun r => [grant_request org repo code r]) env roles
                (fun r h' Hr => grant_team_granted env code org repo h' r (Hok r h' Hr)) h)
      as [H1 H2].
    unfold outcome_of, events_of in H1, H2.
    split; [exact H1|]. now rewrite H2, flat_map_singleton.
  - intros before role after -> Hok Hrole.
    destruct (for_each_stops requests_in requests_in_app (grant_team org repo code)
                (fun r => [grant_request org repo code r]) env before role after
                (Exit 1) eq_refl
                (fun r h' Hr => grant_team_granted env code org repo h' r (Hok r h' Hr))
                (fun h' => grant_team_refused env code org repo h' role (Hrole h')) h)
      as [H1 H2].
    unfold outcome_of, events_of in H1, H2.
    split; [exact H1|]. now rewrite H2, flat_map_singleton, map_app.
Qed.

Lemma update_org_repository_access_stops_witness :
  let access := update_org_repository_access "pru-myorg" "myorg-abc-my-repo" "abc" in
  let grant team permission :=
    mkRequest PUT (TeamRepo "pru-myorg" team "myorg-abc-my-repo")
      (Some (JObj [("permission", JStr permission)])) in
  (outcome_of access (demo_env demo_store export_ok import_ok no_faults) [] = Normal tt
   /\ requests_in (events_of access (demo_env demo_store export_ok import_ok no_faults) [])
      = [grant "Project-ABC-Viewers" "pull"; grant "Project-ABC-Contributors" "push";
         grant "Project-ABC-Managers" "managers"])
  /\ (outcome_of access
        (demo_env demo_store export_ok import_ok contributors_grant_refused) [] = Exit 1
      /\ requests_in
           (events_of access
              (demo_env demo_store export_ok import_ok contributors_grant_refused) [])
         = [grant "Project-ABC-Viewers" "pull"; grant "Project-ABC-Contributors" "push"]).
Proof.
  split.
  - apply (proj1 (update_org_repository_access_stops
                    (demo_env demo_store export_ok import_ok no_faults) []
                    "pru-myorg" "myorg-abc-my-repo" "abc")).
    reflexivity.
  - apply (proj2 (update_org_repository_access_stops
                    (demo_env demo_store export_ok import_ok contributors_grant_refused) []
                    "pru-myorg" "myorg-abc-my-repo" "abc")
             ["Viewers"] "Contributors" ["Managers"]).
    + reflexivity.
    + intros r h' [<-|[]]. reflexivity.
    + reflexivity.
Defined.

(** X16: the status file, the custom properties, the topics and the
    CODEOWNERS file are each set by one request, and each of these
    steps ends normally whatever the answer is.  The topic is the
    project code in lower case. *)
Theorem single_request_steps_never_abort env h org repo key bb_repo code :
  (outcome_of (create_status_file_in_repo org repo key bb_repo) env h = Normal tt
   /\ requests_in (events_of (create_status_file_in_repo org repo key bb_repo) env h)
      = [mkRequest PUT (RepoContents org repo "migration_status.txt") None])
  /\ (outcome_of (update_repo_properties org repo) env h = Normal tt
      /\ requests_in (events_of (update_repo_properties org repo) env h)
         = [mkRequest PATCH (RepoProperties org repo)
              (Some (JObj [("properties",
                            JArr [JObj [("property_name", JStr "default_branch");
                                        ("value", JStr "main")];
                                  JObj [("property_name", JStr "deployment_type");
                                        ("value", JStr "others")];
                                  JObj [("property_name", JStr "pipeline_type");
                                        ("value", JStr "Jenkins")];
                                  JObj [("property_name", JStr "production_workflow");
                                        ("value", JStr "null")]])]))])
  /\ (outcome_of (update_org_repository_topics org repo code) env h = Normal tt
      /\ requests_in (events_of (update_org_repository_topics org repo code) env h)
         = [mkRequest PUT (RepoTopics org repo)
              (Some (JObj [("names", JArr [JStr (PyStr.lower code)])]))])
  /\ (outcome_of (create_codeowners_in_repo org repo key bb_repo code) env h = Normal tt
      /\ requests_in (events_of (create_codeowners_in_repo org repo key bb_repo code) env h)
         = [mkRequest PUT (RepoContents org repo "CODEOWNERS") None]).
Proof.
  unfold outcome_of, events_of, create_status_file_in_repo, update_repo_properties,
    update_org_repository_topics, create_codeowners_in_repo.
  repeat split; rewrite bind_requests;
    match goal with |- context [if ?b then _ else _] => destruct b end;
    reflexivity.
Qed.

(** X17: the webhook step registers the hook of the platform pipeline
    for Platform_Jenkins, the hook of the old pipeline for Old_Jenkins,
    both in this order for Both_Jenkins, and sends nothing for any
    other pipeline type; it ends normally whatever the answers are, so
    a refused first hook does not keep the second from being sent. *)
Theorem register_webhooks_by_pipeline_type env h org repo key bb_repo pipeline_type :
  outcome_of (register_webhooks org repo key bb_repo pipeline_type) env h = Normal tt
  /\ requests_in (events_of (register_webhooks org repo key bb_repo pipeline_type) env h)
     = if String.eqb pipeline_type "Platform_Jenkins"
       then [hook_request org repo platform_jenkins_url]
       else if String.eqb pipeline_type "Old_Jenkins"
       then [hook_request org repo old_jenkins_url]
       else if String.eqb pipeline_type "Both_Jenkins"
       then [hook_request org repo platform_jenkins_url;
             hook_request org repo old_jenkins_url]
       else [].
Proof.
  unfold register_webhooks.
  destruct (String.eqb pipeline_type "Platform_Jenkins") eqn:E1.
  - cbn [orb].
    destruct (update_repository_webhook_run env key bb_repo org repo h pipeline_type)
      as [H1 H2]; [now rewrite E1|].
    rewrite E1 in H2. now split.
  - destruct (String.eqb pipeline_type "Old_Jenkins") eqn:E2; cbn [orb].
    + destruct (update_repository_webhook_run env key bb_repo org repo h pipeline_type)
        as [H1 H2]; [now rewrite E1, E2|].
      rewrite E1 in H2. now split.
    + destruct (String.eqb pipeline_type "Both_Jenkins"); [|now split].
      unfold outcome_of, events_of, bind.
      destruct (update_repository_webhook_run env key bb_repo org repo h
                  "Platform_Jenkins" eq_refl) as [H1 H2].
      unfold outcome_of, events_of in H1, H2.
      destruct (update_repository_webhook org repo key bb_repo "Platform_Jenkins" env h)
        as [o es]. cbn [fst snd] in H1, H2. subst o.
      rewrite fst_prepend, snd_prepend, requests_in_app, H2.
      destruct (update_repository_webhook_run env key bb_repo org repo (h ++ es)%list
                  "Old_Jenkins" eq_refl) as [H3 H4].
      unfold outcome_of, events_of in H3, H4. rewrite H3, H4. now split.
Qed.

(** X18: once the managers team is found, the environments step puts
    the production environment with that team as reviewer (the [id] of
    the answer, or null where it has none) and then posts the branch
    policies for main and for master; it ends normally whatever these
    three requests are answered. *)
Theorem update_or_create_enviroments_found env h org repo code id :
  let lookup :=
    mkRequest GET (OrgTeam org (get_gh_team_name (PyStr.upper code) "Managers")) None in
  let policy branch :=
    mkRequest POST (RepoBranchPolicies org repo "production")
      (Some (JObj [("name", JStr branch); ("type", JStr "branch")])) in
  (status_code (http env h lookup) =? 200)%Z = true ->
  Py.get (json_of (http env h lookup)) "id" JNull = Normal id ->
  outcome_of (update_or_create_enviroments org repo code) env h = Normal tt
  /\ requests_in (events_of (update_or_create_enviroments org repo code) env h)
     = [lookup;
        mkRequest PUT (RepoEnvironment org repo "production")
          (Some (JObj [("prevent_self_review", JBool true);
                       ("reviewers", JArr [JObj [("type", JStr "Team"); ("id", id)]]);
                       ("deployment_branch_policy",
                        JObj [("protected_branches", JBool false);
                              ("custom_branch_policies", JBool true)])]));
        policy "main"; policy "master"].
Proof.
  cbv beta zeta. intros Hst Hid.
  change (sends (update_or_create_enviroments org repo code) env h (Normal tt)
            [mkRequest GET (OrgTeam org (get_gh_team_name (PyStr.upper code) "Managers"))
               None;
             mkRequest PUT (RepoEnvironment org repo "production")
               (Some (JObj [("prevent_self_review", JBool true);
                            ("reviewers", JArr [JObj [("type", JStr "Team"); ("id", id)]]);
                            ("deployment_branch_policy",
                             JObj [("protected_branches", JBool false);
                                   ("custom_branch_policies", JBool true)])]));
             mkRequest POST (RepoBranchPolicies org repo "production")
               (Some (JObj [("name", JStr "main"); ("type", JStr "branch")]));
             mkRequest POST (RepoBranchPolicies org repo "production")
               (Some (JObj [("name", JStr "master"); ("type", JStr "branch")]))]).
  unfold update_or_create_enviroments, log_info, log_error.
  apply sends_bind_requests_here. intros h1. rewrite Hst, Hid.
  apply sends_bind_assoc. unfold sends, outcome_of, events_of.
  rewrite bind_lift_normal. fold (sends (A := unit)).
  cbn [for_each String.eqb Ascii.eqb Bool.eqb read_local].
  sends_steps.
Qed.

Lemma update_or_create_enviroments_found_witness :
  let env := demo_env demo_store export_ok import_ok no_faults in
  let run := update_or_create_enviroments "pru-myorg" "myorg-abc-my-repo" "abc" in
  outcome_of run env [] = Normal tt
  /\ requests_in (events_of run env [])
     = [mkRequest GET (OrgTeam "pru-myorg" "Project-ABC-Managers") None;
        mkRequest PUT (RepoEnvironment "pru-myorg" "myorg-abc-my-repo" "production")
          (Some (JObj [("prevent_self_review", JBool true);
                       ("reviewers", JArr [JObj [("type", JStr "Team"); ("id", JNum 42)]]);
                       ("deployment_branch_policy",
                        JObj [("protected_branches", JBool false);
                              ("custom_branch_policies", JBool true)])]));
        mkRequest POST (RepoBranchPolicies "pru-myorg" "myorg-abc-my-repo" "production")
          (Some (JObj [("name", JStr "main"); ("type", JStr "branch")]));
        mkRequest POST (RepoBranchPolicies "pru-myorg" "myorg-abc-my-repo" "production")
          (Some (JObj [("name", JStr "master"); ("type", JStr "branch")]))].
Proof.
  apply (update_or_create_enviroments_found
           (demo_env demo_store export_ok import_ok no_faults) []
           "pru-myorg" "myorg-abc-my-repo" "abc" (JNum 42));
    reflexivity.
Defined.

(** X19: the ledger step addresses the ledger file of the fixed
    repository pru-pss/pss-eta-bb2gh_migration, whatever the
    destination is: it sends the read and at most the write after it.
    The write is sent only after a read that was answered by 200 with a
    [sha] and a [content]; an answer 200 without [sha] ends the step in
    [KeyError] with nothing written. *)
Theorem update_migration_tracker_ledger env h org repo key bb_repo :
  let read := mkRequest GET ledger None in
  let write := mkRequest PUT ledger None in
  let answer := http env h read in
  let sent := requests_in (events_of (update_migration_tracker org repo key bb_repo) env h) in
  (sent = [read] \/ sent = [read; write])
  /\ (In write sent ->
      (status_code answer =? 200)%Z = true
      /\ is_normal (Py.getitem (json_of answer) "sha") = true
      /\ is_normal (Py.getitem (json_of answer) "content") = true)
  /\ ((status_code answer =? 200)%Z = true ->
      Py.getitem (json_of answer) "sha" = Raise KeyError ->
      update_migration_tracker org repo key bb_repo env h
      = (Raise KeyError, [EvHttp read answer])).
Proof.
  intros read write answer sent.
  assert (Hcases :
            ((status_code answer =? 200)%Z = true
             /\ is_normal (Py.getitem (json_of answer) "sha") = true
             /\ is_normal (Py.getitem (json_of answer) "content") = true
             /\ sent = [read; write])
            \/ sent = [read]).
  { subst sent. unfold events_of, update_migration_tracker. fold ledger.
    rewrite bind_requests. fold read. fold answer.
    destruct (status_code answer =? 200)%Z.
    - destruct (Py.getitem (json_of answer) "sha") as [sha|c|e];
        [|right; now rewrite !bind_assoc, bind_lift_exit
         |right; now rewrite !bind_assoc, bind_lift_raise].
      destruct (Py.getitem (json_of answer) "content") as [content|c|e];
        [|right; now rewrite !bind_assoc, bind_lift_normal, !bind_assoc, bind_lift_exit
         |right; now rewrite !bind_assoc, bind_lift_normal, !bind_assoc, bind_lift_raise].
      left. do 3 (split; [reflexivity|]).
      repeat first
        [ rewrite bind_assoc | rewrite bind_lift_normal | rewrite bind_ret
        | progress cbn [read_local] | rewrite bind_requests
        | match goal with
          | |- context [if (status_code ?r =? 200)%Z then _ else _] =>
              destruct (status_code r =? 200)%Z
          end ];
        reflexivity.
    - right.
      repeat first [rewrite bind_assoc | rewrite bind_log_error | rewrite bind_ret].
      reflexivity. }
  split; [|split].
  - destruct Hcases as [(_ & _ & _ & ->)| ->]; [now right | now left].
  - destruct Hcases as [(H1 & H2 & H3 & _)| ->]; [now intros _|].
    intros [H|[]]. discriminate.
  - intros Hst Hsha. unfold update_migration_tracker. fold ledger.
    rewrite bind_requests. fold read. fold answer. rewrite Hst, Hsha. reflexivity.
Qed.

Lemma update_migration_tracker_ledger_witness :
  let tracker := update_migration_tracker "pru-myorg" "myorg-abc-my-repo" "PRJ" "my-repo" in
  ((status_code (http (demo_env demo_store export_ok import_ok no_faults) []
                   (mkRequest GET ledger None)) =? 200)%Z = true
   /\ is_normal (Py.getitem
                   (json_of (http (demo_env demo_store export_ok import_ok no_faults) []
                               (mkRequest GET ledger None))) "sha") = true
   /\ is_normal (Py.getitem
                   (json_of (http (demo_env demo_store export_ok import_ok no_faults) []
                               (mkRequest GET ledger None))) "content") = true)
  /\ tracker (demo_env demo_store export_ok import_ok ledger_without_sha) []
     = (Raise KeyError,
        [EvHttp (mkRequest GET ledger None)
           (mkResponse 200 (JObj [("content", JStr EmptyString)]))]).
Proof.
  split.
  - apply (proj1 (proj2 (update_migration_tracker_ledger
                           (demo_env demo_store export_ok import_ok no_faults) []
                           "pru-myorg" "myorg-abc-my-repo" "PRJ" "my-repo"))).
    vm_compute. right. left. reflexivity.
  - apply (proj2 (proj2 (update_migration_tracker_ledger
                           (demo_env demo_store export_ok import_ok ledger_without_sha) []
                           "pru-myorg" "myorg-abc-my-repo" "PRJ" "my-repo")));
      reflexivity.
Defined.

(** ** What the post-migration tasks address *)

Section PostMigrationScope.
Local Open Scope list_scope.

Variables org repo : string.

Lemma in_repository_own (t : Endpoint) :
  match t with
  | TeamRepo o _ n | Repo o n | RepoContents o n _ | RepoProperties o n
  | RepoEnvironment o n _ | RepoBranchPolicies o n _ | RepoTopics o n
  | RepoHooks o n | RepoCollaborator o n _ => o = org /\ n = repo
  | _ => False
  end ->
  in_repository org repo t = true.
Proof.
  destruct t; cbn [in_repository]; try tauto; intros [-> ->];
    now rewrite !String.eqb_refl.
Qed.

End PostMigrationScope.

(** Breaks a computation down to its requests, each of which is to
    the repository, to the ledger, or a read of the registry or of a
    team. *)
Ltac scope_steps :=
  repeat first
    [ apply emits_ret | apply emits_lift
    | apply emits_bind; [|intros ?]
    | apply emits_for_each; intros ?
    | apply emits_emit; exact I
    | apply emits_requests; intros ?; cbn [post_migration_event target meth];
      first [ left; apply in_repository_own; now split
            | right; left; reflexivity
            | right; right; now split ]
    | match goal with
      | |- emits _ (if ?b then _ else _) => destruct b
      | |- emits _ (match ?x with _ => _ end) => destruct x
      end ].

Lemma post_migration_tasks_addresses key bb_repo code org pipeline_type repo :
  emits (post_migration_event org repo)
    (post_migration_tasks key bb_repo code org pipeline_type repo).
Proof.
  unfold post_migration_tasks, update_org_repository, get_project_details,
    create_status_file_in_repo, update_repo_properties, update_org_repository_topics,
    update_org_repository_access, create_codeowners_in_repo,
    update_or_create_enviroments, register_webhooks, update_repository_webhook,
    update_migration_tracker, remove_repo_admin, read_local, raise,
    log_info, log_error, sys_exit.
  scope_steps.
Qed.

(** ** More on the ruleset guard *)

Section RulesetRequests.
Import Py PyFacts.
Local Open Scope list_scope.

Variable env : Env.
Variables org repo : string.

Lemma requests_in_inv r es : In r (requests_in es) -> exists resp, In (EvHttp r resp) es.
Proof.
  induction es as [|e es IH]; cbn [requests_in]; [intros []|].
  destruct e as [r' resp| | | |];
    try (intros H; destruct (IH H) as [resp' Hr]; exists resp'; now right).
  intros [->|H].
  - exists resp. now left.
  - destruct (IH H) as [resp' Hr]. exists resp'. now right.
Qed.

(** The requests of one turn of the loop: none, or the read of the
    managed ruleset that the name of the entry selects, or that read
    and the write-back to the same ruleset. *)
Lemma toggle_ruleset_requests h action items ruleset :
  let sent :=
    requests_in (events_of (toggle_ruleset org repo action items ruleset) env h) in
  sent = []
  \/ exists name id,
       getitem ruleset "name" = Normal (JStr name)
       /\ existsb (String.eqb name) managed_rulesets = true
       /\ first_id_named name items = Normal id
       /\ (sent = [get_ruleset org id]
           \/ exists c, sent = [get_ruleset org id; put_ruleset org id c]).
Proof.
  unfold events_of, toggle_ruleset.
  destruct (getitem ruleset "name") as [n|c|e] eqn:Hn; [|now left|now left].
  rewrite bind_lift_normal.
  destruct n as [| | |s| |]; try (now left).
  destruct (existsb (String.eqb s) managed_rulesets) eqn:Hman; [|now left].
  destruct (first_id_named s items) as [id|c|e] eqn:Hid; [|now left|now left].
  rewrite bind_lift_normal, bind_requests. fold (get_ruleset org id).
  cbv zeta. right. exists s, id. do 3 (split; [first [reflexivity | assumption]|]).
  rewrite snd_prepend.
  change ([EvHttp (get_ruleset org id) (http env h (get_ruleset org id))]
          ++ ?x) with (EvHttp (get_ruleset org id) (http env h (get_ruleset org id)) :: x).
  cbn [requests_in].
  set (resp0 := http env h (get_ruleset org id)).
  set (h1 := h ++ [EvHttp (get_ruleset org id) resp0]).
  assert (Hupd : forall hh c,
             requests_in (snd (update_ruleset org id c env hh)) = [put_ruleset org id c])
    by (intros hh c; apply (update_ruleset_requests env org hh id c)).
  destruct (status_in resp0 [200; 201]%Z); cbn [negb].
  2:{ left. rewrite bind_assoc.
      destruct (get (json_of resp0) "message" JNull);
        [rewrite bind_lift_normal, bind_assoc, bind_log_error
        |rewrite bind_lift_exit|rewrite bind_lift_raise]; reflexivity. }
  rewrite bind_ret.
  destruct (getitem (json_of resp0) "conditions") as [cond|c|e];
    [|now left|now left].
  rewrite bind_lift_normal.
  destruct (String.eqb action "add").
  - destruct (contains_key "repository_name" cond) as [[]|c|e];
      [| |now left|now left]; rewrite bind_lift_normal; [|now left].
    destruct (conditions_after_add cond repo) as [c|c|e]; [|now left|now left].
    rewrite bind_lift_normal. right. exists c. now rewrite Hupd.
  - destruct (String.eqb action "remove"); [|now left].
    destruct (contains_key "repository_name" cond) as [[]|c|e];
      [| |now left|now left]; rewrite bind_lift_normal; [|now left].
    rewrite 3 bind_log_info.
    destruct (conditions_after_remove cond repo) as [c|c|e]; [|now left|now left].
    rewrite bind_lift_normal.
    match goal with
    | |- context [update_ruleset org id c env ?hh] =>
        pose proof (Hupd hh c) as Hput;
        remember (update_ruleset org id c env hh) as U eqn:HU
    end.
    clear HU. right. exists c. rewrite !snd_prepend. cbn [app requests_in].
    now rewrite Hput.
Qed.

(** The whole call after a listing that was accepted. *)
Lemma exclusion_after_listing h action items :
  let resp := http env h (list_rulesets org) in
  status_in resp [200; 201]%Z = true ->
  iter (json_of resp) = Normal items ->
  repo_name_to_exclusion_ruleset org repo action env h
  = prepend [EvHttp (list_rulesets org) resp]
      (for_each items (toggle_ruleset org repo action items) env
         (h ++ [EvHttp (list_rulesets org) resp])).
Proof.
  intros resp Hst Hit. unfold repo_name_to_exclusion_ruleset.
  rewrite bind_requests. fold (list_rulesets org). fold resp.
  rewrite Hst. cbn [negb]. now rewrite bind_ret, Hit, bind_lift_normal.
Qed.

(** The whole call after a listing that was refused. *)
Lemma exclusion_listing_refused h action :
  let resp := http env h (list_rulesets org) in
  status_in resp [200; 201]%Z = false ->
  repo_name_to_exclusion_ruleset org repo action env h
  = match get (json_of resp) "message" JNull with
    | Normal _ =>
        (Exit 1,
         [EvHttp (list_rulesets org) resp;
          EvLog ERROR "Failed to get ruleset for {org_code}. Status code: {response.status_code}, Message: {error_message}"])
    | Exit c => (Exit c, [EvHttp (list_rulesets org) resp])
    | Raise e => (Raise e, [EvHttp (list_rulesets org) resp])
    end.
Proof.
  intros resp Hst. unfold repo_name_to_exclusion_ruleset.
  rewrite bind_requests. fold (list_rulesets org). fold resp.
  rewrite Hst. cbn [negb]. rewrite bind_assoc.
  destruct (get (json_of resp) "message" JNull);
    [rewrite bind_lift_normal, bind_assoc, bind_log_error
    |rewrite bind_lift_exit|rewrite bind_lift_raise]; reflexivity.
Qed.

End RulesetRequests.

(** X21: for a ruleset whose conditions have the two lists, [add]
    hands to the write-back the same conditions with the name appended
    at the end of the exclude list, also when the name is in the list
    already; the include list and every other condition are as they
    were. *)
Theorem conditions_after_add_appends (cond : json) (repo : string) (ex inc : list json) :
  repository_name_lists cond = Some (ex, inc) ->
  exists c,
    conditions_after_add cond repo = Normal c
    /\ repository_name_lists c = Some ((ex ++ [JStr repo])%list, inc)
    /\ forall k, String.eqb k "repository_name" = false ->
                 Py.getitem c k = Py.getitem cond k.
Proof.
  intros H. destruct (repository_name_lists_inv _ _ _ H) as (d & rn & -> & H1 & H2 & H3).
  eexists. split; [exact (exclude_append_shape d rn ex repo H1 H2)|]. split.
  - unfold repository_name_lists.
    rewrite PyFacts.lookup_dict_set, PyFacts.lookup_dict_set.
    rewrite PyFacts.lookup_dict_set_other by reflexivity. now rewrite H3.
  - intros k Hk. cbn [Py.getitem]. now rewrite PyFacts.lookup_dict_set_other.
Qed.

Lemma conditions_after_add_appends_witness :
  exists c,
    conditions_after_add
      (JObj [("ref_name", JObj [("exclude", JArr []); ("include", JArr [JStr "~ALL"])]);
             ("repository_name",
              JObj [("exclude", JArr [JStr "my-repo"]); ("include", JArr [JStr "~ALL"])])])
      "my-repo" = Normal c
    /\ repository_name_lists c = Some ([JStr "my-repo"; JStr "my-repo"], [JStr "~ALL"])
    /\ forall k, String.eqb k "repository_name" = false ->
                 Py.getitem c k
                 = Py.getitem
                     (JObj [("ref_name",
                             JObj [("exclude", JArr []); ("include", JArr [JStr "~ALL"])]);
                            ("repository_name",
                             JObj [("exclude", JArr [JStr "my-repo"]);
                                   ("include", JArr [JStr "~ALL"])])]) k.
Proof.
  exact (conditions_after_add_appends
           (JObj [("ref_name", JObj [("exclude", JArr []); ("include", JArr [JStr "~ALL"])]);
                  ("repository_name",
                   JObj [("exclude", JArr [JStr "my-repo"]);
                         ("include", JArr [JStr "~ALL"])])])
           "my-repo" [JStr "my-repo"] [JStr "~ALL"] eq_refl).
Defined.

(** X22: whatever the action and the answers are, the exclusion toggle
    sends the listing of the rulesets and, besides, only reads of and
    write-backs to rulesets selected by a managed name: the id is that
    of the first entry of the listing with the name of an entry whose
    name is one of the four managed names.  No other ruleset and no
    other resource is addressed. *)
Theorem exclusion_addresses_managed_only env org repo action h r :
  In r (requests_in (events_of (repo_name_to_exclusion_ruleset org repo action) env h)) ->
  r = list_rulesets org
  \/ exists items ruleset name id,
       Py.iter (json_of (http env h (list_rulesets org))) = Normal items
       /\ In ruleset items
       /\ Py.getitem ruleset "name" = Normal (JStr name)
       /\ In name managed_rulesets
       /\ first_id_named name items = Normal id
       /\ (r = get_ruleset org id \/ exists c, r = put_ruleset org id c).
Proof.
  unfold events_of.
  destruct (status_in (http env h (list_rulesets org)) [200; 201]%Z) eqn:Hst.
  2:{ rewrite (exclusion_listing_refused env org repo h action Hst).
      destruct (Py.get (json_of (http env h (list_rulesets org))) "message" JNull);
        cbn [snd requests_in]; intros [<-|[]]; now left. }
  destruct (Py.iter (json_of (http env h (list_rulesets org)))) as [items|c|e] eqn:Hit.
  2,3: unfold repo_name_to_exclusion_ruleset;
       rewrite bind_requests; fold (list_rulesets org); rewrite Hst; cbn [negb];
       rewrite bind_ret, Hit; cbn [snd prepend lift bind app requests_in];
       intros [<-|[]]; now left.
  rewrite (exclusion_after_listing env org repo h action items Hst Hit).
  rewrite snd_prepend. cbn [app requests_in]. intros [<-|Hin]; [now left|]. right.
  apply requests_in_inv in Hin as [resp Hin].
  destruct (for_each_event (toggle_ruleset org repo action items) env items _ _ Hin)
    as (x & h' & _ & Hx & Hin' & _).
  apply requests_in_In in Hin'.
  destruct (toggle_ruleset_requests env org repo h' action items x)
    as [Hnone|(name & id & Hname & Hman & Hid & Hsent)].
  - rewrite Hnone in Hin'. destruct Hin'.
  - exists items, x, name, id. do 3 (split; [first [reflexivity | assumption]|]). split.
    + apply existsb_exists in Hman as (n & Hn & E). apply String.eqb_eq in E.
      now subst n.
    + split; [exact Hid|].
      destruct Hsent as [Hs|[c Hs]]; rewrite Hs in Hin'.
      * destruct Hin' as [<-|[]]. now left.
      * destruct Hin' as [<-|[<-|[]]]; [now left | right; now exists c].
Qed.

Lemma exclusion_addresses_managed_only_witness :
  let env := demo_env demo_store export_ok import_ok no_faults in
  let r := get_ruleset "pru-myorg" (JNum 13) in
  r = list_rulesets "pru-myorg"
  \/ exists items ruleset name id,
       Py.iter (json_of (http env [] (list_rulesets "pru-myorg"))) = Normal items
       /\ In ruleset items
       /\ Py.getitem ruleset "name" = Normal (JStr name)
       /\ In name managed_rulesets
       /\ first_id_named name items = Normal id
       /\ (r = get_ruleset "pru-myorg" id \/ exists c, r = put_ruleset "pru-myorg" id c).
Proof.
  apply (exclusion_addresses_managed_only
           (demo_env demo_store export_ok import_ok no_faults)
           "pru-myorg" "myorg-abc-my-repo" "add" []).
  vm_compute. right. right. right. left. reflexivity.
Defined.

(** X23: with an action that is neither "add" nor "remove" the toggle
    changes nothing: it sends reads only. *)
Theorem exclusion_unknown_action_reads_only env org repo action h :
  String.eqb action "add" = false ->
  String.eqb action "remove" = false ->
  Forall read_or_log (events_of (repo_name_to_exclusion_ruleset org repo action) env h).
Proof.
  intros Hadd Hremove. revert env h.
  change (emits read_or_log (repo_name_to_exclusion_ruleset org repo action)).
  unfold repo_name_to_exclusion_ruleset, toggle_ruleset, log_info, log_error, sys_exit.
  rewrite Hadd, Hremove.
  emits_steps.
Qed.

Lemma exclusion_unknown_action_reads_only_witness :
  Forall read_or_log
    (events_of (repo_name_to_exclusion_ruleset "pru-myorg" "myorg-abc-my-repo" "purge")
       (demo_env demo_store export_ok import_ok no_faults) []).
Proof.
  apply (exclusion_unknown_action_reads_only
           (demo_env demo_store export_ok import_ok no_faults)
           "pru-myorg" "myorg-abc-my-repo" "purge" []);
    reflexivity.
Defined.

(** X24: when the listing of the rulesets is not answered by 200 or
    201, the toggle reads and writes no ruleset: with a JSON object as
    answer it leaves through [sys.exit(1)] after the listing. *)
Theorem exclusion_listing_refused_exits env org repo action h message :
  status_in (http env h (list_rulesets org)) [200; 201]%Z = false ->
  Py.get (json_of (http env h (list_rulesets org))) "message" JNull = Normal message ->
  outcome_of (repo_name_to_exclusion_ruleset org repo action) env h = Exit 1
  /\ requests_in (events_of (repo_name_to_exclusion_ruleset org repo action) env h)
     = [list_rulesets org].
Proof.
  intros Hst Hmsg. unfold outcome_of, events_of.
  rewrite (exclusion_listing_refused env org repo h action Hst), Hmsg. now split.
Qed.

Lemma exclusion_listing_refused_exits_witness :
  let env := demo_env demo_store export_ok import_ok rulesets_forbidden in
  outcome_of (repo_name_to_exclusion_ruleset "pru-myorg" "myorg-abc-my-repo" "add") env []
  = Exit 1
  /\ requests_in
       (events_of (repo_name_to_exclusion_ruleset "pru-myorg" "myorg-abc-my-repo" "add")
          env [])
     = [list_rulesets "pru-myorg"].
Proof.
  apply (exclusion_listing_refused_exits
           (demo_env demo_store export_ok import_ok rulesets_forbidden)
           "pru-myorg" "myorg-abc-my-repo" "add" [] (JStr "Forbidden"));
    reflexivity.
Defined.

(** X25: [update_team_parent] changes the child team only after the
    parent team was found: when the lookup of the parent is not
    answered by 200 it leaves through [sys.exit(1)] with that lookup as
    its only request; otherwise it patches the child with the [id] of
    the parent and ends normally whatever the patch is answered. *)
Theorem update_team_parent_needs_parent env h org child parent :
  let lookup := mkRequest GET (OrgTeam org parent) None in
  ((status_code (http env h lookup) =? 200)%Z = false ->
   outcome_of (update_team_parent org child parent) env h = Exit 1
   /\ requests_in (events_of (update_team_parent org child parent) env h) = [lookup])
  /\ (forall id,
        (status_code (http env h lookup) =? 200)%Z = true ->
        Py.get (json_of (http env h lookup)) "id" JNull = Normal id ->
        outcome_of (update_team_parent org child parent) env h = Normal tt
        /\ requests_in (events_of (update_team_parent org child parent) env h)
           = [lookup;
              mkRequest PATCH (OrgTeam org child) (Some (JObj [("parent_team_id", id)]))]).
Proof.
  cbv beta zeta. unfold outcome_of, events_of, update_team_parent.
  rewrite bind_requests. split.
  - intros Hst. rewrite Hst.
    repeat first [rewrite bind_assoc | rewrite bind_log_error]. now split.
  - intros id Hst Hid. rewrite Hst, Hid, bind_lift_normal, bind_requests.
    match goal with |- context [if (status_code ?r =? 200)%Z then _ else _] =>
      destruct (status_code r =? 200)%Z
    end; now split.
Qed.

Lemma update_team_parent_needs_parent_witness :
  let run := update_team_parent "pru-myorg" "Project-ABC-Managers" "Project-ABC" in
  (outcome_of run (demo_env demo_store export_ok import_ok team_lookup_fails) [] = Exit 1
   /\ requests_in (events_of run (demo_env demo_store export_ok import_ok team_lookup_fails) [])
      = [mkRequest GET (OrgTeam "pru-myorg" "Project-ABC") None])
  /\ (outcome_of run (demo_env demo_store export_ok import_ok no_faults) [] = Normal tt
      /\ requests_in (events_of run (demo_env demo_store export_ok import_ok no_faults) [])
         = [mkRequest GET (OrgTeam "pru-myorg" "Project-ABC") None;
            mkRequest PATCH (OrgTeam "pru-myorg" "Project-ABC-Managers")
              (Some (JObj [("parent_team_id", JNum 42)]))]).
Proof.
  split.
  - apply (proj1 (update_team_parent_needs_parent
                    (demo_env demo_store export_ok import_ok team_lookup_fails) []
                    "pru-myorg" "Project-ABC-Managers" "Project-ABC")).
    reflexivity.
  - apply (proj2 (update_team_parent_needs_parent
                    (demo_env demo_store export_ok import_ok no_faults) []
                    "pru-myorg" "Project-ABC-Managers" "Project-ABC") (JNum 42));
      reflexivity.
Defined.

(** ** The release of the exclusion *)

Section Release.
Local Open Scope list_scope.

Lemma no_delay_split (es rest pre tail : list Event) (s : Z) :
  Forall no_delay es ->
  es ++ rest = pre ++ EvSleep s :: tail ->
  exists pre', pre = es ++ pre' /\ rest = pre' ++ EvSleep s :: tail.
Proof.
  intros Hes. revert pre. induction Hes as [|e es He _ IH]; intros pre E.
  - now exists pre.
  - destruct pre as [|p pre]; cbn [app] in E; injection E as -> E.
    + destruct He.
    + destruct (IH _ E) as (pre' & -> & ->). now exists pre'.
Qed.

Lemma no_delay_first (rest pre tail : list Event) (s : Z) :
  Forall no_delay rest ->
  EvSleep s :: rest = pre ++ EvSleep s :: tail ->
  pre = [] /\ tail = rest.
Proof.
  intros Hrest E. destruct pre as [|p pre]; cbn [app] in E; injection E as E.
  - now split.
  - subst rest. apply Forall_app in Hrest as [_ Hrest].
    inversion Hrest as [|x l Hx _]. destruct Hx.
Qed.

Lemma post_migration_event_no_delay org repo e :
  post_migration_event org repo e -> no_delay e.
Proof. destruct e; cbn; tauto. Qed.

Lemma post_migration_event_no_ruleset org repo es :
  Forall (post_migration_event org repo) es -> existsb ruleset_request es = false.
Proof.
  induction 1 as [|e es He _ IH]; [reflexivity|].
  cbn [existsb]. rewrite IH, orb_false_r.
  destruct e as [[m t b] resp| | | |]; try reflexivity.
  cbn in He |- *. destruct t; try reflexivity;
    destruct He as [He|[He|[_ He]]]; discriminate.
Qed.

Variable env : Env.
Variables key repo code org pipeline_type user_defined_name : string.

Lemma exclusion_no_delay new_repo action :
  emits no_delay (repo_name_to_exclusion_ruleset org new_repo action).
Proof.
  unfold repo_name_to_exclusion_ruleset, toggle_ruleset, update_ruleset,
    log_info, log_error, sys_exit.
  emits_steps; exact I.
Qed.

Lemma released_bind {A} (m : M A) (f : A -> M unit) h :
  emits no_delay m ->
  (forall a h', released_only_after_success env key repo code org pipeline_type user_defined_name h'
                   (f a env h')) ->
  released_only_after_success env key repo code org pipeline_type user_defined_name h
    (bind m f env h).
Proof.
  intros Hm Hf pre tail. specialize (Hm env h). unfold events_of, bind in *.
  destruct (m env h) as [[a|c|e] es]; cbn [snd] in *.
  - rewrite snd_prepend, fst_prepend. intros E.
    destruct (no_delay_split _ _ _ _ _ Hm E) as (pre' & -> & E').
    rewrite <- app_assoc, app_assoc. now apply Hf.
  - intros E. rewrite E in Hm. apply Forall_app in Hm as [_ Hm].
    inversion Hm as [|x l Hx _]. destruct Hx.
  - intros E. rewrite E in Hm. apply Forall_app in Hm as [_ Hm].
    inversion Hm as [|x l Hx _]. destruct Hx.
Qed.

Lemma released_after_delay h :
  released_only_after_success env key repo code org pipeline_type user_defined_name h
    (bind (time_sleep 15)
       (fun _ =>
          bind (post_migration_tasks key repo code org pipeline_type
                  (get_new_repo_name org repo code user_defined_name))
            (fun _ =>
               repo_name_to_exclusion_ruleset org
                 (get_new_repo_name org repo code user_defined_name) "remove"))
       env h).
Proof.
  intros pre tail. unfold time_sleep. rewrite bind_emit, snd_prepend, fst_prepend.
  cbn [app]. intros E.
  pose proof (post_migration_tasks_addresses key repo code org pipeline_type
                (get_new_repo_name org repo code user_defined_name) env
                (h ++ [EvSleep 15])) as Hpost.
  pose proof (exclusion_no_delay (get_new_repo_name org repo code user_defined_name)
                "remove") as Hremove.
  unfold events_of, outcome_of in *.
  assert (Hrest : Forall no_delay
            (snd (bind (post_migration_tasks key repo code org pipeline_type
                          (get_new_repo_name org repo code user_defined_name))
                    (fun _ =>
                       repo_name_to_exclusion_ruleset org
                         (get_new_repo_name org repo code user_defined_name) "remove")
                    env (h ++ [EvSleep 15])))).
  { unfold bind.
    destruct (post_migration_tasks key repo code org pipeline_type
                (get_new_repo_name org repo code user_defined_name) env
                (h ++ [EvSleep 15])) as [[a|c|e] es]; cbn [snd] in *;
      try (eapply Forall_impl; [apply post_migration_event_no_delay | exact Hpost]).
    apply Forall_app. split.
    - eapply Forall_impl; [apply post_migration_event_no_delay | exact Hpost].
    - apply Hremove. }
  destruct (no_delay_first _ _ _ _ Hrest E) as [-> ->]. cbn [app].
  unfold bind.
  destruct (post_migration_tasks key repo code org pipeline_type
              (get_new_repo_name org repo code user_defined_name) env
              (h ++ [EvSleep 15])) as [[[]|c|e] es]; cbn [fst snd] in *.
  - intros Hn. now destruct Hn.
  - intros _. split; [|reflexivity].
    now apply post_migration_event_no_ruleset with (org := org)
      (repo := get_new_repo_name org repo code user_defined_name).
  - intros _. split; [|reflexivity].
    now apply post_migration_event_no_ruleset with (org := org)
      (repo := get_new_repo_name org repo code user_defined_name).
Qed.

Lemma run_migration_released h :
  released_only_after_success env key repo code org pipeline_type user_defined_name h
    (run_migration key repo code org pipeline_type user_defined_name env h).
Proof.
  unfold run_migration.
  apply released_bind;
    [unfold set_migration_prequisite, log_error, raise; emits_steps; exact I|intros _ h1].
  apply released_bind;
    [unfold validate, valid_team_slug, log_error, log_info, sys_exit; emits_steps; exact I
    |intros _ h2].
  apply released_bind; [unfold log_info; emits_steps; exact I|intros _ h3].
  apply released_bind;
    [unfold run_export_archive, log_info, log_error, sys_exit; emits_steps; exact I
    |intros path h4].
  apply released_bind;
    [unfold scp_command, local_archive_name, run_command, log_info, log_error, raise;
     emits_steps; exact I
    |intros _ h5].
  apply released_bind; [apply exclusion_no_delay|intros _ h6].
  apply released_bind;
    [unfold run_import_archive, local_archive_name, log_info, log_error, sys_exit, raise;
     emits_steps; exact I
    |intros _ h7].
  apply released_after_delay.
Qed.

End Release.



(** ** The order of a run that succeeds *)

Section Effects.
Local Open Scope list_scope.

Lemma effects_in_app es es' : effects_in (es ++ es') = effects_in es ++ effects_in es'.
Proof.
  induction es as [|e es IH]; [reflexivity|].
  destruct e; simpl; now rewrite IH.
Qed.

(** Requests and log records have the calls as their only effects. *)
Lemma effects_of_calls es :
  Forall request_or_log es -> effects_in es = map call (calls_in es).
Proof.
  induction 1 as [|e es He _ IH]; [reflexivity|].
  destruct e; try destruct He; cbn [effects_in calls_in map]; now rewrite IH.
Qed.

Lemma read_or_log_request e : read_or_log e -> request_or_log e.
Proof. destruct e; cbn; tauto. Qed.

Lemma post_migration_event_request org repo e :
  post_migration_event org repo e -> request_or_log e.
Proof. destruct e; cbn; tauto. Qed.

Lemma ruleset_or_log_request e : ruleset_or_log e -> request_or_log e.
Proof. destruct e; cbn; tauto. Qed.

Lemma ruleset_calls es :
  Forall ruleset_or_log es ->
  Forall (fun c => ruleset_endpoint (snd c) = true) (calls_in es).
Proof.
  induction 1 as [|e es He _ IH]; [constructor|].
  destruct e as [r resp|c|c|s|l m]; cbn [ruleset_or_log calls_in] in *;
    [|destruct He|destruct He|destruct He|exact IH].
  constructor; [exact He | exact IH].
Qed.

Lemma exclusion_ruleset_or_log org repo action :
  emits ruleset_or_log (repo_name_to_exclusion_ruleset org repo action).
Proof.
  unfold repo_name_to_exclusion_ruleset, toggle_ruleset, update_ruleset,
    log_info, log_error, sys_exit.
  emits_steps.
Qed.

Variable env : Env.

Lemma prequisite_all_set h :
  (forall name, In name required_env_vars -> getenv env name <> None) ->
  set_migration_prequisite env h = (Normal tt, []).
Proof.
  intros Hset. unfold set_migration_prequisite.
  assert (H : forall l h', (forall name, In name l -> getenv env name <> None) ->
            for_each l
              (fun var_name =>
                 var_value <- os_getenv var_name ;;
                 match var_value with
                 | None =>
                     log_error "Environment variable '{var_name}' is not set." ;;
                     raise ValueError
                 | Some _ => ret tt
                 end) env h' = (Normal tt, [])).
  { induction l as [|name l IH]; intros h' Hl; cbn [for_each]; [reflexivity|].
    rewrite bind_assoc, bind_os_getenv.
    destruct (getenv env name) eqn:E; [|now destruct (Hl name (or_introl eq_refl))].
    rewrite bind_ret. apply IH. intros n Hn. apply Hl. now right. }
  now apply H.
Qed.

(** A registry answer that is accepted counts a project. *)
Lemma project_found_count j :
  project_found j = true ->
  exists count, Py.getitem j "count" = Normal count /\ Py.gt0 count = Normal true.
Proof.
  unfold project_found. destruct j as [| | | | |d]; try discriminate.
  cbn [Py.get Py.getitem]. destruct (Py.lookup "count" d) as [v|]; cbn [obind].
  - destruct (Py.gt0 v) as [[]| |] eqn:E; try discriminate. intros _. now exists v.
  - discriminate.
Qed.

Lemma validate_ok h code org :
  all_calls_succeed env ->
  completes (validate code org) env h (fun _ => True)
    ((GET, ProjectRegistry code)
     :: map (fun r => (GET, OrgTeam org (get_gh_team_name code r))) roles).
Proof.
  intros Hok.
  pose proof (Hok h (mkRequest GET (ProjectRegistry code) None)) as Hreg.
  cbn [accepted meth target] in Hreg. apply andb_true_iff in Hreg as [Hst Hfound].
  destruct (project_found_count _ Hfound) as (count & Hcount & Hpos).
  apply (validate_found env code org h count Hst Hcount Hpos).
  intros r h' _.
  pose proof (Hok h' (mkRequest GET (OrgTeam org (get_gh_team_name code r)) None)) as Ht.
  cbn [accepted meth target] in Ht. now apply andb_true_iff in Ht as [Ht _].
Qed.

Lemma run_command_effects h command :
  shell env h command = 0%Z ->
  outcome_of (run_command command) env h = Normal tt
  /\ effects_in (events_of (run_command command) env h) = [Shell command].
Proof. intros H. unfold outcome_of, events_of. now rewrite run_command_ok. Qed.

Lemma scp_command_effects h path :
  (forall h' command, shell env h' command = 0%Z) ->
  outcome_of (scp_command (Some path)) env h = Normal tt
  /\ effects_in (events_of (scp_command (Some path)) env h)
     = map Shell (scp_commands (getenv env "BB_SSH_USERNAME") (getenv env "BB_SERVER") path).
Proof.
  intros Hshell. unfold outcome_of, events_of. rewrite scp_command_commands.
  destruct (for_each_all effects_in eq_refl effects_in_app run_command
              (fun c => [Shell c]) env
              (scp_commands (getenv env "BB_SSH_USERNAME") (getenv env "BB_SERVER") path)
              (fun c h' _ => run_command_effects h' c (Hshell h' c)) h)
    as [H1 H2].
  unfold outcome_of, events_of in H1, H2.
  split; [exact H1|]. now rewrite H2, flat_map_singleton.
Qed.

End Effects.




(** X28: the two fatal steps around the others leave through
    [sys.exit(1)] when their call is refused: the update of the
    repository settings when the patch is answered by neither 200 nor
    201, the removal of the migration account when the delete is not
    answered by 204.  The removal sends that one request and ends
    normally when it is answered by 204. *)
Theorem fatal_steps_exit env h org repo code :
  let registry := mkRequest GET (ProjectRegistry code) None in
  let delete :=
    mkRequest DELETE (RepoCollaborator org repo "SRVPSSAPRBITBUCKET01_pru") None in
  (accepted registry (http env h registry) = true ->
   status_in (http env (h ++ [EvHttp registry (http env h registry)])%list
                (mkRequest PATCH (Repo org repo) None)) [200; 201]%Z = false ->
   outcome_of (update_org_repository org repo code) env h = Exit 1)
  /\ outcome_of (remove_repo_admin org repo) env h
     = (if (status_code (http env h delete) =? 204)%Z then Normal tt else Exit 1)
  /\ requests_in (events_of (remove_repo_admin org repo) env h) = [delete].
Proof.
  cbv beta zeta. split; [apply update_org_repository_fails|].
  unfold outcome_of, events_of, remove_repo_admin. cbn [for_each].
  rewrite bind_assoc, bind_requests.
  match goal with |- context [if (status_code ?r =? 204)%Z then _ else _] =>
    destruct (status_code r =? 204)%Z
  end;
    repeat first [rewrite bind_assoc | rewrite bind_log_info | rewrite bind_log_error];
    now split.
Qed.

Lemma fatal_steps_exit_witness :
  outcome_of (update_org_repository "pru-myorg" "myorg-abc-my-repo" "abc")
    (demo_env demo_store export_ok import_ok repository_locked) [] = Exit 1.
Proof.
  apply (proj1 (fatal_steps_exit
                  (demo_env demo_store export_ok import_ok repository_locked) []
                  "pru-myorg" "myorg-abc-my-repo" "abc"));
    reflexivity.
Defined.

(** X29: two steps that mean to go on after a failure do not: whenever
    the read of the ledger is not answered by 200, the ledger step logs
    the failure and ends in [UnboundLocalError] without writing; and
    whenever the lookup of the managers team is not answered by 200,
    the environments step logs the failure and ends in
    [UnboundLocalError] without creating the environment. *)
Theorem unassigned_locals_abort env h org repo key bb_repo code :
  let read := mkRequest GET ledger None in
  let lookup :=
    mkRequest GET (OrgTeam org (get_gh_team_name (PyStr.upper code) "Managers")) None in
  ((status_code (http env h read) =? 200)%Z = false ->
   outcome_of (update_migration_tracker org repo key bb_repo) env h
   = Raise UnboundLocalError
   /\ requests_in (events_of (update_migration_tracker org repo key bb_repo) env h)
      = [read])
  /\ ((status_code (http env h lookup) =? 200)%Z = false ->
      outcome_of (update_or_create_enviroments org repo code) env h
      = Raise UnboundLocalError
      /\ requests_in (events_of (update_or_create_enviroments org repo code) env h)
         = [lookup]).
Proof.
  cbv beta zeta. unfold outcome_of, events_of. split; intros Hst.
  - rewrite (update_migration_tracker_read_fails env key bb_repo org repo h Hst).
    now split.
  - rewrite (update_or_create_enviroments_lookup_fails env code org repo h Hst).
    now split.
Qed.

Lemma unassigned_locals_abort_witness :
  (outcome_of (update_migration_tracker "pru-myorg" "myorg-abc-my-repo" "PRJ" "my-repo")
     (demo_env demo_store export_ok import_ok ledger_read_fails) []
   = Raise UnboundLocalError
   /\ requests_in
        (events_of (update_migration_tracker "pru-myorg" "myorg-abc-my-repo" "PRJ" "my-repo")
           (demo_env demo_store export_ok import_ok ledger_read_fails) [])
      = [mkRequest GET ledger None])
  /\ (outcome_of (update_or_create_enviroments "pru-myorg" "myorg-abc-my-repo" "abc")
        (demo_env demo_store export_ok import_ok team_lookup_fails) []
      = Raise UnboundLocalError
      /\ requests_in
           (events_of (update_or_create_enviroments "pru-myorg" "myorg-abc-my-repo" "abc")
              (demo_env demo_store export_ok import_ok team_lookup_fails) [])
         = [mkRequest GET (OrgTeam "pru-myorg" "Project-ABC-Managers") None]).
Proof.
  split.
  - apply (proj1 (unassigned_locals_abort
                    (demo_env demo_store export_ok import_ok ledger_read_fails) []
                    "pru-myorg" "myorg-abc-my-repo" "PRJ" "my-repo" "abc")).
    reflexivity.
  - apply (proj2 (unassigned_locals_abort
                    (demo_env demo_store export_ok import_ok team_lookup_fails) []
                    "pru-myorg" "myorg-abc-my-repo" "PRJ" "my-repo" "abc")).
    reflexivity.
Defined.

(** ** The processes of a run *)

(** Breaks a computation down to its child processes. *)
Ltac process_steps :=
  repeat first
    [ apply emits_ret | apply emits_lift | apply emits_os_getenv
    | apply emits_bind; [|intros ?]
    | apply emits_try_except; [|intros ?]
    | apply emits_for_each; intros ?
    | apply emits_emit; exact I
    | apply emits_requests; intros ?; exact I
    | apply emits_run; exact I
    | apply emits_Popen; cbn [migration_process];
      first [ left; reflexivity | right; eexists; reflexivity ]
    | match goal with
      | |- emits _ (if ?b then _ else _) => destruct b
      | |- emits _ (match ?x with _ => _ end) => destruct x
      end ].

